(** * colord: the ICC profile object of lib/colord/cd-icc.c

    A shallow embedding of the [CdIcc] object: its private state, the load
    and save pipelines, the localized text cache, the metadata dictionary and
    the text repair helper, followed by the properties the specification
    states about them.

    The colour codec (lcms2), the C library's multibyte conversions and the
    GLib/GIO calls are outside the repository: they are interfaces here
    ([Lcms], [Platform]) and every general theorem holds for all of their
    implementations.  A small reference implementation ([Toy]) is used to
    evaluate the code on concrete inputs. *)

From Stdlib Require Import ZArith List Floats Strings.Byte String Ascii Lia.
From stdpp Require Import gmap strings list fin_maps.

Local Open Scope Z_scope.

(** ** C data *)

(** A [gchar *] that is used as a NUL-terminated string is a [string]; the
    contents of a [GString] or of a raw buffer are a [list byte]; a
    [wchar_t *] is the list of its code points. *)
Definition wstring := list Z.

Global Instance byte_eq_decision : EqDecision byte := Byte.byte_eq_dec.

(** [guint32] assignment from a wider integer. *)
Definition to_guint32 (n : Z) : Z := n mod 2 ^ 32.

(** ** GLib string primitives *)

Module GLib.

(** [g_string_insert_c (string, pos, c)], for [pos <= string->len]. *)
Definition g_string_insert_c (s : list byte) (pos : nat) (c : byte) : list byte :=
  take pos s ++ c :: drop pos s.

(** [g_string_erase (string, pos, len)], for [pos + len <= string->len]. *)
Definition g_string_erase (s : list byte) (pos len : nat) : list byte :=
  take pos s ++ drop (pos + len) s.

(** [g_str_has_prefix (str, prefix)] *)
Definition g_str_has_prefix (str prefix : string) : bool :=
  String.prefix prefix str.

(** The C string left in a buffer by [g_strdelimit (s, delimiters, '\0')]:
    every delimiter becomes a NUL, so the string now ends at the first. *)
Fixpoint g_strdelimit_nul (s : string) (delimiters : list ascii) : string :=
  match s with
  | EmptyString => EmptyString
  | String c r =>
      if bool_decide (c ∈ delimiters) then EmptyString
      else String c (g_strdelimit_nul r delimiters)
  end.

(** [g_strstr_len (haystack, -1, needle)] for a one-character needle:
    the offset of the first occurrence, or [None] for NULL. *)
Fixpoint g_strstr_len (haystack : string) (needle : ascii) : option nat :=
  match haystack with
  | EmptyString => None
  | String c r =>
      if Ascii.eqb c needle then Some O
      else S <$> g_strstr_len r needle
  end.

(** The pieces of [s] between occurrences of [delimiter] (at least one). *)
Fixpoint split_on (s : string) (delimiter : ascii) : list string :=
  match s with
  | EmptyString => [EmptyString]
  | String c r =>
      if Ascii.eqb c delimiter then EmptyString :: split_on r delimiter
      else match split_on r delimiter with
           | [] => [String c EmptyString]
           | w :: ws => String c w :: ws
           end
  end.

(** [g_strsplit (string, delimiter, -1)] for a one-character delimiter.
    Splitting the empty string gives the empty vector. *)
Definition g_strsplit (s : string) (delimiter : ascii) : list string :=
  match s with
  | EmptyString => []
  | _ => split_on s delimiter
  end.

End GLib.

Import GLib.

(** ** UTF-8 *)

(** The decoder behind the reference platform: strict UTF-8 (no overlong
    forms, no surrogates, nothing above U+10FFFF). *)
Module Utf8.

Definition is_cont (b : byte) : bool :=
  let n := Z.of_N (Byte.to_N b) in (0x80 <=? n) && (n <=? 0xBF).

Definition payload (b : byte) : Z := Z.land (Z.of_N (Byte.to_N b)) 0x3F.

Fixpoint decode (s : list byte) : option (list Z) :=
  match s with
  | [] => Some []
  | b0 :: r =>
      let c0 := Z.of_N (Byte.to_N b0) in
      if c0 <? 0x80 then cons c0 <$> decode r
      else if (0xC2 <=? c0) && (c0 <=? 0xDF) then
        match r with
        | b1 :: r1 =>
            if is_cont b1
            then cons (Z.shiftl (Z.land c0 0x1F) 6 + payload b1) <$> decode r1
            else None
        | _ => None
        end
      else if (0xE0 <=? c0) && (c0 <=? 0xEF) then
        match r with
        | b1 :: b2 :: r2 =>
            let cp := Z.shiftl (Z.land c0 0x0F) 12
                      + Z.shiftl (payload b1) 6 + payload b2 in
            if is_cont b1 && is_cont b2 && (0x800 <=? cp)
               && negb ((0xD800 <=? cp) && (cp <=? 0xDFFF))
            then cons cp <$> decode r2
            else None
        | _ => None
        end
      else if (0xF0 <=? c0) && (c0 <=? 0xF4) then
        match r with
        | b1 :: b2 :: b3 :: r3 =>
            let cp := Z.shiftl (Z.land c0 0x07) 18
                      + Z.shiftl (payload b1) 12
                      + Z.shiftl (payload b2) 6 + payload b3 in
            if is_cont b1 && is_cont b2 && is_cont b3
               && (0x10000 <=? cp) && (cp <=? 0x10FFFF)
            then cons cp <$> decode r3
            else None
        | _ => None
        end
      else None
  end.

(** [g_utf8_validate (str, len, NULL)] with an explicit length: valid
    UTF-8 and no NUL among the [len] bytes. *)
Definition validate (s : list byte) : bool :=
  match decode s with
  | Some cps => forallb (fun cp => negb (cp =? 0)) cps
  | None => false
  end.

Definition bytes_of_string (s : string) : list byte :=
  map byte_of_ascii (list_ascii_of_string s).

End Utf8.

(** ** Errors, enumerations and constants *)

(** Modelled from the spec: the [CdIccError] codes of cd-icc.h, which is
    not among the sources (section 6: FailedToOpen, FailedToParse,
    FailedToSave, InvalidLocale, NoData), under the names the code uses. *)
Inductive CdIccError :=
| CD_ICC_ERROR_FAILED_TO_OPEN
| CD_ICC_ERROR_FAILED_TO_PARSE
| CD_ICC_ERROR_FAILED_TO_SAVE
| CD_ICC_ERROR_INVALID_LOCALE
| CD_ICC_ERROR_NO_DATA.

Inductive printf_arg := ArgS (s : string) | ArgI (n : Z).

(** A [GError] as [g_set_error (error, CD_ICC_ERROR, code, format, ...)]
    builds it; [g_set_error_literal] has no arguments. *)
Record GError := {
  code : CdIccError;
  format : string;
  args : list printf_arg
}.

Definition g_set_error_literal (c : CdIccError) (msg : string) : GError :=
  {| code := c; format := msg; args := [] |}.

(** Modelled from the spec: the [CdProfileKind] enumeration of cd-enum.h,
    which is not among the sources (section 3: input, display, output,
    device-link, colorspace-conversion, abstract, named-color, unknown;
    [CD_PROFILE_KIND_LAST] is the sentinel of the lookup table). *)
Inductive CdProfileKind :=
| CD_PROFILE_KIND_UNKNOWN
| CD_PROFILE_KIND_INPUT_DEVICE
| CD_PROFILE_KIND_DISPLAY_DEVICE
| CD_PROFILE_KIND_OUTPUT_DEVICE
| CD_PROFILE_KIND_DEVICELINK
| CD_PROFILE_KIND_COLORSPACE_CONVERSION
| CD_PROFILE_KIND_ABSTRACT
| CD_PROFILE_KIND_NAMED_COLOR
| CD_PROFILE_KIND_LAST.

(** Modelled from the spec: the [CdColorspace] enumeration of cd-enum.h,
    which is not among the sources (section 3: XYZ, Lab, Luv, YCbCr, Yxy,
    RGB, Gray, HSV, CMYK, CMY, unknown; [CD_COLORSPACE_LAST] is the
    sentinel of the lookup table). *)
Inductive CdColorspace :=
| CD_COLORSPACE_UNKNOWN
| CD_COLORSPACE_XYZ
| CD_COLORSPACE_LAB
| CD_COLORSPACE_LUV
| CD_COLORSPACE_YCBCR
| CD_COLORSPACE_YXY
| CD_COLORSPACE_RGB
| CD_COLORSPACE_GRAY
| CD_COLORSPACE_HSV
| CD_COLORSPACE_CMYK
| CD_COLORSPACE_CMY
| CD_COLORSPACE_LAST.

Global Instance CdProfileKind_eq_dec : EqDecision CdProfileKind.
Proof. solve_decision. Defined.

Global Instance CdColorspace_eq_dec : EqDecision CdColorspace.
Proof. solve_decision. Defined.

(** Modelled from the spec: the load options of cd-icc.h, which is not
    among the sources (section 4.6: named-colors, translations, metadata,
    fallback-checksum).  The code tests them as bits of a [CdIccLoadFlags]
    mask; which bit each one is does not matter to any property below, and
    four distinct bits are taken here. *)
Definition CD_ICC_LOAD_FLAGS_NAMED_COLORS : Z := Z.shiftl 1 0.
Definition CD_ICC_LOAD_FLAGS_TRANSLATIONS : Z := Z.shiftl 1 1.
Definition CD_ICC_LOAD_FLAGS_METADATA : Z := Z.shiftl 1 2.
Definition CD_ICC_LOAD_FLAGS_FALLBACK_MD5 : Z := Z.shiftl 1 3.

(** [(flags & flag) > 0] *)
Definition flag_set (flags flag : Z) : bool := 0 <? Z.land flags flag.

Inductive CdIccMluc :=
| CD_MLUC_DESCRIPTION
| CD_MLUC_COPYRIGHT
| CD_MLUC_MANUFACTURER
| CD_MLUC_MODEL.

Global Instance CdIccMluc_eq_dec : EqDecision CdIccMluc.
Proof. solve_decision. Defined.

(** Signatures of lcms2.h (four-character codes). *)
Module Sig.
Definition cmsSigInputClass : Z := 0x73636E72.
Definition cmsSigDisplayClass : Z := 0x6D6E7472.
Definition cmsSigOutputClass : Z := 0x70727472.
Definition cmsSigLinkClass : Z := 0x6C696E6B.
Definition cmsSigAbstractClass : Z := 0x61627374.
Definition cmsSigColorSpaceClass : Z := 0x73706163.
Definition cmsSigNamedColorClass : Z := 0x6E6D636C.

Definition cmsSigXYZData : Z := 0x58595A20.
Definition cmsSigLabData : Z := 0x4C616220.
Definition cmsSigLuvData : Z := 0x4C757620.
Definition cmsSigYCbCrData : Z := 0x59436272.
Definition cmsSigYxyData : Z := 0x59787920.
Definition cmsSigRgbData : Z := 0x52474220.
Definition cmsSigGrayData : Z := 0x47524159.
Definition cmsSigHsvData : Z := 0x48535620.
Definition cmsSigCmykData : Z := 0x434D594B.
Definition cmsSigCmyData : Z := 0x434D5920.

Definition cmsSigProfileDescriptionTag : Z := 0x64657363.
Definition cmsSigCopyrightTag : Z := 0x63707274.
Definition cmsSigDeviceMfgDescTag : Z := 0x646D6E64.
Definition cmsSigDeviceModelDescTag : Z := 0x646D6464.
Definition cmsSigMetaTag : Z := 0x6D657461.
Definition cmsSigNamedColor2Type : Z := 0x6E636C32.
End Sig.

Import Sig.

(** [cmsNoLanguage] and [cmsNoCountry]: two NUL bytes, the empty C string. *)
Definition cmsNoLanguage : string := "".
Definition cmsNoCountry : string := "".

(** The two lookup tables, up to their sentinel entry. *)
Definition map_profile_kind : list (Z * CdProfileKind) :=
  [ (cmsSigInputClass, CD_PROFILE_KIND_INPUT_DEVICE);
    (cmsSigDisplayClass, CD_PROFILE_KIND_DISPLAY_DEVICE);
    (cmsSigOutputClass, CD_PROFILE_KIND_OUTPUT_DEVICE);
    (cmsSigLinkClass, CD_PROFILE_KIND_DEVICELINK);
    (cmsSigColorSpaceClass, CD_PROFILE_KIND_COLORSPACE_CONVERSION);
    (cmsSigAbstractClass, CD_PROFILE_KIND_ABSTRACT);
    (cmsSigNamedColorClass, CD_PROFILE_KIND_NAMED_COLOR) ].

Definition map_colorspace : list (Z * CdColorspace) :=
  [ (cmsSigXYZData, CD_COLORSPACE_XYZ);
    (cmsSigLabData, CD_COLORSPACE_LAB);
    (cmsSigLuvData, CD_COLORSPACE_LUV);
    (cmsSigYCbCrData, CD_COLORSPACE_YCBCR);
    (cmsSigYxyData, CD_COLORSPACE_YXY);
    (cmsSigRgbData, CD_COLORSPACE_RGB);
    (cmsSigGrayData, CD_COLORSPACE_GRAY);
    (cmsSigHsvData, CD_COLORSPACE_HSV);
    (cmsSigCmykData, CD_COLORSPACE_CMYK);
    (cmsSigCmyData, CD_COLORSPACE_CMY) ].

(** ** The external interfaces *)

Record cmsDICTentry := {
  Name : wstring;
  Value : wstring
}.

(** A dictionary handle: the entry list, newest entry first.
    [DisplayName] and [DisplayValue] are always NULL in this code. *)
Definition cmsDICT := list cmsDICTentry.

Definition cmsDictAlloc : cmsDICT := [].

Definition cmsDictAddEntry (dict : cmsDICT) (name value : wstring) : bool * cmsDICT :=
  (true, {| Name := name; Value := value |} :: dict).

Definition cmsDictGetEntryList (dict : cmsDICT) : list cmsDICTentry := dict.

(** [CdColorLab] of cd-color.h: L, a and b. *)
Record CdColorLab := { Lab_L : float; Lab_a : float; Lab_b : float }.

Record CdColorSwatch := {
  swatch_name : list byte;
  swatch_value : CdColorLab
}.

Record FILE := { fileno : Z }.

(** A [GFile] is named by its URI. *)
Definition GFile := string.

(** What is handed to [cmsWriteTag]: NULL deletes the tag. *)
Inductive TagData (MLU : Type) :=
| TagMLU (mlu : MLU)
| TagDict (dict : cmsDICT).
Arguments TagMLU {MLU} mlu.
Arguments TagDict {MLU} dict.

(** The colour codec.  A profile handle is the codec's state for one
    profile; the calls that change it return the new state. *)
Class Lcms := {
  cmsHPROFILE : Type;
  cmsMLU : Type;
  cmsNAMEDCOLORLIST : Type;
  cmsOpenProfileFromMem : list byte -> Z -> option cmsHPROFILE;
  cmsOpenProfileFromStream : FILE -> option cmsHPROFILE;
  cmsGetProfileVersion : cmsHPROFILE -> float;
  cmsGetDeviceClass : cmsHPROFILE -> Z;
  cmsGetColorSpace : cmsHPROFILE -> Z;
  (** the 16 bytes written to [icc_id] *)
  cmsGetHeaderProfileID : cmsHPROFILE -> list byte;
  (** [cmsReadTag] returns an untyped pointer; one reader per cast *)
  cmsReadTag_mlu : cmsHPROFILE -> Z -> option cmsMLU;
  cmsReadTag_dict : cmsHPROFILE -> Z -> option cmsDICT;
  cmsReadTag_ncl : cmsHPROFILE -> Z -> option cmsNAMEDCOLORLIST;
  cmsNamedColorCount : cmsNAMEDCOLORLIST -> nat;
  (** name, prefix, suffix and PCS values, or [None] for FALSE *)
  cmsNamedColorInfo :
    cmsNAMEDCOLORLIST -> nat -> option (list byte * list byte * list byte * (Z * Z * Z));
  cmsLabEncoded2Float : Z * Z * Z -> CdColorLab;
  cmsSetDeviceClass : cmsHPROFILE -> Z -> cmsHPROFILE;
  cmsSetColorSpace : cmsHPROFILE -> Z -> cmsHPROFILE;
  cmsSetProfileVersion : cmsHPROFILE -> float -> cmsHPROFILE;
  cmsWriteTag : cmsHPROFILE -> Z -> option (TagData cmsMLU) -> bool * cmsHPROFILE;
  cmsMLUalloc : nat -> cmsMLU;
  cmsMLUsetWide : cmsMLU -> string -> string -> option wstring -> bool * cmsMLU;
  (** the returned size and the text left in the buffer of the given size *)
  cmsMLUgetWide : cmsMLU -> string -> string -> nat -> Z * wstring;
  cmsMD5computeID : cmsHPROFILE -> bool * cmsHPROFILE;
  (** [cmsSaveProfileToMem (profile, MemPtr, &BytesNeeded)]: whether a
      buffer is given and its size; the size needed and the bytes stored *)
  cmsSaveProfileToMem : cmsHPROFILE -> option Z -> option (Z * list byte)
}.

(** The C library, GLib and GIO. *)
Class Platform := {
  (** [None] is [(size_t) -1] *)
  mbstowcs : string -> option wstring;
  (** the C string left in a destination of the given size *)
  wcstombs : wstring -> nat -> option string;
  (** what is read from a destination after a failed, unchecked conversion *)
  wcstombs_stale : wstring -> nat -> string;
  g_utf8_validate : list byte -> bool;
  (** [g_compute_checksum_for_data (G_CHECKSUM_MD5, data, length)] *)
  g_compute_checksum_for_data : list byte -> string;
  (** the error message, or the contents *)
  g_file_load_contents : GFile -> string + list byte;
  (** [G_FILE_ATTRIBUTE_ACCESS_CAN_DELETE], or the error message *)
  g_file_query_info : GFile -> string + bool;
  g_file_get_path : GFile -> option string;
  (** [None] on success, or the error message *)
  g_file_replace_contents : GFile -> list byte -> option string;
  fdopen : Z -> option FILE
}.

(** [g_hash_table_size] *)
Definition g_hash_table_size (hash_table : gmap string string) : nat :=
  size hash_table.

(** ** The object and its state *)

Section Icc.

Context `{cms : Lcms} `{os : Platform}.

(** The calls that act on the outside world, in the order they are made.
    Reads of an open profile and diagnostic messages leave no record. *)
Inductive Call :=
| Call_cmsOpenProfileFromMem (data : list byte) (size : Z)
| Call_cmsOpenProfileFromStream (stream : FILE)
| Call_cmsSetDeviceClass (sig : Z)
| Call_cmsSetColorSpace (sig : Z)
| Call_cmsSetProfileVersion (version : float)
| Call_cmsWriteTag (sig : Z) (data : option (TagData cmsMLU))
| Call_cmsMD5computeID
| Call_cmsSaveProfileToMem (mem : option Z)
| Call_g_file_load_contents (file : GFile)
| Call_g_file_query_info (file : GFile)
| Call_g_file_replace_contents (file : GFile) (data : list byte)
| Call_fdopen (fd : Z).

(** [struct _CdIccPrivate]; [mluc_data[CD_MLUC_LAST]] is one table per
    field, keyed by 'en_GB' or '' for the default. *)
Record CdIccPrivate := {
  colorspace : CdColorspace;
  kind : CdProfileKind;
  lcms_profile : option cmsHPROFILE;
  can_delete : bool;
  checksum : option string;
  filename : option string;
  version : float;
  mluc_description : gmap string string;
  mluc_copyright : gmap string string;
  mluc_manufacturer : gmap string string;
  mluc_model : gmap string string;
  metadata : gmap string string;
  size : Z;
  named_colors : list CdColorSwatch
}.

Definition mluc_data (p : CdIccPrivate) (mluc : CdIccMluc) : gmap string string :=
  match mluc with
  | CD_MLUC_DESCRIPTION => mluc_description p
  | CD_MLUC_COPYRIGHT => mluc_copyright p
  | CD_MLUC_MANUFACTURER => mluc_manufacturer p
  | CD_MLUC_MODEL => mluc_model p
  end.

Definition set_colorspace (v : CdColorspace) (p : CdIccPrivate) : CdIccPrivate :=
  {| colorspace := v; kind := kind p; lcms_profile := lcms_profile p;
     can_delete := can_delete p; checksum := checksum p; filename := filename p;
     version := version p; mluc_description := mluc_description p;
     mluc_copyright := mluc_copyright p; mluc_manufacturer := mluc_manufacturer p;
     mluc_model := mluc_model p; metadata := metadata p; size := size p;
     named_colors := named_colors p |}.

Definition set_kind (v : CdProfileKind) (p : CdIccPrivate) : CdIccPrivate :=
  {| colorspace := colorspace p; kind := v; lcms_profile := lcms_profile p;
     can_delete := can_delete p; checksum := checksum p; filename := filename p;
     version := version p; mluc_description := mluc_description p;
     mluc_copyright := mluc_copyright p; mluc_manufacturer := mluc_manufacturer p;
     mluc_model := mluc_model p; metadata := metadata p; size := size p;
     named_colors := named_colors p |}.

Definition set_lcms_profile (v : option cmsHPROFILE) (p : CdIccPrivate) : CdIccPrivate :=
  {| colorspace := colorspace p; kind := kind p; lcms_profile := v;
     can_delete := can_delete p; checksum := checksum p; filename := filename p;
     version := version p; mluc_description := mluc_description p;
     mluc_copyright := mluc_copyright p; mluc_manufacturer := mluc_manufacturer p;
     mluc_model := mluc_model p; metadata := metadata p; size := size p;
     named_colors := named_colors p |}.

Definition set_can_delete (v : bool) (p : CdIccPrivate) : CdIccPrivate :=
  {| colorspace := colorspace p; kind := kind p; lcms_profile := lcms_profile p;
     can_delete := v; checksum := checksum p; filename := filename p;
     version := version p; mluc_description := mluc_description p;
     mluc_copyright := mluc_copyright p; mluc_manufacturer := mluc_manufacturer p;
     mluc_model := mluc_model p; metadata := metadata p; size := size p;
     named_colors := named_colors p |}.

Definition set_checksum (v : option string) (p : CdIccPrivate) : CdIccPrivate :=
  {| colorspace := colorspace p; kind := kind p; lcms_profile := lcms_profile p;
     can_delete := can_delete p; checksum := v; filename := filename p;
     version := version p; mluc_description := mluc_description p;
     mluc_copyright := mluc_copyright p; mluc_manufacturer := mluc_manufacturer p;
     mluc_model := mluc_model p; metadata := metadata p; size := size p;
     named_colors := named_colors p |}.

Definition set_filename (v : option string) (p : CdIccPrivate) : CdIccPrivate :=
  {| colorspace := colorspace p; kind := kind p; lcms_profile := lcms_profile p;
     can_delete := can_delete p; checksum := checksum p; filename := v;
     version := version p; mluc_description := mluc_description p;
     mluc_copyright := mluc_copyright p; mluc_manufacturer := mluc_manufacturer p;
     mluc_model := mluc_model p; metadata := metadata p; size := size p;
     named_colors := named_colors p |}.

Definition set_version (v : float) (p : CdIccPrivate) : CdIccPrivate :=
  {| colorspace := colorspace p; kind := kind p; lcms_profile := lcms_profile p;
     can_delete := can_delete p; checksum := checksum p; filename := filename p;
     version := v; mluc_description := mluc_description p;
     mluc_copyright := mluc_copyright p; mluc_manufacturer := mluc_manufacturer p;
     mluc_model := mluc_model p; metadata := metadata p; size := size p;
     named_colors := named_colors p |}.

Definition set_mluc_data (mluc : CdIccMluc) (v : gmap string string)
    (p : CdIccPrivate) : CdIccPrivate :=
  {| colorspace := colorspace p; kind := kind p; lcms_profile := lcms_profile p;
     can_delete := can_delete p; checksum := checksum p; filename := filename p;
     version := version p;
     mluc_description :=
       match mluc with CD_MLUC_DESCRIPTION => v | _ => mluc_description p end;
     mluc_copyright :=
       match mluc with CD_MLUC_COPYRIGHT => v | _ => mluc_copyright p end;
     mluc_manufacturer :=
       match mluc with CD_MLUC_MANUFACTURER => v | _ => mluc_manufacturer p end;
     mluc_model :=
       match mluc with CD_MLUC_MODEL => v | _ => mluc_model p end;
     metadata := metadata p; size := size p;
     named_colors := named_colors p |}.

Definition set_metadata (v : gmap string string) (p : CdIccPrivate) : CdIccPrivate :=
  {| colorspace := colorspace p; kind := kind p; lcms_profile := lcms_profile p;
     can_delete := can_delete p; checksum := checksum p; filename := filename p;
     version := version p; mluc_description := mluc_description p;
     mluc_copyright := mluc_copyright p; mluc_manufacturer := mluc_manufacturer p;
     mluc_model := mluc_model p; metadata := v; size := size p;
     named_colors := named_colors p |}.

Definition set_size (v : Z) (p : CdIccPrivate) : CdIccPrivate :=
  {| colorspace := colorspace p; kind := kind p; lcms_profile := lcms_profile p;
     can_delete := can_delete p; checksum := checksum p; filename := filename p;
     version := version p; mluc_description := mluc_description p;
     mluc_copyright := mluc_copyright p; mluc_manufacturer := mluc_manufacturer p;
     mluc_model := mluc_model p; metadata := metadata p; size := v;
     named_colors := named_colors p |}.

Definition set_named_colors (v : list CdColorSwatch) (p : CdIccPrivate) : CdIccPrivate :=
  {| colorspace := colorspace p; kind := kind p; lcms_profile := lcms_profile p;
     can_delete := can_delete p; checksum := checksum p; filename := filename p;
     version := version p; mluc_description := mluc_description p;
     mluc_copyright := mluc_copyright p; mluc_manufacturer := mluc_manufacturer p;
     mluc_model := mluc_model p; metadata := metadata p; size := size p;
     named_colors := v |}.

(** [cd_icc_init]: the object as [cd_icc_new] returns it. *)
Definition cd_icc_init : CdIccPrivate :=
  {| colorspace := CD_COLORSPACE_UNKNOWN; kind := CD_PROFILE_KIND_UNKNOWN;
     lcms_profile := None; can_delete := false; checksum := None;
     filename := None; version := 0%float; mluc_description := ∅;
     mluc_copyright := ∅; mluc_manufacturer := ∅; mluc_model := ∅;
     metadata := ∅; size := 0; named_colors := [] |}.

(** The object together with the record of the calls made so far. *)
Record State := {
  priv : CdIccPrivate;
  calls : list Call
}.

Definition cd_icc_new : State := {| priv := cd_icc_init; calls := [] |}.

(** *** State passing *)

Definition M (A : Type) : Type := State -> A * State.

#[global] Instance M_ret : MRet M := λ A x s, (x, s).
#[global] Instance M_bind : MBind M :=
  λ A B f m s, let '(x, s') := m s in f x s'.

Definition get : M CdIccPrivate := λ s, (priv s, s).

Definition modify (f : CdIccPrivate -> CdIccPrivate) : M unit :=
  λ s, (tt, {| priv := f (priv s); calls := calls s |}).

Definition call (c : Call) : M unit :=
  λ s, (tt, {| priv := priv s; calls := calls s ++ [c] |}).

(** The codec dereferences the profile handle, so the C program has no
    defined behaviour when it reaches one of these calls with a NULL
    handle.  The model skips the call then; every theorem about such a
    call assumes a handle. *)
Definition lcms_read {A : Type} (dflt : A) (f : cmsHPROFILE -> A) : M A :=
  p ← get;
  mret (from_option f dflt (lcms_profile p)).

Definition lcms_set (c : Call) (f : cmsHPROFILE -> cmsHPROFILE) : M unit :=
  p ← get;
  match lcms_profile p with
  | None => mret tt
  | Some h => call c;; modify (set_lcms_profile (Some (f h)))
  end.

Definition lcms_do (c : Call) (f : cmsHPROFILE -> bool * cmsHPROFILE) : M bool :=
  p ← get;
  match lcms_profile p with
  | None => mret false
  | Some h =>
      call c;;
      modify (set_lcms_profile (Some (f h).2));;
      mret (f h).1
  end.


(** *** Text repair *)

(** The loop of [cd_icc_fix_utf8_string]: [i] is the loop index, [str]
    the bytes of the [GString].  An iteration that does not stop consumes
    one more piece of fuel; [cd_icc_fix_utf8_string_loop_spec] below shows
    that the length of the input is always enough. *)
Fixpoint cd_icc_fix_utf8_string_loop (fuel : nat) (str : list byte) (i : nat)
    : list byte :=
  match fuel with
  | O => str
  | S fuel =>
      match str !! i with
      | None => str
      | Some tmp =>
          let '(str, i) :=
            if Byte.eqb tmp xae
            then (g_string_insert_c (<[i := xc2]> str) (i + 1) tmp, (i + 1)%nat)
            else (str, i) in
          let str :=
            if Byte.eqb tmp x86 then g_string_erase str i 1 else str in
          cd_icc_fix_utf8_string_loop fuel str (i + 1)
      end
  end.

(** [cd_icc_fix_utf8_string]: the result and the repaired string. *)
Definition cd_icc_fix_utf8_string (string : list byte) : bool * list byte :=
  let string := cd_icc_fix_utf8_string_loop (length string) string 0 in
  (g_utf8_validate string, string).

(** *** The embedded profile identifier *)

Definition hex_digit (n : Z) : ascii :=
  default "0"%char (String.get (Z.to_nat n) "0123456789abcdef").

(** [g_snprintf (buf, 3, "%02x", byte)] *)
Definition snprintf_02x (byte : byte) : string :=
  let n := Z.of_N (Byte.to_N byte) in
  String (hex_digit (n / 16)) (String (hex_digit (n mod 16)) EmptyString).

(** [icc_id[i]] after [cmsGetHeaderProfileID] *)
Definition icc_id (h : cmsHPROFILE) (i : nat) : byte :=
  nth i (cmsGetHeaderProfileID h) x00.

Definition cd_icc_get_precooked_md5 (h : cmsHPROFILE) : option string :=
  let md5_precooked :=
    existsb (λ i, negb (Byte.eqb (icc_id h i) x00)) (seq 0 16) in
  if negb md5_precooked then None
  else Some (foldr (λ i md5, snprintf_02x (icc_id h i) +:+ md5) EmptyString (seq 0 16)).

(** *** Localized text *)

Definition cd_icc_get_locale_key (locale : option string) : string :=
  match locale with
  | None => ""
  | Some locale =>
      if g_str_has_prefix locale "en_US" then ""
      else g_strdelimit_nul locale ["."; "("]%char
  end.

(** "read each MLU entry in order of preference" *)
Fixpoint read_first_mlu (h : cmsHPROFILE) (sigs : list Z) : option cmsMLU :=
  match sigs with
  | [] => None
  | sig :: sigs =>
      match cmsReadTag_mlu h sig with
      | Some mlu => Some mlu
      | None => read_first_mlu h sigs
      end
  end.

(** "decompose it into language and country codes": the two codes, and
    what is left of [locale_key] once the '_' has been overwritten with a
    NUL.  The codes of the empty key are the initial three NUL bytes. *)
Definition decompose_locale_key (locale_key : string) : string * string * string :=
  match locale_key with
  | EmptyString => (cmsNoLanguage, cmsNoCountry, locale_key)
  | _ =>
      match g_strstr_len locale_key "_" with
      | Some n =>
          (String.substring 0 n locale_key,
           String.substring (S n) (String.length locale_key - S n) locale_key,
           String.substring 0 n locale_key)
      | None => (locale_key, cmsNoCountry, locale_key)
      end
  end.

Definition invalid_locale (locale : option string) : GError :=
  {| code := CD_ICC_ERROR_INVALID_LOCALE;
     format := "invalid locale: %s";
     args := [ArgS (default "" locale)] |}.

(** [cd_icc_get_mluc_data]: the returned text and the error that was set.
    [sigs] is the signature array without its terminating 0. *)
Definition cd_icc_get_mluc_data (locale : option string) (mluc : CdIccMluc)
    (sigs : list Z) : M (option string * option GError) :=
  p ← get;
  let locale_key := cd_icc_get_locale_key locale in
  match mluc_data p mluc !! locale_key with
  | Some value => mret (Some value, None)
  | None =>
      let '(language_code, country_code, locale_key') :=
        decompose_locale_key locale_key in
      if bool_decide (locale_key ≠ "")
         && negb (String.length language_code =? 2)%nat
      then mret (None, Some (invalid_locale locale))
      else if bool_decide (locale_key ≠ "")
              && bool_decide (country_code ≠ "")
              && negb (String.length country_code =? 2)%nat
      then mret (None, Some (invalid_locale locale))
      else
        mlu ← lcms_read None (λ h, read_first_mlu h sigs);
        match mlu with
        | None =>
            mret (None, Some (g_set_error_literal CD_ICC_ERROR_NO_DATA
                                "cmsSigProfile*Tag mising"))
        | Some mlu =>
            let '(text_size, wtext) :=
              cmsMLUgetWide mlu language_code country_code 128 in
            if text_size =? 0 then mret (None, None)
            else
              match wcstombs wtext 128 with
              | None =>
                  mret (None, Some (g_set_error_literal CD_ICC_ERROR_NO_DATA
                                      "invalid UTF-8"))
              | Some text_buffer =>
                  modify (λ p, set_mluc_data mluc
                                 (<[locale_key' := text_buffer]> (mluc_data p mluc)) p);;
                  mret (Some text_buffer, None)
              end
        end
  end.

Definition cd_icc_get_description (locale : option string) :=
  cd_icc_get_mluc_data locale CD_MLUC_DESCRIPTION
    [0x6473636d; cmsSigProfileDescriptionTag].

Definition cd_icc_get_copyright (locale : option string) :=
  cd_icc_get_mluc_data locale CD_MLUC_COPYRIGHT [cmsSigCopyrightTag].

Definition cd_icc_get_manufacturer (locale : option string) :=
  cd_icc_get_mluc_data locale CD_MLUC_MANUFACTURER [cmsSigDeviceMfgDescTag].

Definition cd_icc_get_model (locale : option string) :=
  cd_icc_get_mluc_data locale CD_MLUC_MODEL [cmsSigDeviceModelDescTag].

(** [cd_icc_set_description], [cd_icc_set_copyright],
    [cd_icc_set_manufacturer] and [cd_icc_set_model] differ in the table
    only. *)
Definition cd_icc_set_mluc (mluc : CdIccMluc) (locale : option string)
    (value : string) : M unit :=
  modify (λ p, set_mluc_data mluc
                 (<[cd_icc_get_locale_key locale := value]> (mluc_data p mluc)) p).

Definition cd_icc_set_description := cd_icc_set_mluc CD_MLUC_DESCRIPTION.
Definition cd_icc_set_copyright := cd_icc_set_mluc CD_MLUC_COPYRIGHT.
Definition cd_icc_set_manufacturer := cd_icc_set_mluc CD_MLUC_MANUFACTURER.
Definition cd_icc_set_model := cd_icc_set_mluc CD_MLUC_MODEL.

(** [cd_icc_set_description_items] and its three siblings. *)
Fixpoint cd_icc_set_mluc_list (mluc : CdIccMluc) (items : list (string * string))
    : M unit :=
  match items with
  | [] => mret tt
  | (key, value) :: items =>
      cd_icc_set_mluc mluc (Some key) value;;
      cd_icc_set_mluc_list mluc items
  end.

Definition cd_icc_set_mluc_items (mluc : CdIccMluc) (values : gmap string string)
    : M unit :=
  cd_icc_set_mluc_list mluc (map_to_list values).


(** *** Scalar fields and metadata *)

Definition cd_icc_set_handle (handle : option cmsHPROFILE) : M unit :=
  p ← get;
  match handle, lcms_profile p with
  | Some h, None => modify (set_lcms_profile (Some h))
  | _, _ => mret tt
  end.

Definition cd_icc_get_size : M Z := p ← get; mret (size p).
Definition cd_icc_get_filename : M (option string) := p ← get; mret (filename p).
Definition cd_icc_get_can_delete : M bool := p ← get; mret (can_delete p).
Definition cd_icc_get_checksum : M (option string) := p ← get; mret (checksum p).

Definition cd_icc_set_version (version : float) : M unit :=
  modify (set_version version).

Definition cd_icc_set_kind (kind : CdProfileKind) : M unit :=
  modify (set_kind kind).

Definition cd_icc_set_colorspace (colorspace : CdColorspace) : M unit :=
  modify (set_colorspace colorspace).

Definition cd_icc_add_metadata (key value : string) : M unit :=
  modify (λ p, set_metadata (<[key := value]> (metadata p)) p).

Definition cd_icc_remove_metadata (key : string) : M unit :=
  modify (λ p, set_metadata (delete key (metadata p)) p).

(** *** Named colours *)

(** prefix, name and suffix joined by spaces, empty parts left out *)
Definition named_color_title (name prefix suffix : list byte) : list byte :=
  (match prefix with [] => [] | _ => prefix ++ [x20] end)
  ++ name
  ++ (match suffix with [] => [] | _ => x20 :: suffix end).

(** One iteration of the loop of [cd_icc_load_named_colors]. *)
Definition load_named_color (nc2 : cmsNAMEDCOLORLIST)
    (named_colors : list CdColorSwatch) (j : nat) : list CdColorSwatch :=
  match cmsNamedColorInfo nc2 j with
  | None => named_colors
  | Some (name, prefix, suffix, pcs) =>
      let string := named_color_title name prefix suffix in
      let '(ret, string) :=
        if g_utf8_validate string then (true, string)
        else cd_icc_fix_utf8_string string in
      if ret
      then named_colors ++ [ {| swatch_name := string;
                                swatch_value := cmsLabEncoded2Float pcs |} ]
      else named_colors
  end.

Definition cd_icc_load_named_colors : M unit :=
  nc2 ← lcms_read None (λ h, cmsReadTag_ncl h cmsSigNamedColor2Type);
  match nc2 with
  | None => mret tt
  | Some nc2 =>
      modify (λ p, set_named_colors
                     (foldl (load_named_color nc2) (named_colors p)
                            (seq 0 (cmsNamedColorCount nc2))) p)
  end.

(** *** Loading *)

(** [wcstombs] into a 1024 byte buffer whose result is not checked *)
Definition wcstombs_unchecked (w : wstring) : string :=
  match wcstombs w 1024 with
  | Some s => s
  | None => wcstombs_stale w 1024
  end.

(** [cd_icc_load] *)
Definition cd_icc_load (flags : Z) : M unit :=
  (* get version *)
  v ← lcms_read 0%float cmsGetProfileVersion;
  modify (set_version v);;
  (* convert profile kind *)
  profile_class ← lcms_read 0 cmsGetDeviceClass;
  match find (λ e, e.1 =? profile_class) map_profile_kind with
  | Some e => modify (set_kind e.2)
  | None => mret tt
  end;;
  (* convert colorspace *)
  colorspace ← lcms_read 0 cmsGetColorSpace;
  match find (λ e, e.1 =? colorspace) map_colorspace with
  | Some e => modify (set_colorspace e.2)
  | None => mret tt
  end;;
  (* read optional metadata? *)
  (if flag_set flags CD_ICC_LOAD_FLAGS_METADATA
   then
     dict ← lcms_read None (λ h, cmsReadTag_dict h cmsSigMetaTag);
     match dict with
     | Some dict =>
         modify (λ p, set_metadata
                        (foldl (λ m entry, <[wcstombs_unchecked (Name entry) :=
                                               wcstombs_unchecked (Value entry)]> m)
                               (metadata p) (cmsDictGetEntryList dict)) p)
     | None => mret tt
     end
   else mret tt);;
  (* get precooked profile ID if one exists *)
  md5 ← lcms_read None cd_icc_get_precooked_md5;
  modify (set_checksum md5);;
  (* read default translations *)
  cd_icc_get_description None;;
  cd_icc_get_copyright None;;
  cd_icc_get_manufacturer None;;
  cd_icc_get_model None;;
  (* read named colors if the client cares *)
  if flag_set flags CD_ICC_LOAD_FLAGS_NAMED_COLORS
  then cd_icc_load_named_colors
  else mret tt.

(** [cd_icc_load_data]: [data] is the buffer of [data_len] bytes, or
    [None] for a NULL pointer.  The result is the returned boolean and the
    error that was set. *)
Definition cd_icc_load_data (data : option (list byte)) (flags : Z)
    : M (bool * option GError) :=
  p ← get;
  match data with
  | None => mret (false, None)
  | Some data =>
      let data_len := Z.of_nat (length data) in
      if data_len =? 0 then mret (false, None)
      else if bool_decide (lcms_profile p ≠ None) then mret (false, None)
      else if data_len <? 0x84
      then mret (false, Some (g_set_error_literal CD_ICC_ERROR_FAILED_TO_PARSE
                                "icc was not valid (file size too small)"))
      else
        (* load icc into lcms *)
        call (Call_cmsOpenProfileFromMem data (to_guint32 data_len));;
        modify (set_lcms_profile (cmsOpenProfileFromMem data (to_guint32 data_len)));;
        match cmsOpenProfileFromMem data (to_guint32 data_len) with
        | None =>
            mret (false, Some (g_set_error_literal CD_ICC_ERROR_FAILED_TO_PARSE
                                 "failed to load: not an ICC icc"))
        | Some _ =>
            (* save length to avoid trusting the profile *)
            modify (set_size (to_guint32 data_len));;
            (* load cached data *)
            cd_icc_load flags;;
            (* calculate the data MD5 if there was no embedded profile *)
            p ← get;
            (if bool_decide (checksum p = None)
                && flag_set flags CD_ICC_LOAD_FLAGS_FALLBACK_MD5
             then modify (set_checksum (Some (g_compute_checksum_for_data data)))
             else mret tt);;
            mret (true, None)
        end
  end.

(** [cd_icc_load_file] *)
Definition cd_icc_load_file (file : GFile) (flags : Z) : M (bool * option GError) :=
  (* load files *)
  call (Call_g_file_load_contents file);;
  match g_file_load_contents file with
  | inl message =>
      mret (false, Some {| code := CD_ICC_ERROR_FAILED_TO_OPEN;
                           format := "failed to load file: %s";
                           args := [ArgS message] |})
  | inr data =>
      (* parse the data *)
      r ← cd_icc_load_data (Some data) flags;
      if negb r.1 then mret r
      else
        (* find out if the user could delete this profile *)
        call (Call_g_file_query_info file);;
        match g_file_query_info file with
        | inl message =>
            (* ret still holds the result of cd_icc_load_data *)
            mret (r.1, Some {| code := CD_ICC_ERROR_FAILED_TO_OPEN;
                               format := "failed to query file: %s";
                               args := [ArgS message] |})
        | inr can_delete =>
            modify (set_can_delete can_delete);;
            (* save filename for later *)
            modify (set_filename (g_file_get_path file));;
            mret (r.1, r.2)
        end
  end.

(** [cd_icc_load_fd] *)
Definition cd_icc_load_fd (fd : Z) (flags : Z) : M (bool * option GError) :=
  if negb (0 <? fd) then mret (false, None)
  else
    (* convert the file descriptor to a stream *)
    call (Call_fdopen fd);;
    match fdopen fd with
    | None =>
        mret (false, Some {| code := CD_ICC_ERROR_FAILED_TO_OPEN;
                             format := "failed to open stream from fd %i";
                             args := [ArgI fd] |})
    | Some stream =>
        (* parse the ICC file *)
        call (Call_cmsOpenProfileFromStream stream);;
        modify (set_lcms_profile (cmsOpenProfileFromStream stream));;
        match cmsOpenProfileFromStream stream with
        | None =>
            mret (false, Some (g_set_error_literal CD_ICC_ERROR_FAILED_TO_OPEN
                                 "failed to open stream"))
        | Some _ =>
            (* load cached data *)
            cd_icc_load flags;;
            mret (true, None)
        end
    end.


(** *** Saving *)

(** [utf8_to_wchar_t]: NULL when [mbstowcs (NULL, src, 0)] is negative. *)
Definition utf8_to_wchar_t (src : string) : option wstring :=
  match mbstowcs src with
  | None => None
  | Some buf => Some buf
  end.

(** [_cmsDictAddEntryAscii]: the returned boolean and the dictionary. *)
Definition _cmsDictAddEntryAscii (dict : cmsDICT) (key value : string)
    : bool * cmsDICT :=
  match utf8_to_wchar_t key with
  | None => (false, dict)
  | Some mb_key =>
      match utf8_to_wchar_t value with
      | None => (false, dict)
      | Some mb_value => cmsDictAddEntry dict mb_key mb_value
      end
  end.

Record CdMluObject := {
  language_code : option string;
  country_code : option string;
  wtext : option wstring
}.

(** [cd_util_mlu_object_parse].  For a locale that is not empty but
    begins with '.', [g_strsplit] returns the empty vector and the C code
    takes [strlen] of its NULL first element; no key of the cache has this
    form ([cd_icc_get_locale_key_defined]) and the model answers NULL. *)
Definition cd_util_mlu_object_parse (locale : option string) (utf8_text : string)
    : option CdMluObject :=
  match locale with
  | None | Some EmptyString =>
      (* untranslated version *)
      Some {| language_code := None; country_code := None;
              wtext := utf8_to_wchar_t utf8_text |}
  | Some locale =>
      (* ignore ##@latin *)
      if bool_decide (g_strstr_len locale "@" ≠ None) then None
      else
        let key := g_strdelimit_nul locale ["."]%char in
        let split := g_strsplit key "_" in
        match split with
        | [] => None
        | split_0 :: _ =>
            if negb (String.length split_0 =? 2)%nat then None
            else
              let type := length split in
              if (2 <? type)%nat then None
              else
                (* convert to wchars *)
                match utf8_to_wchar_t utf8_text with
                | None => None
                | Some wtext =>
                    if (type =? 1)%nat
                    then (* lv *)
                      Some {| language_code := Some split_0;
                              country_code := None;
                              wtext := Some wtext |}
                    else (* en_GB *)
                      let split_1 := default "" (split !! 1%nat) in
                      if negb (String.length split_1 =? 2)%nat then None
                      else Some {| language_code := Some split_0;
                                   country_code := Some split_1;
                                   wtext := Some wtext |}
                end
        end
  end.

(** The locales on which the C code of [cd_util_mlu_object_parse] is
    defined. *)
Definition parse_defined (locale : string) : Prop :=
  locale = "" ∨ g_strdelimit_nul locale ["."]%char ≠ "".

(** "convert all the hash entries into CdMluObject's" *)
Definition mlu_objects (hash : gmap string string) : list CdMluObject :=
  omap (λ '(locale, utf8_text), cd_util_mlu_object_parse (Some locale) utf8_text)
       (map_to_list hash).

(** The loop over the array in [cd_util_write_tag_localized]: the filled
    MLU, or [None] as soon as [cmsMLUsetWide] fails. *)
Fixpoint mlu_set_all (mlu : cmsMLU) (array : list CdMluObject) : option cmsMLU :=
  match array with
  | [] => Some mlu
  | obj :: array =>
      let '(ret, mlu) :=
        cmsMLUsetWide mlu
          (default cmsNoLanguage (language_code obj))
          (default cmsNoCountry (country_code obj))
          (wtext obj) in
      if ret then mlu_set_all mlu array else None
  end.

(** [cd_util_write_tag_localized] *)
Definition cd_util_write_tag_localized (sig : Z) (hash : gmap string string)
    : M (bool * option GError) :=
  p ← get;
  (* convert all the hash entries into CdMluObject's *)
  let array := mlu_objects hash in
  (* delete tag if there is no data *)
  if (length array =? 0)%nat
  then
    lcms_do (Call_cmsWriteTag sig None) (λ h, cmsWriteTag h sig None);;
    mret (true, None)
  else
    (* promote V2 profiles so we can write a 'mluc' type *)
    (if (1 <? length array)%nat && PrimFloat.ltb (version p) 4%float
     then lcms_set (Call_cmsSetProfileVersion 4%float)
                   (λ h, cmsSetProfileVersion h 4%float)
     else mret tt);;
    (* create MLU object to hold all the translations *)
    match mlu_set_all (cmsMLUalloc (length array)) array with
    | None =>
        mret (false, Some (g_set_error_literal CD_ICC_ERROR_FAILED_TO_SAVE
                             "cannot write MLU text"))
    | Some mlu =>
        (* write tag *)
        ret ← lcms_do (Call_cmsWriteTag sig (Some (TagMLU mlu)))
                      (λ h, cmsWriteTag h sig (Some (TagMLU mlu)));
        if negb ret
        then mret (false, Some {| code := CD_ICC_ERROR_FAILED_TO_SAVE;
                                  format := "cannot write tag: 0x%x";
                                  args := [ArgI sig] |})
        else
          (* remove apple-specific cmsSigProfileDescriptionTagML *)
          (if sig =? cmsSigProfileDescriptionTag
           then
             lcms_do (Call_cmsWriteTag 0x6473636d None)
                     (λ h, cmsWriteTag h 0x6473636d None);;
             mret tt
           else mret tt);;
          mret (ret, None)
    end.

(** "save metadata": the dictionary built from the hash table *)
Definition metadata_dict (metadata : gmap string string) : cmsDICT :=
  foldl (λ dict '(key, value), (_cmsDictAddEntryAscii dict key value).2)
        cmsDictAlloc (map_to_list metadata).

(** A step of a function that leaves by [goto out] when [ret] is FALSE. *)
Definition or_out (step rest : M (bool * option GError)) : M (bool * option GError) :=
  step ≫= λ r : bool * option GError,
  if r.1 then rest else mret r.

Definition failed_to_save (msg : string) : GError :=
  g_set_error_literal CD_ICC_ERROR_FAILED_TO_SAVE msg.

Definition save_metadata : M (bool * option GError) :=
  p ← get;
  if negb (g_hash_table_size (metadata p) =? 0)%nat
  then
    let dict := metadata_dict (metadata p) in
    ret ← lcms_do (Call_cmsWriteTag cmsSigMetaTag (Some (TagDict dict)))
                  (λ h, cmsWriteTag h cmsSigMetaTag (Some (TagDict dict)));
    if negb ret
    then mret (false, Some (failed_to_save "cannot write metadata"))
    else mret (true, None)
  else
    lcms_do (Call_cmsWriteTag cmsSigMetaTag None)
            (λ h, cmsWriteTag h cmsSigMetaTag None);;
    mret (true, None).

Definition save_profile_to_file (file : GFile) : M (bool * option GError) :=
  (* write profile id *)
  ret ← lcms_do Call_cmsMD5computeID cmsMD5computeID;
  if negb ret
  then mret (false, Some (failed_to_save "failed to compute profile id"))
  else
    (* get size of profile *)
    call (Call_cmsSaveProfileToMem None);;
    r ← lcms_read None (λ h, cmsSaveProfileToMem h None);
    match r with
    | None => mret (false, Some (failed_to_save "failed to dump ICC file"))
    | Some (length, _) =>
        (* allocate and get profile data *)
        call (Call_cmsSaveProfileToMem (Some length));;
        r ← lcms_read None (λ h, cmsSaveProfileToMem h (Some length));
        match r with
        | None =>
            mret (false, Some (failed_to_save "failed to dump ICC file to memory"))
        | Some (length, data) =>
            (* actually write file *)
            call (Call_g_file_replace_contents file data);;
            match g_file_replace_contents file data with
            | Some message =>
                mret (false, Some {| code := CD_ICC_ERROR_FAILED_TO_SAVE;
                                     format := "failed to dump ICC file: %s";
                                     args := [ArgS message] |})
            | None => mret (true, None)
            end
        end
    end.

(** [cd_icc_save_file] *)
Definition cd_icc_save_file (file : GFile) : M (bool * option GError) :=
  p ← get;
  (* convert profile kind *)
  match find (λ e, bool_decide (e.2 = kind p)) map_profile_kind with
  | Some e => lcms_set (Call_cmsSetDeviceClass e.1) (λ h, cmsSetDeviceClass h e.1)
  | None => mret tt
  end;;
  (* convert colorspace *)
  match find (λ e, bool_decide (e.2 = colorspace p)) map_colorspace with
  | Some e => lcms_set (Call_cmsSetColorSpace e.1) (λ h, cmsSetColorSpace h e.1)
  | None => mret tt
  end;;
  (* set version *)
  (if PrimFloat.ltb 0%float (version p)
   then lcms_set (Call_cmsSetProfileVersion (version p))
                 (λ h, cmsSetProfileVersion h (version p))
   else mret tt);;
  (* save metadata *)
  or_out save_metadata (
  (* save translations *)
  or_out (cd_util_write_tag_localized cmsSigProfileDescriptionTag
            (mluc_data p CD_MLUC_DESCRIPTION)) (
  or_out (cd_util_write_tag_localized cmsSigCopyrightTag
            (mluc_data p CD_MLUC_COPYRIGHT)) (
  or_out (cd_util_write_tag_localized cmsSigDeviceMfgDescTag
            (mluc_data p CD_MLUC_MANUFACTURER)) (
  or_out (cd_util_write_tag_localized cmsSigDeviceModelDescTag
            (mluc_data p CD_MLUC_MODEL)) (
  save_profile_to_file file))))).

End Icc.

(** ** A reference codec and platform

    A small codec that reads the fixed part of the ICC header, and a
    platform with a UTF-8 locale and a three-file store.  They are used to
    run the code above on concrete inputs; no general theorem depends on
    them. *)

Module Toy.

Definition byte_of_Z (z : Z) : byte := default x00 (Byte.of_N (Z.to_N z)).

Definition Z_of_byte (b : byte) : Z := Z.of_N (Byte.to_N b).

(** *** UTF-8 encoding, for [wcstombs] *)

Definition encode1 (cp : Z) : option (list byte) :=
  if (cp <? 0) || (0x10FFFF <? cp) || ((0xD800 <=? cp) && (cp <=? 0xDFFF)) then None
  else if cp <? 0x80 then Some [byte_of_Z cp]
  else if cp <? 0x800 then
    Some [byte_of_Z (Z.lor 0xC0 (Z.shiftr cp 6));
          byte_of_Z (Z.lor 0x80 (Z.land cp 0x3F))]
  else if cp <? 0x10000 then
    Some [byte_of_Z (Z.lor 0xE0 (Z.shiftr cp 12));
          byte_of_Z (Z.lor 0x80 (Z.land (Z.shiftr cp 6) 0x3F));
          byte_of_Z (Z.lor 0x80 (Z.land cp 0x3F))]
  else
    Some [byte_of_Z (Z.lor 0xF0 (Z.shiftr cp 18));
          byte_of_Z (Z.lor 0x80 (Z.land (Z.shiftr cp 12) 0x3F));
          byte_of_Z (Z.lor 0x80 (Z.land (Z.shiftr cp 6) 0x3F));
          byte_of_Z (Z.lor 0x80 (Z.land cp 0x3F))].

Fixpoint encode (cps : list Z) : option (list byte) :=
  match cps with
  | [] => Some []
  | cp :: cps =>
      match encode1 cp, encode cps with
      | Some bs, Some rest => Some (bs ++ rest)
      | _, _ => None
      end
  end.

Definition string_of_bytes (bs : list byte) : string :=
  string_of_list_ascii (map ascii_of_byte bs).

(** *** A digest standing in for MD5 *)

Definition digest_Z (data : list byte) : Z :=
  fold_left (λ acc b, (acc * 257 + Z_of_byte b + 1) mod 2 ^ 128) data 0.

Definition digest (data : list byte) : list byte :=
  map (λ i, byte_of_Z (Z.shiftr (digest_Z data) (8 * Z.of_nat (15 - i)) mod 256))
      (seq 0 16).

Definition hex (bs : list byte) : string :=
  foldr (λ b s, String (default "0"%char (String.get (Z.to_nat (Z_of_byte b / 16))
                                             "0123456789abcdef"))
                  (String (default "0"%char (String.get (Z.to_nat (Z_of_byte b mod 16))
                                               "0123456789abcdef")) s))
        EmptyString bs.

(** *** The codec *)

Definition mlu := list (string * string * wstring).

Definition ncl := list (list byte * list byte * list byte * (Z * Z * Z)).

Record profile := {
  header_version : float;
  device_class : Z;
  color_space : Z;
  profile_id : list byte;
  tags : list (Z * TagData mlu);
  named : option ncl
}.

Definition be32 (bs : list byte) : Z :=
  fold_left (λ acc b, acc * 256 + Z_of_byte b) bs 0.

Definition to_be32 (n : Z) : list byte :=
  [byte_of_Z (Z.shiftr n 24 mod 256); byte_of_Z (Z.shiftr n 16 mod 256);
   byte_of_Z (Z.shiftr n 8 mod 256); byte_of_Z (n mod 256)].

Definition acsp : list byte := [x61; x63; x73; x70].

(** The 128 byte header and an empty tag table. *)
Definition serialize (p : profile) : list byte :=
  replicate 8 x00
  ++ [if PrimFloat.ltb (header_version p) 4%float then x02 else x04]
  ++ replicate 3 x00
  ++ to_be32 (device_class p)
  ++ to_be32 (color_space p)
  ++ replicate 16 x00
  ++ acsp
  ++ replicate 44 x00
  ++ take 16 (profile_id p ++ replicate 16 x00)
  ++ replicate 28 x00
  ++ replicate 4 x00.

Definition open_from_mem (data : list byte) (size : Z) : option profile :=
  let data := take (Z.to_nat size) data in
  if bool_decide (take 4 (drop 36 data) = acsp) then
    Some {| header_version :=
              if bool_decide (nth 8 data x00 = x04) then 4%float else 2%float;
            device_class := be32 (take 4 (drop 12 data));
            color_space := be32 (take 4 (drop 16 data));
            profile_id := take 16 (drop 84 data);
            tags := [];
            named := None |}
  else None.

Definition set_tags (t : list (Z * TagData mlu)) (p : profile) : profile :=
  {| header_version := header_version p; device_class := device_class p;
     color_space := color_space p; profile_id := profile_id p;
     tags := t; named := named p |}.

Definition write_tag (p : profile) (sig : Z) (data : option (TagData mlu))
    : bool * profile :=
  let others := filter (λ e, e.1 ≠ sig) (tags p) in
  (true, set_tags (match data with
                   | Some d => others ++ [(sig, d)]
                   | None => others
                   end) p).

Definition read_tag (p : profile) (sig : Z) : option (TagData mlu) :=
  snd <$> find (λ e, e.1 =? sig) (tags p).

Definition mlu_set_wide (m : mlu) (language country : string)
    (text : option wstring) : bool * mlu :=
  match text with
  | None => (false, m)
  | Some text => (true, m ++ [(language, country, text)])
  end.

(** The entry for exactly this language and country. *)
Definition mlu_get_wide (m : mlu) (language country : string) (buffer : nat)
    : Z * wstring :=
  match find (λ e, bool_decide (e.1.1 = language) && bool_decide (e.1.2 = country)) m with
  | Some e => (4 * (Z.of_nat (length e.2) + 1), take (buffer - 1) e.2)
  | None => (0, [])
  end.

(** A display profile for RGB, version 2, with no tags. *)
Definition display_profile (id : list byte) : profile :=
  {| header_version := 2%float; device_class := cmsSigDisplayClass;
     color_space := cmsSigRgbData; profile_id := id;
     tags := []; named := None |}.

Definition lcms : Lcms := {|
  cmsHPROFILE := profile;
  cmsMLU := mlu;
  cmsNAMEDCOLORLIST := ncl;
  cmsOpenProfileFromMem := open_from_mem;
  cmsOpenProfileFromStream := λ stream,
    if fileno stream =? 3 then Some (display_profile (replicate 16 x00))
    else None;
  cmsGetProfileVersion := header_version;
  cmsGetDeviceClass := device_class;
  cmsGetColorSpace := color_space;
  cmsGetHeaderProfileID := λ p, take 16 (profile_id p ++ replicate 16 x00);
  cmsReadTag_mlu := λ p sig,
    match read_tag p sig with Some (TagMLU m) => Some m | _ => None end;
  cmsReadTag_dict := λ p sig,
    match read_tag p sig with Some (TagDict d) => Some d | _ => None end;
  cmsReadTag_ncl := λ p _, named p;
  cmsNamedColorCount := λ l, length l;
  cmsNamedColorInfo := λ l j, l !! j;
  cmsLabEncoded2Float := λ _,
    {| Lab_L := 0%float; Lab_a := 0%float; Lab_b := 0%float |};
  cmsSetDeviceClass := λ p sig,
    {| header_version := header_version p; device_class := sig;
       color_space := color_space p; profile_id := profile_id p;
       tags := tags p; named := named p |};
  cmsSetColorSpace := λ p sig,
    {| header_version := header_version p; device_class := device_class p;
       color_space := sig; profile_id := profile_id p;
       tags := tags p; named := named p |};
  cmsSetProfileVersion := λ p v,
    {| header_version := v; device_class := device_class p;
       color_space := color_space p; profile_id := profile_id p;
       tags := tags p; named := named p |};
  cmsWriteTag := write_tag;
  cmsMLUalloc := λ _, [];
  cmsMLUsetWide := mlu_set_wide;
  cmsMLUgetWide := mlu_get_wide;
  cmsMD5computeID := λ p,
    (true, {| header_version := header_version p; device_class := device_class p;
              color_space := color_space p;
              profile_id := digest (serialize p);
              tags := tags p; named := named p |});
  cmsSaveProfileToMem := λ p mem,
    match mem with
    | None => Some (Z.of_nat (length (serialize p)), [])
    | Some size => Some (size, take (Z.to_nat size) (serialize p))
    end
|}.

(** *** The platform *)

(** A header of 132 bytes with the given profile identifier. *)
Definition icc_bytes (id : list byte) : list byte :=
  serialize (display_profile id).

Definition load_contents (file : GFile) : string + list byte :=
  if String.eqb file "file:///icc/display.icc" then inr (icc_bytes (replicate 16 x00))
  else if String.eqb file "file:///icc/garbage.icc" then inr (replicate 200 x2a)
  else if String.eqb file "file:///icc/empty.icc" then inr []
  else inl "No such file or directory"%string.

Definition platform : Platform := {|
  mbstowcs := λ s, Utf8.decode (Utf8.bytes_of_string s);
  wcstombs := λ w n, (λ bs, string_of_bytes (take n bs)) <$> encode w;
  wcstombs_stale := λ _ _, EmptyString;
  g_utf8_validate := Utf8.validate;
  g_compute_checksum_for_data := λ data, hex (digest data);
  g_file_load_contents := load_contents;
  g_file_query_info := λ file,
    match load_contents file with
    | inl message => inl message
    | inr _ => inr true
    end;
  g_file_get_path := λ file, Some (String.substring 7 (String.length file - 7) file);
  g_file_replace_contents := λ _ _, None;
  fdopen := λ fd, Some {| fileno := fd |}
|}.

End Toy.

(** ** Definitions used to state the properties *)

(** What the loop of [cd_icc_fix_utf8_string] makes of the bytes from the
    loop index on: after an erased byte the index still advances, so the
    byte that took its place is not looked at. *)
Fixpoint repaired (s : list byte) : list byte :=
  match s with
  | [] => []
  | tmp :: rest =>
      if Byte.eqb tmp xae then xc2 :: xae :: repaired rest
      else if Byte.eqb tmp x86 then
        match rest with
        | [] => []
        | next :: rest => next :: repaired rest
        end
      else tmp :: repaired rest
  end.

(** The repair as section 4.1 of the specification words it: every 0xAE
    becomes 0xC2 0xAE and every 0x86 is removed. *)
Definition repair_spec (s : list byte) : list byte :=
  flat_map (λ c, if Byte.eqb c xae then [xc2; xae]
                 else if Byte.eqb c x86 then []
                 else [c]) s.

(** *** Invariants of the state *)

Section Stable.

Context `{cms : Lcms}.

(** [m] keeps the invariant [I]. *)
Definition stable {A : Type} (I : State → Prop) (m : M A) : Prop :=
  ∀ s, I s → I (m s).2.

(** [I] does not depend on what [f] changes in the object. *)
Definition tolerates (I : State → Prop) (f : CdIccPrivate → CdIccPrivate) : Prop :=
  ∀ s, I s → I {| priv := f (priv s); calls := calls s |}.

(** [I] does not depend on the calls that are recorded later. *)
Definition tolerates_calls (I : State → Prop) : Prop :=
  ∀ s c, I s → I {| priv := priv s; calls := calls s ++ [c] |}.

(** The fields that identify what was loaded. *)
Definition ident (p : CdIccPrivate) : option string * Z * option string * bool :=
  (checksum p, size p, filename p, can_delete p).

(** What [cd_icc_load] leaves alone, once a handle [h] is in place. *)
Definition load_frame (h : cmsHPROFILE) (s0 s : State) : Prop :=
  lcms_profile (priv s) = Some h
  ∧ size (priv s) = size (priv s0)
  ∧ filename (priv s) = filename (priv s0)
  ∧ can_delete (priv s) = can_delete (priv s0)
  ∧ calls s = calls s0.

End Stable.

Section Hoare.

Context `{cms : Lcms}.

(** From a state in [P], [m] returns [x] in a state with [Q x]. *)
Definition hoare {A : Type} (P : State → Prop) (m : M A) (Q : A → State → Prop) : Prop :=
  ∀ s, P s → Q (m s).1 (m s).2.

(** The 16 bytes of the embedded profile identifier, as the code reads
    them. *)
Definition profile_id_bytes (h : cmsHPROFILE) : list byte :=
  map (icc_id h) (seq 0 16).

(** The checksum a load resolves to, from the embedded identifier of the
    opened profile and the content hash that may stand in for it. *)
Definition resolved_checksum (h : cmsHPROFILE) (fallback : option string)
    : option string :=
  match cd_icc_get_precooked_md5 h with
  | Some md5 => Some md5
  | None => fallback
  end.

End Hoare.

(** The value of a lowercase hexadecimal digit. *)
Definition hex_value (c : ascii) : option Z :=
  let n := Z.of_N (N_of_ascii c) in
  if (48 <=? n) && (n <=? 57) then Some (n - 48)
  else if (97 <=? n) && (n <=? 102) then Some (n - 87)
  else None.

(** [text] is the lowercase hexadecimal encoding of [bytes]: two digits
    for each byte, the high one first. *)
Definition lowercase_hex_of (text : string) (bytes : list byte) : Prop :=
  String.length text = (2 * length bytes)%nat
  ∧ ∀ (i : nat) (c : byte), bytes !! i = Some c →
      ∃ hi lo,
        String.get (2 * i) text = Some hi
        ∧ String.get (2 * i + 1) text = Some lo
        ∧ hex_value hi = Some (Z.of_N (Byte.to_N c) / 16)
        ∧ hex_value lo = Some (Z.of_N (Byte.to_N c) mod 16).

(** *** Locale keys *)

(** A key as the caches hold it: nothing is left to truncate. *)
Definition is_locale_key (key : string) : Prop :=
  g_strdelimit_nul key ["."; "("]%char = key.

(** Section 4.2 of the specification: "a key containing [@]". *)
Definition contains_at (key : string) : Prop :=
  In "@"%char (list_ascii_of_string key).

(** Section 4.2 of the specification: a key that is not empty is split on
    '_'; the first segment must have exactly 2 characters, and so must the
    second if there is one. *)
Definition fails_two_character_checks (key : string) : Prop :=
  key ≠ ""
  ∧ match split_on key "_" with
    | [] => False
    | lang :: rest =>
        String.length lang ≠ 2%nat
        ∨ match rest with
          | [] => False
          | country :: _ => String.length country ≠ 2%nat
          end
    end.

(** *** Operations after the load *)

(** The operations the lifecycle of section 3 allows once the object is
    loaded: mutations, reads and saves (a second load is not one of them). *)
Inductive Op :=
| Op_set_version (version : float)
| Op_set_kind (kind : CdProfileKind)
| Op_set_colorspace (colorspace : CdColorspace)
| Op_add_metadata (key value : string)
| Op_remove_metadata (key : string)
| Op_set_text (mluc : CdIccMluc) (locale : option string) (value : string)
| Op_set_text_items (mluc : CdIccMluc) (values : gmap string string)
| Op_get_text (mluc : CdIccMluc) (locale : option string)
| Op_get_size
| Op_get_filename
| Op_get_can_delete
| Op_get_checksum
| Op_save_file (file : GFile).

Section Operations.

Context `{cms : Lcms} `{os : Platform}.

Definition cd_icc_get_text (mluc : CdIccMluc) (locale : option string)
    : M (option string * option GError) :=
  match mluc with
  | CD_MLUC_DESCRIPTION => cd_icc_get_description locale
  | CD_MLUC_COPYRIGHT => cd_icc_get_copyright locale
  | CD_MLUC_MANUFACTURER => cd_icc_get_manufacturer locale
  | CD_MLUC_MODEL => cd_icc_get_model locale
  end.

Definition run_op (op : Op) : M unit :=
  match op with
  | Op_set_version version => cd_icc_set_version version
  | Op_set_kind kind => cd_icc_set_kind kind
  | Op_set_colorspace colorspace => cd_icc_set_colorspace colorspace
  | Op_add_metadata key value => cd_icc_add_metadata key value
  | Op_remove_metadata key => cd_icc_remove_metadata key
  | Op_set_text mluc locale value => cd_icc_set_mluc mluc locale value
  | Op_set_text_items mluc values => cd_icc_set_mluc_items mluc values
  | Op_get_text mluc locale => cd_icc_get_text mluc locale;; mret tt
  | Op_get_size => cd_icc_get_size;; mret tt
  | Op_get_filename => cd_icc_get_filename;; mret tt
  | Op_get_can_delete => cd_icc_get_can_delete;; mret tt
  | Op_get_checksum => cd_icc_get_checksum;; mret tt
  | Op_save_file file => cd_icc_save_file file;; mret tt
  end.

Fixpoint run_ops (ops : list Op) : M unit :=
  match ops with
  | [] => mret tt
  | op :: ops => run_op op;; run_ops ops
  end.

(** The tags handed to [cmsWriteTag], in the order of the calls. *)
Definition written_tags (calls : list Call) : list (Z * option (TagData cmsMLU)) :=
  omap (λ c, match c with
             | Call_cmsWriteTag sig data => Some (sig, data)
             | _ => None
             end) calls.

(** A call that writes or deletes a tag. *)
Definition is_write_tag (c : Call) : Prop :=
  ∃ sig data, c = Call_cmsWriteTag sig data.

End Operations.

Section Extends.

Context `{cms : Lcms}.

(** The record of calls of [s] continues that of [s0]. *)
Definition extends (s0 s : State) : Prop :=
  ∃ pre, calls s = calls s0 ++ pre.

End Extends.

(** *** Concrete inputs *)

Module Sample.

Definition new : State (cms := Toy.lcms) := cd_icc_new (cms := Toy.lcms).

(** An identifier with bytes that are not zero. *)
Definition id : list byte :=
  [xde; xad; xbe; xef; x00; x01; x02; x03; x0a; x0b; x0c; x0d; x7f; x80; xfe; xff].

(** 131 bytes: one short of a header and the tag count. *)
Definition short : list byte := replicate 131 x2a.

(** The object after a load from descriptor 3. *)
Definition from_fd : State (cms := Toy.lcms) :=
  (cd_icc_load_fd (os := Toy.platform) 3 0 new).2.

(** The object after a load from bytes with an embedded identifier. *)
Definition from_data : State (cms := Toy.lcms) :=
  (cd_icc_load_data (os := Toy.platform) (Some (Toy.icc_bytes id)) 0 new).2.

(** A string that is not UTF-8: the single byte 0xFF. *)
Definition not_utf8 : string := String (ascii_of_byte xff) EmptyString.

(** Metadata with one entry that transcodes and one that does not. *)
Definition with_metadata : State (cms := Toy.lcms) :=
  (cd_icc_add_metadata (cms := Toy.lcms) "Name" not_utf8
     (cd_icc_add_metadata (cms := Toy.lcms) "License" "CC0" from_fd).2).2.

(** A profile whose copyright tag holds the default text only. *)
Definition copyright_only : Toy.profile :=
  Toy.set_tags [(cmsSigCopyrightTag, TagMLU [("", "", [67; 67; 48])])]
               (Toy.display_profile (replicate 16 x00)).

Definition adopted : State (cms := Toy.lcms) :=
  (cd_icc_set_handle (cms := Toy.lcms) (Some copyright_only) new).2.

(** Translations none of which can be written. *)
Definition no_survivor : gmap string string :=
  <["sr@latin" := "Ekran"]> (<["e" := "Screen"]> (<["en_GBX" := "Screen"]> ∅)).

(** Two translations that can. *)
Definition two_survivors : gmap string string :=
  <["" := "Screen"]> (<["fr_FR" := "Ecran"]> (<["sr@latin" := "Ekran"]> ∅)).

End Sample.

(** *** The whole interface *)

(** Every call of the interface, the loads included. *)
Inductive Api `{cms : Lcms} :=
| Api_load_data (data : option (list byte)) (flags : Z)
| Api_load_file (file : GFile) (flags : Z)
| Api_load_fd (fd : Z) (flags : Z)
| Api_set_handle (handle : option cmsHPROFILE)
| Api_op (op : Op).

Section Interface.

Context `{cms : Lcms} `{os : Platform}.

Definition run_api (api : Api) : M unit :=
  match api with
  | Api_load_data data flags => cd_icc_load_data data flags;; mret tt
  | Api_load_file file flags => cd_icc_load_file file flags;; mret tt
  | Api_load_fd fd flags => cd_icc_load_fd fd flags;; mret tt
  | Api_set_handle handle => cd_icc_set_handle handle
  | Api_op op => run_op op
  end.

Fixpoint run_apis (apis : list Api) : M unit :=
  match apis with
  | [] => mret tt
  | api :: apis => run_api api;; run_apis apis
  end.

(** Every key of the four caches is a locale key. *)
Definition keys_canonical (s : State) : Prop :=
  ∀ mluc, map_Forall (λ key _, is_locale_key key) (mluc_data (priv s) mluc).

(** A call that sets a field of the profile header. *)
Definition is_header_call (c : Call) : Prop :=
  match c with
  | Call_cmsSetDeviceClass _ | Call_cmsSetColorSpace _
  | Call_cmsSetProfileVersion _ => True
  | _ => False
  end.

(** The state of a save before its metadata step: the object of [s0] but
    for the handle, after calls that set header fields. *)
Definition before_metadata (s0 s : State) : Prop :=
  lcms_profile (priv s) ≠ None
  ∧ metadata (priv s) = metadata (priv s0)
  ∧ ∃ pre, calls s = calls s0 ++ pre ∧ Forall is_header_call pre.

(** After [s0], header fields were set and then the metadata tag was
    written with [dict]. *)
Definition metadata_written (s0 : State) (dict : cmsDICT) (s : State) : Prop :=
  ∃ pre post,
    calls s = calls s0 ++ pre
              ++ Call_cmsWriteTag cmsSigMetaTag (Some (TagDict dict)) :: post
    ∧ Forall is_header_call pre.

End Interface.

(** ** The rest of the interface *)

Section Accessors.

Context `{cms : Lcms}.

(** [cd_icc_get_handle] *)
Definition cd_icc_get_handle : M (option cmsHPROFILE) :=
  p ← get; mret (lcms_profile p).

Definition cd_icc_get_version : M float := p ← get; mret (version p).

Definition cd_icc_get_kind : M CdProfileKind := p ← get; mret (kind p).

Definition cd_icc_get_colorspace : M CdColorspace := p ← get; mret (colorspace p).

(** [cd_icc_get_metadata_item]: NULL for a NULL key and for a key that is
    not in the table. *)
Definition cd_icc_get_metadata_item (key : option string) : M (option string) :=
  p ← get;
  match key with
  | None => mret None
  | Some key => mret (metadata p !! key)
  end.

(** [cd_icc_get_named_colors]: the array itself, with one more reference. *)
Definition cd_icc_get_named_colors : M (list CdColorSwatch) :=
  p ← get; mret (named_colors p).

(** The tag signatures each of the four text getters passes on, in the
    order of preference and without the terminating 0. *)
Definition tag_signatures (mluc : CdIccMluc) : list Z :=
  match mluc with
  | CD_MLUC_DESCRIPTION => [0x6473636d; cmsSigProfileDescriptionTag]
  | CD_MLUC_COPYRIGHT => [cmsSigCopyrightTag]
  | CD_MLUC_MANUFACTURER => [cmsSigDeviceMfgDescTag]
  | CD_MLUC_MODEL => [cmsSigDeviceModelDescTag]
  end.

End Accessors.

(** *** Results *)


Section Records.

Context `{os : Platform}.

(** A record as the comment on [CdMluObject] describes it: the codes that
    are there have two characters, there is no country without a language,
    and a record with a language has its text. *)
Definition well_formed_record (obj : CdMluObject) : Prop :=
  match language_code obj with
  | Some language => String.length language = 2%nat ∧ wtext obj ≠ None
  | None => country_code obj = None
  end
  ∧ match country_code obj with
    | Some country => String.length country = 2%nat
    | None => True
    end.

End Records.

Section Deleted.

Context `{cms : Lcms}.

(** After [s0], header fields were set and then the metadata tag was
    deleted. *)
Definition metadata_deleted (s0 s : State) : Prop :=
  ∃ pre post,
    calls s = calls s0 ++ pre ++ Call_cmsWriteTag cmsSigMetaTag None :: post
    ∧ Forall is_header_call pre.

(** The object has a codec handle. *)
Definition has_handle (s : State) : Prop := lcms_profile (priv s) ≠ None.

End Deleted.

Section Begins.

Context `{cms : Lcms}.

(** The record of calls of [s] continues that of [s0] with [first]. *)
Definition continues_with (s0 : State) (first : list Call) (s : State) : Prop :=
  ∃ rest, calls s = calls s0 ++ first ++ rest.

End Begins.

(** *** Tag signatures as text *)

(** [G_BYTE_ORDER] of the host. *)
Inductive ByteOrder := G_LITTLE_ENDIAN | G_BIG_ENDIAN.

(** The value of a [guchar] that is assigned [n]. *)
Definition guint8 (n : Z) : byte := default x00 (Byte.of_N (Z.to_N (n mod 256))).

(** The four bytes of a [guint32] in memory, the lowest address first. *)
Definition guint32_in_memory (order : ByteOrder) (id : Z) : list byte :=
  let low_first := [guint8 id; guint8 (Z.shiftr id 8);
                    guint8 (Z.shiftr id 16); guint8 (Z.shiftr id 24)] in
  match order with
  | G_LITTLE_ENDIAN => low_first
  | G_BIG_ENDIAN => reverse low_first
  end.

(** [GUINT32_SWAP_LE_BE] of GLib *)
Definition GUINT32_SWAP_LE_BE (val : Z) : Z :=
  Z.lor (Z.lor (Z.lor (Z.shiftl (Z.land val 0x000000ff) 24)
                      (Z.shiftl (Z.land val 0x0000ff00) 8))
               (Z.shiftr (Z.land val 0x00ff0000) 8))
        (Z.shiftr (Z.land val 0xff000000) 24).

(** [GUINT32_FROM_BE] of GLib *)
Definition GUINT32_FROM_BE (order : ByteOrder) (val : Z) : Z :=
  match order with
  | G_LITTLE_ENDIAN => GUINT32_SWAP_LE_BE val
  | G_BIG_ENDIAN => val
  end.

(** [cd_icc_uint32_to_str]: the five bytes it leaves in [str]. *)
Definition cd_icc_uint32_to_str (order : ByteOrder) (id : Z) : list byte :=
  guint32_in_memory order id ++ [x00].

(** *** More concrete inputs *)

Module Example.

(** The reference platform on which file attributes cannot be queried. *)
Definition no_query : Platform := {|
  mbstowcs := mbstowcs (Platform := Toy.platform);
  wcstombs := wcstombs (Platform := Toy.platform);
  wcstombs_stale := wcstombs_stale (Platform := Toy.platform);
  g_utf8_validate := g_utf8_validate (Platform := Toy.platform);
  g_compute_checksum_for_data := g_compute_checksum_for_data (Platform := Toy.platform);
  g_file_load_contents := g_file_load_contents (Platform := Toy.platform);
  g_file_query_info := λ _, inl "Permission denied"%string;
  g_file_get_path := g_file_get_path (Platform := Toy.platform);
  g_file_replace_contents := g_file_replace_contents (Platform := Toy.platform);
  fdopen := fdopen (Platform := Toy.platform)
|}.

(** "CC0" and "Libre" as wide text. *)
Definition cc0 : wstring := [67; 67; 48].
Definition libre : wstring := [76; 105; 98; 114; 101].

(** A profile whose copyright has a default text and a text for fr_FR. *)
Definition french : Toy.profile :=
  Toy.set_tags [(cmsSigCopyrightTag, TagMLU [("", "", cc0); ("fr", "FR", libre)])]
               (Toy.display_profile (replicate 16 x00)).

Definition french_object : State (cms := Toy.lcms) :=
  (cd_icc_set_handle (cms := Toy.lcms) (Some french) Sample.new).2.

(** A profile that has both description tags, with different texts. *)
Definition apple : Toy.profile :=
  Toy.set_tags [(cmsSigProfileDescriptionTag, TagMLU [("", "", cc0)]);
                (0x6473636d, TagMLU [("", "", libre)])]
               (Toy.display_profile (replicate 16 x00)).

Definition apple_object : State (cms := Toy.lcms) :=
  (cd_icc_set_handle (cms := Toy.lcms) (Some apple) Sample.new).2.

(** Two named colours: "Red", and a name that the repair leaves invalid. *)
Definition colours : Toy.ncl :=
  [([x52; x65; x64], [], [], (0, 0, 0)); ([x86; x86], [], [], (0, 0, 0))].

Definition swatches : Toy.profile :=
  {| Toy.header_version := 2%float; Toy.device_class := cmsSigNamedColorClass;
     Toy.color_space := cmsSigRgbData; Toy.profile_id := replicate 16 x00;
     Toy.tags := []; Toy.named := Some colours |}.

Definition swatches_object : State (cms := Toy.lcms) :=
  (cd_icc_set_handle (cms := Toy.lcms) (Some swatches) Sample.new).2.

(** The reference codec, reading a copyright tag from every buffer it
    opens. *)
Definition tagged : Lcms := {|
  cmsHPROFILE := Toy.profile;
  cmsMLU := Toy.mlu;
  cmsNAMEDCOLORLIST := Toy.ncl;
  cmsOpenProfileFromMem := λ data size,
    Toy.set_tags [(cmsSigCopyrightTag, TagMLU [("", "", cc0)])]
      <$> Toy.open_from_mem data size;
  cmsOpenProfileFromStream := cmsOpenProfileFromStream (Lcms := Toy.lcms);
  cmsGetProfileVersion := cmsGetProfileVersion (Lcms := Toy.lcms);
  cmsGetDeviceClass := cmsGetDeviceClass (Lcms := Toy.lcms);
  cmsGetColorSpace := cmsGetColorSpace (Lcms := Toy.lcms);
  cmsGetHeaderProfileID := cmsGetHeaderProfileID (Lcms := Toy.lcms);
  cmsReadTag_mlu := cmsReadTag_mlu (Lcms := Toy.lcms);
  cmsReadTag_dict := cmsReadTag_dict (Lcms := Toy.lcms);
  cmsReadTag_ncl := cmsReadTag_ncl (Lcms := Toy.lcms);
  cmsNamedColorCount := cmsNamedColorCount (Lcms := Toy.lcms);
  cmsNamedColorInfo := cmsNamedColorInfo (Lcms := Toy.lcms);
  cmsLabEncoded2Float := cmsLabEncoded2Float (Lcms := Toy.lcms);
  cmsSetDeviceClass := cmsSetDeviceClass (Lcms := Toy.lcms);
  cmsSetColorSpace := cmsSetColorSpace (Lcms := Toy.lcms);
  cmsSetProfileVersion := cmsSetProfileVersion (Lcms := Toy.lcms);
  cmsWriteTag := cmsWriteTag (Lcms := Toy.lcms);
  cmsMLUalloc := cmsMLUalloc (Lcms := Toy.lcms);
  cmsMLUsetWide := cmsMLUsetWide (Lcms := Toy.lcms);
  cmsMLUgetWide := cmsMLUgetWide (Lcms := Toy.lcms);
  cmsMD5computeID := cmsMD5computeID (Lcms := Toy.lcms);
  cmsSaveProfileToMem := cmsSaveProfileToMem (Lcms := Toy.lcms)
|}.

(** A table with a default text that is not UTF-8. *)
Definition bad_default : gmap string string := <["" := Sample.not_utf8]> ∅.

(** Translations under locale keys. *)
Definition translations : gmap string string :=
  <["fr_FR" := "Ecran"]> (<["de" := "Bildschirm"]> ∅).

End Example.

(** * Properties *)

(** ** Text repair *)

Section TextRepair.

Context `{os : Platform}.

Lemma cd_icc_fix_utf8_string_loop_spec (fuel : nat) :
  ∀ pre post : list byte,
    (length post ≤ fuel)%nat →
    cd_icc_fix_utf8_string_loop fuel (pre ++ post) (length pre)
    = pre ++ repaired post.
Proof.
  induction fuel as [|fuel IH]; intros pre post Hfuel.
  - destruct post; [reflexivity | simpl in Hfuel; lia].
  - destruct post as [|tmp rest].
    + simpl. rewrite app_nil_r.
      rewrite lookup_ge_None_2 by lia. reflexivity.
    + simpl in Hfuel. cbn [cd_icc_fix_utf8_string_loop].
      rewrite list_lookup_middle by reflexivity.
      cbn [repaired].
      destruct (Byte.eqb tmp xae) eqn:Hae.
      * apply byte_dec_bl in Hae. subst tmp. cbn [Byte.eqb].
        replace (Byte.eqb xae x86) with false by reflexivity.
        rewrite insert_app_r_alt by lia.
        rewrite Nat.sub_diag. cbn [insert list_insert].
        unfold g_string_insert_c.
        replace (pre ++ xc2 :: rest) with ((pre ++ [xc2]) ++ rest)
          by (rewrite <- app_assoc; reflexivity).
        replace (length pre + 1)%nat with (length (pre ++ [xc2]))
          by (rewrite length_app; reflexivity).
        rewrite take_app_length, drop_app_length.
        replace ((pre ++ [xc2]) ++ xae :: rest) with ((pre ++ [xc2; xae]) ++ rest)
          by (rewrite <- !app_assoc; reflexivity).
        replace (length (pre ++ [xc2]) + 1)%nat with (length (pre ++ [xc2; xae]))
          by (rewrite !length_app; simpl; lia).
        rewrite IH by lia. rewrite <- app_assoc. reflexivity.
      * destruct (Byte.eqb tmp x86) eqn:H86.
        -- unfold g_string_erase.
           rewrite take_app_length.
           replace (pre ++ tmp :: rest) with ((pre ++ [tmp]) ++ rest)
             by (rewrite <- app_assoc; reflexivity).
           replace (length pre + 1)%nat with (length (pre ++ [tmp]))
             by (rewrite length_app; reflexivity).
           rewrite drop_app_length.
           destruct rest as [|next rest].
           ++ rewrite app_nil_r.
              destruct fuel; simpl; [reflexivity|].
              rewrite lookup_ge_None_2; [reflexivity|].
              rewrite length_app. simpl. lia.
           ++ replace (pre ++ next :: rest) with ((pre ++ [next]) ++ rest)
                by (rewrite <- app_assoc; reflexivity).
              replace (length (pre ++ [tmp])) with (length (pre ++ [next]))
                by (rewrite !length_app; reflexivity).
              rewrite IH by (simpl in Hfuel; lia).
              rewrite <- app_assoc. reflexivity.
        -- replace (pre ++ tmp :: rest) with ((pre ++ [tmp]) ++ rest)
             by (rewrite <- app_assoc; reflexivity).
           replace (length pre + 1)%nat with (length (pre ++ [tmp]))
             by (rewrite length_app; reflexivity).
           rewrite IH by lia. rewrite <- app_assoc. reflexivity.
Qed.

(** The loop always runs to its end, and [repaired] is its result. *)
Lemma cd_icc_fix_utf8_string_spec (string : list byte) :
  cd_icc_fix_utf8_string string
  = (g_utf8_validate (repaired string), repaired string).
Proof.
  unfold cd_icc_fix_utf8_string.
  pose proof (cd_icc_fix_utf8_string_loop_spec (length string) [] string (le_n _)) as H.
  simpl in H. rewrite H. reflexivity.
Qed.

(** Without a 0x86 byte the repair is the one the specification words. *)
Lemma repaired_without_0x86 (s : list byte) :
  x86 ∉ s → repaired s = repair_spec s.
Proof.
  induction s as [|c s IH]; intros Hnot; [reflexivity|].
  apply not_elem_of_cons in Hnot as [Hc Hs].
  cbn [repaired repair_spec flat_map].
  destruct (Byte.eqb c xae) eqn:Hae.
  - simpl. f_equal. f_equal. apply IH, Hs.
  - destruct (Byte.eqb c x86) eqn:H86.
    + apply byte_dec_bl in H86. congruence.
    + simpl. f_equal. apply IH, Hs.
Qed.

End TextRepair.

(** ** Running the state-passing code *)

Section Run.

Context `{cms : Lcms} `{os : Platform}.

Lemma run_bind {A B : Type} (m : M A) (f : A → M B) (s : State) :
  (m ≫= f) s = f (m s).1 (m s).2.
Proof. unfold mbind, M_bind. destruct (m s). reflexivity. Qed.

Lemma set_lcms_profile_same (p : CdIccPrivate) :
  set_lcms_profile (lcms_profile p) p = p.
Proof. destruct p; reflexivity. Qed.

Lemma state_eta (s : State) : {| priv := priv s; calls := calls s |} = s.
Proof. destruct s; reflexivity. Qed.

Lemma stable_ret {A : Type} (I : State → Prop) (x : A) : stable I (mret x).
Proof. intros s Hs. exact Hs. Qed.

Lemma stable_bind {A B : Type} (I : State → Prop) (m : M A) (f : A → M B) :
  stable I m → (∀ x, stable I (f x)) → stable I (m ≫= f).
Proof.
  intros Hm Hf s Hs. rewrite run_bind. apply Hf, Hm, Hs.
Qed.

Lemma stable_get (I : State → Prop) : stable I get.
Proof. intros s Hs. exact Hs. Qed.

Lemma stable_modify (I : State → Prop) (f : CdIccPrivate → CdIccPrivate) :
  tolerates I f → stable I (modify f).
Proof. intros Hf s Hs. apply Hf, Hs. Qed.

Lemma stable_call (I : State → Prop) (c : Call) :
  tolerates_calls I → stable I (call c).
Proof. intros Hc s Hs. apply Hc, Hs. Qed.

Lemma stable_lcms_read {A : Type} (I : State → Prop) (dflt : A) (f : cmsHPROFILE → A) :
  stable I (lcms_read dflt f).
Proof. intros s Hs. exact Hs. Qed.

Lemma stable_lcms_set (I : State → Prop) (c : Call) (f : cmsHPROFILE → cmsHPROFILE) :
  tolerates_calls I → (∀ v, tolerates I (set_lcms_profile v)) →
  stable I (lcms_set c f).
Proof.
  intros Hc Hp s Hs. unfold lcms_set. rewrite run_bind. simpl.
  destruct (lcms_profile (priv s)); [|exact Hs].
  rewrite run_bind. simpl. apply (Hp _ _ (Hc _ c Hs)).
Qed.

Lemma stable_lcms_do (I : State → Prop) (c : Call) (f : cmsHPROFILE → bool * cmsHPROFILE) :
  tolerates_calls I → (∀ v, tolerates I (set_lcms_profile v)) →
  stable I (lcms_do c f).
Proof.
  intros Hc Hp s Hs. unfold lcms_do. rewrite run_bind. simpl.
  destruct (lcms_profile (priv s)); [|exact Hs].
  rewrite !run_bind. simpl. apply (Hp _ _ (Hc _ c Hs)).
Qed.

(** The localized text getter changes nothing but its own table. *)
Lemma stable_cd_icc_get_mluc_data (I : State → Prop) (locale : option string)
    (mluc : CdIccMluc) (sigs : list Z) :
  (∀ v, tolerates I (set_mluc_data mluc v)) →
  stable I (cd_icc_get_mluc_data locale mluc sigs).
Proof.
  intros Htol s Hs. unfold cd_icc_get_mluc_data.
  rewrite run_bind. simpl.
  destruct (mluc_data (priv s) mluc !! cd_icc_get_locale_key locale); [exact Hs|].
  destruct (decompose_locale_key _) as [[language country] key'].
  destruct (_ && _); [exact Hs|].
  destruct (_ && _); [exact Hs|].
  rewrite run_bind. simpl.
  destruct (from_option _ _ _) as [mlu|]; [|exact Hs].
  destruct (cmsMLUgetWide mlu language country 128) as [text_size wtext].
  destruct (text_size =? 0); [exact Hs|].
  destruct (wcstombs wtext 128); [|exact Hs].
  rewrite run_bind. simpl. apply (Htol _ _ Hs).
Qed.

Lemma stable_cd_icc_load_named_colors (I : State → Prop) :
  (∀ v, tolerates I (set_named_colors v)) →
  stable I cd_icc_load_named_colors.
Proof.
  intros Htol s Hs. unfold cd_icc_load_named_colors.
  rewrite run_bind. simpl.
  destruct (from_option _ _ _); [|exact Hs].
  apply (Htol _ _ Hs).
Qed.

End Run.

(** ** Loading *)

Section Loading.

Context `{cms : Lcms} `{os : Platform}.

Lemma hoare_bind {A B : Type} (P : State → Prop) (R : A → State → Prop)
    (Q : B → State → Prop) (m : M A) (f : A → M B) :
  hoare P m R → (∀ x, hoare (R x) (f x) Q) → hoare P (m ≫= f) Q.
Proof. intros Hm Hf s Hs. rewrite run_bind. apply Hf, Hm, Hs. Qed.

Lemma hoare_stable {A : Type} (I : State → Prop) (m : M A) :
  stable I m → hoare I m (λ _, I).
Proof. intros Hm s Hs. apply Hm, Hs. Qed.

Ltac tolerate :=
  intros ? ?; unfold load_frame in *; simpl in *; intuition congruence.

(** [cd_icc_load] sets the checksum to the embedded identifier, if there is
    one, and leaves the size, the file name, the can-delete flag, the handle
    and the record of calls alone. *)
Lemma cd_icc_load_spec (flags : Z) (h : cmsHPROFILE) (s0 : State) :
  hoare (load_frame h s0) (cd_icc_load flags)
        (λ _ s, load_frame h s0 s ∧ checksum (priv s) = cd_icc_get_precooked_md5 h).
Proof.
  unfold cd_icc_load.
  eapply hoare_bind; [apply hoare_stable; apply stable_lcms_read | ]; intros ?.
  eapply hoare_bind; [apply hoare_stable; apply stable_modify; tolerate | ]; intros ?.
  eapply hoare_bind; [apply hoare_stable; apply stable_lcms_read | ]; intros ?.
  eapply hoare_bind.
  { apply hoare_stable. destruct (find _ _).
    - apply stable_modify; tolerate.
    - apply stable_ret. }
  intros ?.
  eapply hoare_bind; [apply hoare_stable; apply stable_lcms_read | ]; intros ?.
  eapply hoare_bind.
  { apply hoare_stable. destruct (find _ _).
    - apply stable_modify; tolerate.
    - apply stable_ret. }
  intros ?.
  eapply hoare_bind.
  { apply hoare_stable. destruct (flag_set _ _); [|apply stable_ret].
    apply stable_bind; [apply stable_lcms_read|]. intros [dict|]; [|apply stable_ret].
    apply stable_modify; tolerate. }
  intros ?.
  eapply (hoare_bind _ (λ md5 s, load_frame h s0 s ∧ md5 = cd_icc_get_precooked_md5 h)).
  { intros s Hs. split; [exact Hs|]. destruct Hs as [Hh _].
    unfold lcms_read. rewrite run_bind. simpl. rewrite Hh. reflexivity. }
  intros md5.
  eapply (hoare_bind _ (λ _ s, load_frame h s0 s
                               ∧ checksum (priv s) = cd_icc_get_precooked_md5 h)).
  { intros s [Hs ->]. split; [revert s Hs; tolerate | reflexivity]. }
  intros ?.
  assert (Htext : ∀ locale mluc sigs,
            stable (λ s, load_frame h s0 s
                         ∧ checksum (priv s) = cd_icc_get_precooked_md5 h)
                   (cd_icc_get_mluc_data locale mluc sigs)).
  { intros. apply stable_cd_icc_get_mluc_data. intros w; tolerate. }
  eapply hoare_bind; [apply hoare_stable; apply Htext | ]; intros ?.
  eapply hoare_bind; [apply hoare_stable; apply Htext | ]; intros ?.
  eapply hoare_bind; [apply hoare_stable; apply Htext | ]; intros ?.
  eapply hoare_bind; [apply hoare_stable; apply Htext | ]; intros ?.
  apply hoare_stable. destruct (flag_set _ _); [|apply stable_ret].
  apply stable_cd_icc_load_named_colors. intros w; tolerate.
Qed.

(** The guards of [cd_icc_load_data]: nothing happens and no error is set. *)
Lemma cd_icc_load_data_null (flags : Z) (s : State) :
  cd_icc_load_data None flags s = (false, None, s).
Proof. reflexivity. Qed.

Lemma cd_icc_load_data_empty (flags : Z) (s : State) :
  cd_icc_load_data (Some []) flags s = (false, None, s).
Proof. reflexivity. Qed.

Lemma cd_icc_load_data_loaded (data : option (list byte)) (flags : Z) (s : State) :
  lcms_profile (priv s) ≠ None →
  cd_icc_load_data data flags s = (false, None, s).
Proof.
  intros Hh. unfold cd_icc_load_data. rewrite run_bind. simpl.
  destruct data as [data|]; [|reflexivity].
  destruct (Z.of_nat (length data) =? 0); [reflexivity|].
  rewrite bool_decide_true by exact Hh. reflexivity.
Qed.

(** A buffer that is not empty but shorter than the header. *)
Lemma cd_icc_load_data_too_small (data : list byte) (flags : Z) (s : State) :
  lcms_profile (priv s) = None →
  (0 < length data < 132)%nat →
  cd_icc_load_data (Some data) flags s
  = (false, Some (g_set_error_literal CD_ICC_ERROR_FAILED_TO_PARSE
                    "icc was not valid (file size too small)"), s).
Proof.
  intros Hh Hlen. unfold cd_icc_load_data.
  rewrite run_bind. simpl.
  destruct (Z.eqb_spec (Z.of_nat (length data)) 0) as [?|_]; [lia|].
  rewrite Hh. rewrite bool_decide_false by (intros ?; congruence).
  destruct (Z.ltb_spec (Z.of_nat (length data)) 132) as [_|?]; [|lia].
  reflexivity.
Qed.

(** The codec does not open the buffer. *)
Lemma cd_icc_load_data_rejected (data : list byte) (flags : Z) (s : State) :
  lcms_profile (priv s) = None →
  (132 ≤ length data)%nat →
  cmsOpenProfileFromMem data (to_guint32 (Z.of_nat (length data))) = None →
  cd_icc_load_data (Some data) flags s
  = (false, Some (g_set_error_literal CD_ICC_ERROR_FAILED_TO_PARSE
                    "failed to load: not an ICC icc"),
     {| priv := priv s;
        calls := calls s ++ [Call_cmsOpenProfileFromMem data
                               (to_guint32 (Z.of_nat (length data)))] |}).
Proof.
  intros Hh Hlen Hopen. unfold cd_icc_load_data.
  rewrite run_bind. simpl.
  destruct (Z.eqb_spec (Z.of_nat (length data)) 0) as [?|_]; [lia|].
  rewrite Hh. rewrite bool_decide_false by (intros ?; congruence).
  destruct (Z.ltb_spec (Z.of_nat (length data)) 132) as [?|_]; [lia|].
  rewrite !run_bind. simpl. rewrite Hopen. simpl.
  rewrite <- Hh at 1. rewrite set_lcms_profile_same. reflexivity.
Qed.

(** The codec opens the buffer. *)
Lemma cd_icc_load_data_opened (data : list byte) (flags : Z) (s : State)
    (h : cmsHPROFILE) :
  lcms_profile (priv s) = None →
  (132 ≤ length data)%nat →
  cmsOpenProfileFromMem data (to_guint32 (Z.of_nat (length data))) = Some h →
  let r := cd_icc_load_data (Some data) flags s in
  r.1 = (true, None)
  ∧ lcms_profile (priv r.2) = Some h
  ∧ size (priv r.2) = to_guint32 (Z.of_nat (length data))
  ∧ checksum (priv r.2)
    = resolved_checksum h
        (if flag_set flags CD_ICC_LOAD_FLAGS_FALLBACK_MD5
         then Some (g_compute_checksum_for_data data) else None)
  ∧ filename (priv r.2) = filename (priv s)
  ∧ can_delete (priv r.2) = can_delete (priv s)
  ∧ calls r.2 = calls s ++ [Call_cmsOpenProfileFromMem data
                              (to_guint32 (Z.of_nat (length data)))].
Proof.
  intros Hh Hlen Hopen. unfold cd_icc_load_data.
  rewrite run_bind. simpl.
  destruct (Z.eqb_spec (Z.of_nat (length data)) 0) as [?|_]; [lia|].
  rewrite Hh. rewrite bool_decide_false by (intros ?; congruence).
  destruct (Z.ltb_spec (Z.of_nat (length data)) 132) as [?|_]; [lia|].
  rewrite !run_bind. simpl. rewrite Hopen. simpl.
  rewrite !run_bind. simpl.
  match goal with |- context [cd_icc_load flags ?s1] => set (s1' := s1) end.
  destruct (cd_icc_load_spec flags h s1' s1') as [(E1&E2&E3&E4&E5) E6].
  { unfold load_frame, s1'. simpl. auto. }
  set (s2 := (cd_icc_load flags s1').2) in *.
  unfold resolved_checksum. rewrite <- E6.
  destruct (checksum (priv s2)) as [md5|] eqn:Hsum.
  - rewrite bool_decide_false by discriminate. simpl.
    rewrite Hsum. auto 10.
  - rewrite bool_decide_true by reflexivity. simpl.
    destruct (flag_set flags CD_ICC_LOAD_FLAGS_FALLBACK_MD5); simpl.
    + rewrite E1, E2, E3, E4, E5. auto 10.
    + rewrite Hsum, E1, E2, E3, E4, E5. auto 10.
Qed.

(** Whenever [cd_icc_load_data] returns FALSE the object is as it was. *)
Lemma cd_icc_load_data_failure (data : option (list byte)) (flags : Z) (s : State) :
  (cd_icc_load_data data flags s).1.1 = false →
  priv (cd_icc_load_data data flags s).2 = priv s.
Proof.
  destruct data as [data|]; [|reflexivity].
  destruct (lcms_profile (priv s)) as [h0|] eqn:Hh.
  { rewrite cd_icc_load_data_loaded by congruence. reflexivity. }
  destruct (decide (length data = 0)%nat) as [Hzero|Hzero].
  { destruct data; [reflexivity | discriminate]. }
  destruct (decide (length data < 132)%nat) as [Hsmall|Hsmall].
  { rewrite cd_icc_load_data_too_small by (auto; lia). reflexivity. }
  destruct (cmsOpenProfileFromMem data (to_guint32 (Z.of_nat (length data))))
    as [h|] eqn:Hopen.
  - destruct (cd_icc_load_data_opened data flags s h Hh ltac:(lia) Hopen) as [Hr _].
    rewrite Hr. discriminate.
  - rewrite cd_icc_load_data_rejected by (auto; lia). reflexivity.
Qed.

(** [cd_icc_load_file], step by step. *)
Lemma cd_icc_load_file_run (file : GFile) (flags : Z) (s : State) :
  cd_icc_load_file file flags s
  = let s1 := {| priv := priv s;
                 calls := calls s ++ [Call_g_file_load_contents file] |} in
    match g_file_load_contents file with
    | inl message =>
        (false, Some {| code := CD_ICC_ERROR_FAILED_TO_OPEN;
                        format := "failed to load file: %s";
                        args := [ArgS message] |}, s1)
    | inr data =>
        let r := cd_icc_load_data (Some data) flags s1 in
        if r.1.1 then
          let s2 := {| priv := priv r.2;
                       calls := calls r.2 ++ [Call_g_file_query_info file] |} in
          match g_file_query_info file with
          | inl message =>
              (true, Some {| code := CD_ICC_ERROR_FAILED_TO_OPEN;
                             format := "failed to query file: %s";
                             args := [ArgS message] |}, s2)
          | inr can_delete =>
              (true, r.1.2,
               {| priv := set_filename (g_file_get_path file)
                            (set_can_delete can_delete (priv r.2));
                  calls := calls s2 |})
          end
        else r
    end.
Proof.
  unfold cd_icc_load_file. rewrite run_bind. simpl.
  destruct (g_file_load_contents file) as [message|data]; [reflexivity|].
  rewrite run_bind.
  destruct (cd_icc_load_data (Some data) flags _) as [[ret err] s2]. simpl.
  destruct ret; simpl; [|reflexivity].
  rewrite run_bind. simpl.
  destruct (g_file_query_info file); [reflexivity|].
  rewrite !run_bind. reflexivity.
Qed.

(** Whenever [cd_icc_load_file] returns FALSE the object is as it was. *)
Lemma cd_icc_load_file_failure (file : GFile) (flags : Z) (s : State) :
  (cd_icc_load_file file flags s).1.1 = false →
  priv (cd_icc_load_file file flags s).2 = priv s.
Proof.
  rewrite cd_icc_load_file_run. cbv zeta.
  destruct (g_file_load_contents file) as [message|data]; [reflexivity|].
  destruct (cd_icc_load_data (Some data) flags _).1.1 eqn:Hret.
  - destruct (g_file_query_info file); discriminate.
  - intros _. apply (cd_icc_load_data_failure _ _ _ Hret).
Qed.

(** [cd_icc_load_fd] after the stream is opened by the codec. *)
Lemma cd_icc_load_fd_opened (fd flags : Z) (s : State) (stream : FILE)
    (h : cmsHPROFILE) :
  0 < fd →
  fdopen fd = Some stream →
  cmsOpenProfileFromStream stream = Some h →
  let r := cd_icc_load_fd fd flags s in
  r.1 = (true, None)
  ∧ lcms_profile (priv r.2) = Some h
  ∧ size (priv r.2) = size (priv s)
  ∧ checksum (priv r.2) = cd_icc_get_precooked_md5 h
  ∧ filename (priv r.2) = filename (priv s)
  ∧ can_delete (priv r.2) = can_delete (priv s)
  ∧ calls r.2 = calls s ++ [Call_fdopen fd; Call_cmsOpenProfileFromStream stream].
Proof.
  intros Hfd Hstream Hopen. unfold cd_icc_load_fd.
  destruct (Z.ltb_spec 0 fd) as [_|?]; [|lia]. simpl.
  rewrite run_bind. simpl. rewrite Hstream.
  rewrite !run_bind. simpl. rewrite Hopen.
  rewrite !run_bind. simpl.
  match goal with |- context [cd_icc_load flags ?s1] => set (s1' := s1) end.
  destruct (cd_icc_load_spec flags h s1' s1') as [(E1&E2&E3&E4&E5) E6].
  { unfold load_frame, s1'. simpl. auto. }
  rewrite E1, E2, E3, E4, E5, E6. unfold s1'. simpl.
  rewrite <- app_assoc. auto 10.
Qed.

(** [cd_icc_load_fd] never touches the size. *)
Lemma cd_icc_load_fd_size (fd flags : Z) (s : State) :
  size (priv (cd_icc_load_fd fd flags s).2) = size (priv s).
Proof.
  destruct (Z.ltb_spec 0 fd) as [Hfd|Hfd].
  - destruct (fdopen fd) as [stream|] eqn:Hstream.
    + destruct (cmsOpenProfileFromStream stream) as [h|] eqn:Hopen.
      * apply (cd_icc_load_fd_opened fd flags s stream h Hfd Hstream Hopen).
      * unfold cd_icc_load_fd.
        destruct (Z.ltb_spec 0 fd) as [_|?]; [|lia]. simpl.
        rewrite run_bind. simpl. rewrite Hstream.
        rewrite !run_bind. simpl. rewrite Hopen. reflexivity.
    + unfold cd_icc_load_fd.
      destruct (Z.ltb_spec 0 fd) as [_|?]; [|lia]. simpl.
      rewrite run_bind. simpl. rewrite Hstream. reflexivity.
  - unfold cd_icc_load_fd.
    destruct (Z.ltb_spec 0 fd) as [?|_]; [lia|]. reflexivity.
Qed.

End Loading.

(** ** The embedded profile identifier *)

Section ProfileId.

Context `{cms : Lcms}.

Lemma hex_value_hex_digit (d : Z) :
  0 <= d < 16 → hex_value (hex_digit d) = Some d.
Proof.
  intros Hd.
  assert (Hn : ∃ n : nat, (n < 16)%nat ∧ d = Z.of_nat n).
  { exists (Z.to_nat d). lia. }
  destruct Hn as (n & Hn & ->).
  do 16 (destruct n as [|n]; [reflexivity|]). lia.
Qed.

Lemma byte_range (c : byte) : 0 <= Z.of_N (Byte.to_N c) < 256.
Proof. pose proof (Byte.to_N_bounded c). lia. Qed.

Lemma snprintf_02x_digits (c : byte) :
  ∃ hi lo,
    snprintf_02x c = String hi (String lo EmptyString)
    ∧ hex_value hi = Some (Z.of_N (Byte.to_N c) / 16)
    ∧ hex_value lo = Some (Z.of_N (Byte.to_N c) mod 16).
Proof.
  pose proof (byte_range c) as Hc.
  eexists _, _. split; [reflexivity|].
  split; apply hex_value_hex_digit.
  - split; [apply Z.div_pos; lia | apply Z.div_lt_upper_bound; lia].
  - apply Z.mod_pos_bound. lia.
Qed.

(** There is an identifier exactly when one of the 16 bytes is not zero. *)
Lemma cd_icc_get_precooked_md5_some (h : cmsHPROFILE) :
  (∃ i, (i < 16)%nat ∧ icc_id h i ≠ x00) ↔ is_Some (cd_icc_get_precooked_md5 h).
Proof.
  unfold cd_icc_get_precooked_md5.
  destruct (existsb _ _) eqn:Hex; simpl.
  - apply existsb_exists in Hex as (i & Hi & Hne).
    apply in_seq in Hi. split; [eauto|]. intros _. exists i. split; [lia|].
    intros Heq. rewrite Heq in Hne. discriminate.
  - split; [|intros [? ?]; discriminate].
    intros (i & Hi & Hne). exfalso.
    assert (Hfalse : existsb (λ i, negb (Byte.eqb (icc_id h i) x00)) (seq 0 16) = true).
    { apply existsb_exists. exists i. split; [apply in_seq; lia|].
      destruct (Byte.eqb (icc_id h i) x00) eqn:Heq; [|reflexivity].
      apply byte_dec_bl in Heq. contradiction. }
    congruence.
Qed.

Lemma cd_icc_get_precooked_md5_none (h : cmsHPROFILE) :
  (∀ i, (i < 16)%nat → icc_id h i = x00) ↔ cd_icc_get_precooked_md5 h = None.
Proof.
  split.
  - intros Hzero. destruct (cd_icc_get_precooked_md5 h) eqn:Hmd5; [|reflexivity].
    destruct (proj2 (cd_icc_get_precooked_md5_some h)) as (i & Hi & Hne).
    { rewrite Hmd5. eauto. }
    destruct Hne. apply Hzero, Hi.
  - intros Hnone i Hi.
    destruct (decide (icc_id h i = x00)) as [|Hne]; [assumption|].
    destruct (proj1 (cd_icc_get_precooked_md5_some h)) as [md5 Hmd5]; [eauto|].
    congruence.
Qed.

(** The identifier is written as 32 lowercase hexadecimal digits. *)
Lemma cd_icc_get_precooked_md5_hex (h : cmsHPROFILE) (md5 : string) :
  cd_icc_get_precooked_md5 h = Some md5 →
  String.length md5 = 32%nat ∧ lowercase_hex_of md5 (profile_id_bytes h).
Proof.
  unfold cd_icc_get_precooked_md5.
  destruct (negb _); [discriminate|]. intros [= <-].
  cbn [seq foldr].
  repeat match goal with
         | |- context [snprintf_02x ?c] =>
             let hi := fresh "hi" in
             let lo := fresh "lo" in
             let E := fresh "E" in
             let Hhi := fresh "Hhi" in
             let Hlo := fresh "Hlo" in
             destruct (snprintf_02x_digits c) as (hi & lo & E & Hhi & Hlo);
             rewrite E; clear E
         end.
  split; [reflexivity|]. split; [reflexivity|].
  intros i c Hc. unfold profile_id_bytes in Hc. cbn [seq map] in Hc.
  do 16 (destruct i as [|i];
         [injection Hc as <-; eexists _, _;
          split; [reflexivity | split; [reflexivity | split; eassumption]] |]).
  discriminate.
Qed.

End ProfileId.

(** ** The load pipeline: the claims *)

Section LoadClaims.

Context `{cms : Lcms} `{os : Platform}.

(** The checksum after [cd_icc_load_file] is the one [cd_icc_load_data]
    left. *)
Lemma cd_icc_load_file_checksum (file : GFile) (flags : Z) (s : State)
    (data : list byte) :
  g_file_load_contents file = inr data →
  checksum (priv (cd_icc_load_file file flags s).2)
  = checksum (priv (cd_icc_load_data (Some data) flags
                      {| priv := priv s;
                         calls := calls s ++ [Call_g_file_load_contents file] |}).2).
Proof.
  intros Hdata. rewrite cd_icc_load_file_run, Hdata. cbv zeta.
  destruct (cd_icc_load_data (Some data) flags _).1.1; [|reflexivity].
  destruct (g_file_query_info file); reflexivity.
Qed.

Lemma cd_icc_load_file_size (file : GFile) (flags : Z) (s : State)
    (data : list byte) :
  g_file_load_contents file = inr data →
  size (priv (cd_icc_load_file file flags s).2)
  = size (priv (cd_icc_load_data (Some data) flags
                  {| priv := priv s;
                     calls := calls s ++ [Call_g_file_load_contents file] |}).2).
Proof.
  intros Hdata. rewrite cd_icc_load_file_run, Hdata. cbv zeta.
  destruct (cd_icc_load_data (Some data) flags _).1.1; [|reflexivity].
  destruct (g_file_query_info file); reflexivity.
Qed.

(** C4.  At load, if any of the 16 bytes of the embedded profile identifier
    is not zero, the checksum is the 32-character lowercase hexadecimal
    encoding of those 16 bytes; if all 16 bytes are zero and the fallback
    checksum was requested on the byte-buffer path (which the file path goes
    through), the checksum is the MD5 content hash of the exact input bytes;
    otherwise (no fallback requested, or the descriptor path) the checksum
    stays unset. *)
Theorem checksum_resolution_at_load :
  (∀ (data : list byte) (flags : Z) (s : State) (h : cmsHPROFILE),
     lcms_profile (priv s) = None →
     (132 ≤ length data)%nat →
     cmsOpenProfileFromMem data (to_guint32 (Z.of_nat (length data))) = Some h →
     let sum := checksum (priv (cd_icc_load_data (Some data) flags s).2) in
     ((∃ i, (i < 16)%nat ∧ icc_id h i ≠ x00) →
      ∃ md5, sum = Some md5 ∧ String.length md5 = 32%nat
             ∧ lowercase_hex_of md5 (profile_id_bytes h))
     ∧ ((∀ i, (i < 16)%nat → icc_id h i = x00) →
        flag_set flags CD_ICC_LOAD_FLAGS_FALLBACK_MD5 = true →
        sum = Some (g_compute_checksum_for_data data))
     ∧ ((∀ i, (i < 16)%nat → icc_id h i = x00) →
        flag_set flags CD_ICC_LOAD_FLAGS_FALLBACK_MD5 = false →
        sum = None))
  ∧ (∀ (file : GFile) (data : list byte) (flags : Z) (s : State) (h : cmsHPROFILE),
       lcms_profile (priv s) = None →
       g_file_load_contents file = inr data →
       (132 ≤ length data)%nat →
       cmsOpenProfileFromMem data (to_guint32 (Z.of_nat (length data))) = Some h →
       let sum := checksum (priv (cd_icc_load_file file flags s).2) in
       ((∃ i, (i < 16)%nat ∧ icc_id h i ≠ x00) →
        ∃ md5, sum = Some md5 ∧ String.length md5 = 32%nat
               ∧ lowercase_hex_of md5 (profile_id_bytes h))
       ∧ ((∀ i, (i < 16)%nat → icc_id h i = x00) →
          flag_set flags CD_ICC_LOAD_FLAGS_FALLBACK_MD5 = true →
          sum = Some (g_compute_checksum_for_data data))
       ∧ ((∀ i, (i < 16)%nat → icc_id h i = x00) →
          flag_set flags CD_ICC_LOAD_FLAGS_FALLBACK_MD5 = false →
          sum = None))
  ∧ (∀ (fd flags : Z) (s : State) (stream : FILE) (h : cmsHPROFILE),
       0 < fd →
       fdopen fd = Some stream →
       cmsOpenProfileFromStream stream = Some h →
       let sum := checksum (priv (cd_icc_load_fd fd flags s).2) in
       ((∃ i, (i < 16)%nat ∧ icc_id h i ≠ x00) →
        ∃ md5, sum = Some md5 ∧ String.length md5 = 32%nat
               ∧ lowercase_hex_of md5 (profile_id_bytes h))
       ∧ ((∀ i, (i < 16)%nat → icc_id h i = x00) → sum = None)).
Proof.
  assert (Hdata : ∀ (data : list byte) (flags : Z) (s : State) (h : cmsHPROFILE),
     lcms_profile (priv s) = None →
     (132 ≤ length data)%nat →
     cmsOpenProfileFromMem data (to_guint32 (Z.of_nat (length data))) = Some h →
     let sum := checksum (priv (cd_icc_load_data (Some data) flags s).2) in
     ((∃ i, (i < 16)%nat ∧ icc_id h i ≠ x00) →
      ∃ md5, sum = Some md5 ∧ String.length md5 = 32%nat
             ∧ lowercase_hex_of md5 (profile_id_bytes h))
     ∧ ((∀ i, (i < 16)%nat → icc_id h i = x00) →
        flag_set flags CD_ICC_LOAD_FLAGS_FALLBACK_MD5 = true →
        sum = Some (g_compute_checksum_for_data data))
     ∧ ((∀ i, (i < 16)%nat → icc_id h i = x00) →
        flag_set flags CD_ICC_LOAD_FLAGS_FALLBACK_MD5 = false →
        sum = None)).
  { intros data flags s h Hh Hlen Hopen sum.
    destruct (cd_icc_load_data_opened data flags s h Hh Hlen Hopen)
      as (_ & _ & _ & Hsum & _).
    subst sum. rewrite Hsum. unfold resolved_checksum.
    split; [|split].
    - intros Hany. apply cd_icc_get_precooked_md5_some in Hany as [md5 Hmd5].
      rewrite Hmd5. exists md5. split; [reflexivity|].
      apply cd_icc_get_precooked_md5_hex, Hmd5.
    - intros Hzero Hflag. apply cd_icc_get_precooked_md5_none in Hzero.
      rewrite Hzero, Hflag. reflexivity.
    - intros Hzero Hflag. apply cd_icc_get_precooked_md5_none in Hzero.
      rewrite Hzero, Hflag. reflexivity. }
  split; [exact Hdata|]. split.
  - intros file data flags s h Hh Hfile Hlen Hopen sum. subst sum.
    rewrite (cd_icc_load_file_checksum file flags s data Hfile).
    apply (Hdata data flags _ h); assumption.
  - intros fd flags s stream h Hfd Hstream Hopen sum.
    destruct (cd_icc_load_fd_opened fd flags s stream h Hfd Hstream Hopen)
      as (_ & _ & _ & Hsum & _).
    subst sum. rewrite Hsum. split.
    + intros Hany. apply cd_icc_get_precooked_md5_some in Hany as [md5 Hmd5].
      rewrite Hmd5. exists md5. split; [reflexivity|].
      apply cd_icc_get_precooked_md5_hex, Hmd5.
    + intros Hzero. apply cd_icc_get_precooked_md5_none, Hzero.
Qed.

(** C6, as amended.  For every buffer that is not empty and shorter than
    132 bytes, handed as a non-null pointer to an object that has no codec
    handle yet, load-from-bytes fails with FailedToParse whatever the
    content, and it does so without asking the codec to open the buffer:
    neither the object nor the record of calls changes. *)
Theorem undersized_buffer_rejected (data : list byte) (flags : Z) (s : State) :
  lcms_profile (priv s) = None →
  (0 < length data < 132)%nat →
  ∃ e, cd_icc_load_data (Some data) flags s = (false, Some e, s)
       ∧ code e = CD_ICC_ERROR_FAILED_TO_PARSE.
Proof.
  intros Hh Hlen. eexists. split.
  - apply cd_icc_load_data_too_small; assumption.
  - reflexivity.
Qed.

(** C10.  Load-from-bytes with a zero-length buffer, or with a null data
    pointer, returns failure without setting any error; the undersized
    inputs that fail with FailedToParse are those of length at least 1. *)
Theorem empty_buffer_sets_no_error (flags : Z) (s : State) :
  cd_icc_load_data (Some []) flags s = (false, None, s)
  ∧ cd_icc_load_data None flags s = (false, None, s)
  ∧ ∀ data : list byte,
      lcms_profile (priv s) = None →
      (1 ≤ length data < 132)%nat →
      ∃ e, (cd_icc_load_data (Some data) flags s).1 = (false, Some e)
           ∧ code e = CD_ICC_ERROR_FAILED_TO_PARSE.
Proof.
  split; [apply cd_icc_load_data_empty|].
  split; [apply cd_icc_load_data_null|].
  intros data Hh Hlen.
  rewrite cd_icc_load_data_too_small by (auto; lia).
  eexists. split; reflexivity.
Qed.

(** C7.  A load from bytes or from a file that fails structurally (the
    file cannot be read, the buffer is too small for a header, or the codec
    does not open it) returns FALSE and leaves the object as it was before
    the load; an object fresh from [cd_icc_new] therefore still has no
    size, no file name, no can-delete flag, no checksum and empty caches. *)
Theorem structural_failure_leaves_object (flags : Z) (s : State) :
  (∀ data, (cd_icc_load_data data flags s).1.1 = false →
           priv (cd_icc_load_data data flags s).2 = priv s)
  ∧ (∀ file, (cd_icc_load_file file flags s).1.1 = false →
             priv (cd_icc_load_file file flags s).2 = priv s)
  ∧ (∀ file message, g_file_load_contents file = inl message →
                     (cd_icc_load_file file flags s).1.1 = false)
  ∧ (∀ data : list byte,
       lcms_profile (priv s) = None →
       (length data < 132)%nat
       ∨ cmsOpenProfileFromMem data (to_guint32 (Z.of_nat (length data))) = None →
       (cd_icc_load_data (Some data) flags s).1.1 = false
       ∧ ∀ file, g_file_load_contents file = inr data →
                 (cd_icc_load_file file flags s).1.1 = false)
  ∧ (priv s = cd_icc_init →
     ∀ s', (∃ data, (cd_icc_load_data data flags s).1.1 = false
                    ∧ s' = (cd_icc_load_data data flags s).2)
           ∨ (∃ file, (cd_icc_load_file file flags s).1.1 = false
                      ∧ s' = (cd_icc_load_file file flags s).2) →
           size (priv s') = 0 ∧ filename (priv s') = None
           ∧ can_delete (priv s') = false ∧ checksum (priv s') = None
           ∧ lcms_profile (priv s') = None
           ∧ metadata (priv s') = ∅ ∧ named_colors (priv s') = []
           ∧ ∀ mluc, mluc_data (priv s') mluc = ∅).
Proof.
  assert (Hsmall : ∀ (data : list byte) (s0 : State),
            lcms_profile (priv s0) = None →
            (length data < 132)%nat
            ∨ cmsOpenProfileFromMem data (to_guint32 (Z.of_nat (length data))) = None →
            (cd_icc_load_data (Some data) flags s0).1.1 = false).
  { intros data s0 Hh Hcause.
    destruct (decide (length data = 0)%nat) as [Hzero|Hzero].
    { destruct data; [reflexivity | discriminate]. }
    destruct (decide (length data < 132)%nat) as [Hlt|Hge].
    { rewrite cd_icc_load_data_too_small by (auto; lia). reflexivity. }
    destruct Hcause as [?|Hopen]; [lia|].
    rewrite cd_icc_load_data_rejected by (auto; lia). reflexivity. }
  split; [intros data; apply cd_icc_load_data_failure|].
  split; [intros file; apply cd_icc_load_file_failure|].
  split.
  { intros file message Hfile. rewrite cd_icc_load_file_run, Hfile. reflexivity. }
  split.
  { intros data Hh Hcause. split; [apply Hsmall; assumption|].
    intros file Hfile. rewrite cd_icc_load_file_run, Hfile. cbv zeta.
    rewrite (Hsmall data _) by assumption. apply Hsmall; assumption. }
  intros Hinit s' Hs'.
  assert (Hpriv : priv s' = cd_icc_init).
  { destruct Hs' as [(data & Hret & ->)|(file & Hret & ->)].
    - rewrite cd_icc_load_data_failure by assumption. exact Hinit.
    - rewrite cd_icc_load_file_failure by assumption. exact Hinit. }
  rewrite Hpriv. repeat split. intros []; reflexivity.
Qed.

(** C9.  A load from an open file descriptor never sets the size: after a
    successful one on a new object the size getter returns 0, its value for
    "unknown".  Only the byte-buffer path, and the file path through it,
    set the size, to the length of the input (as a 32-bit number). *)
Theorem size_after_load :
  (∀ (fd flags : Z) (s : State),
     size (priv (cd_icc_load_fd fd flags s).2) = size (priv s))
  ∧ (∀ (fd flags : Z),
       (cd_icc_load_fd fd flags cd_icc_new).1.1 = true →
       (cd_icc_get_size (cd_icc_load_fd fd flags cd_icc_new).2).1 = 0)
  ∧ (∀ (data : list byte) (flags : Z) (s : State),
       (cd_icc_load_data (Some data) flags s).1.1 = true →
       size (priv (cd_icc_load_data (Some data) flags s).2)
       = to_guint32 (Z.of_nat (length data))
       ∧ (Z.of_nat (length data) < 2 ^ 32 →
          size (priv (cd_icc_load_data (Some data) flags s).2)
          = Z.of_nat (length data)))
  ∧ (∀ (file : GFile) (data : list byte) (flags : Z) (s : State),
       g_file_load_contents file = inr data →
       (cd_icc_load_file file flags s).1.1 = true →
       size (priv (cd_icc_load_file file flags s).2)
       = to_guint32 (Z.of_nat (length data))).
Proof.
  assert (Hdata : ∀ (data : list byte) (flags : Z) (s : State),
            (cd_icc_load_data (Some data) flags s).1.1 = true →
            size (priv (cd_icc_load_data (Some data) flags s).2)
            = to_guint32 (Z.of_nat (length data))).
  { intros data flags s Hret.
    destruct (lcms_profile (priv s)) as [h0|] eqn:Hh.
    { rewrite cd_icc_load_data_loaded in Hret by congruence. discriminate. }
    destruct (decide (length data = 0)%nat) as [Hzero|Hzero].
    { destruct data; [discriminate Hret | discriminate Hzero]. }
    destruct (decide (length data < 132)%nat) as [Hlt|Hge].
    { rewrite cd_icc_load_data_too_small in Hret by (auto; lia). discriminate. }
    destruct (cmsOpenProfileFromMem data (to_guint32 (Z.of_nat (length data))))
      as [h|] eqn:Hopen.
    - apply (cd_icc_load_data_opened data flags s h Hh ltac:(lia) Hopen).
    - rewrite cd_icc_load_data_rejected in Hret by (auto; lia). discriminate. }
  split; [apply cd_icc_load_fd_size|].
  split.
  { intros fd flags _. unfold cd_icc_get_size. rewrite run_bind. simpl.
    rewrite cd_icc_load_fd_size. reflexivity. }
  split.
  { intros data flags s Hret. split; [apply Hdata, Hret|].
    intros Hlen. rewrite Hdata by exact Hret.
    unfold to_guint32. apply Z.mod_small. lia. }
  intros file data flags s Hfile Hret.
  rewrite (cd_icc_load_file_size file flags s data Hfile).
  apply Hdata.
  rewrite cd_icc_load_file_run, Hfile in Hret. cbv zeta in Hret.
  destruct (cd_icc_load_data (Some data) flags _).1.1 eqn:E; [reflexivity|].
  cbv iota in Hret. congruence.
Qed.

End LoadClaims.

(** ** Locale keys *)

Section LocaleKeys.

Context `{os : Platform}.

Lemma g_strstr_len_None (s : string) (c : ascii) :
  g_strstr_len s c = None ↔ ¬ In c (list_ascii_of_string s).
Proof.
  induction s as [|x s IH]; simpl.
  - tauto.
  - destruct (Ascii.eqb_spec x c) as [->|Hne].
    + split; [discriminate | intros Hn; exfalso; apply Hn; left; reflexivity].
    + rewrite fmap_None, IH. split.
      * intros Hn [Heq|Hin]; [congruence | auto].
      * intros Hn Hin. apply Hn. right. exact Hin.
Qed.

Lemma g_strdelimit_nul_fixed (key : string) (d1 d2 : list ascii) :
  (∀ c, c ∈ d2 → c ∈ d1) →
  g_strdelimit_nul key d1 = key → g_strdelimit_nul key d2 = key.
Proof.
  intros Hsub. induction key as [|c key IH]; [reflexivity|]. simpl.
  case_bool_decide as H1; [discriminate|].
  intros [= Hkey]. rewrite bool_decide_false by (intros H2; apply H1, Hsub, H2).
  rewrite IH by exact Hkey. reflexivity.
Qed.

Lemma g_strdelimit_nul_idemp (s : string) (d : list ascii) :
  g_strdelimit_nul (g_strdelimit_nul s d) d = g_strdelimit_nul s d.
Proof.
  induction s as [|c s IH]; [reflexivity|]. simpl.
  case_bool_decide as H1; [reflexivity|]. simpl.
  rewrite bool_decide_false by exact H1. rewrite IH. reflexivity.
Qed.

Lemma cd_icc_get_locale_key_is_locale_key (locale : option string) :
  is_locale_key (cd_icc_get_locale_key locale).
Proof.
  unfold is_locale_key, cd_icc_get_locale_key.
  destruct locale as [locale|]; [|reflexivity].
  destruct (g_str_has_prefix locale "en_US"); [reflexivity|].
  apply g_strdelimit_nul_idemp.
Qed.

Lemma is_locale_key_parse_defined (key : string) :
  is_locale_key key → parse_defined key.
Proof.
  intros Hkey. destruct key as [|c key]; [left; reflexivity|]. right.
  rewrite (g_strdelimit_nul_fixed _ ["."; "("]%char ["."]%char); [discriminate| |exact Hkey].
  intros c0 Hc0. apply list_elem_of_singleton in Hc0 as ->. left.
Qed.

Lemma cd_icc_get_locale_key_defined (locale : option string) :
  parse_defined (cd_icc_get_locale_key locale).
Proof.
  apply is_locale_key_parse_defined, cd_icc_get_locale_key_is_locale_key.
Qed.

Lemma cd_util_mlu_object_parse_dropped (key text : string) :
  is_locale_key key →
  contains_at key ∨ fails_two_character_checks key →
  cd_util_mlu_object_parse (Some key) text = None.
Proof.
  intros Hkey Hdrop.
  assert (Hdot : g_strdelimit_nul key ["."]%char = key).
  { apply (g_strdelimit_nul_fixed _ ["."; "("]%char); [|exact Hkey].
    intros c0 Hc0. apply list_elem_of_singleton in Hc0 as ->. left. }
  destruct key as [|c key].
  { destruct Hdrop as [Hin|[Hne _]]; [destruct Hin | congruence]. }
  unfold cd_util_mlu_object_parse.
  case_bool_decide as Hat; [reflexivity|].
  destruct Hdrop as [Hin|[_ Hfail]].
  { apply g_strstr_len_None in Hat. contradiction. }
  rewrite Hdot. unfold g_strsplit.
  destruct (split_on (String c key) "_") as [|lang rest]; [reflexivity|].
  destruct (Nat.eqb_spec (String.length lang) 2) as [Hlang|Hlang]; [|reflexivity].
  simpl negb. cbv iota.
  destruct Hfail as [?|Hfail]; [contradiction|].
  destruct rest as [|country rest]; [contradiction|].
  destruct (2 <? length (lang :: country :: rest))%nat; [reflexivity|].
  destruct (utf8_to_wchar_t text); [|reflexivity].
  simpl.
  destruct (Nat.eqb_spec (String.length country) 2) as [?|_]; [contradiction|].
  destruct rest; reflexivity.
Qed.

End LocaleKeys.

(** ** Saving *)

Section Saving.

Context `{cms : Lcms} `{os : Platform}.

Lemma stable_if {A : Type} (I : State → Prop) (b : bool) (m1 m2 : M A) :
  stable I m1 → stable I m2 → stable I (if b then m1 else m2).
Proof. destruct b; auto. Qed.

Lemma stable_or_out (I : State → Prop) (step rest : M (bool * option GError)) :
  stable I step → stable I rest → stable I (or_out step rest).
Proof.
  intros Hstep Hrest. unfold or_out. apply stable_bind; [exact Hstep|].
  intros r. destruct r.1; [exact Hrest | apply stable_ret].
Qed.

Lemma stable_cd_util_write_tag_localized (I : State → Prop) (sig : Z)
    (hash : gmap string string) :
  tolerates_calls I → (∀ v, tolerates I (set_lcms_profile v)) →
  stable I (cd_util_write_tag_localized sig hash).
Proof.
  intros Hc Hp. unfold cd_util_write_tag_localized.
  apply stable_bind; [apply stable_get|]. intros p.
  destruct (length (mlu_objects hash) =? 0)%nat.
  { apply stable_bind; [apply stable_lcms_do; assumption|].
    intros ?. apply stable_ret. }
  apply stable_bind.
  { destruct (_ && _); [apply stable_lcms_set; assumption | apply stable_ret]. }
  intros ?. destruct (mlu_set_all _ _) as [mlu|]; [|apply stable_ret].
  apply stable_bind; [apply stable_lcms_do; assumption|].
  intros ret. destruct (negb ret); [apply stable_ret|].
  apply stable_bind; [|intros ?; apply stable_ret].
  destruct (sig =? cmsSigProfileDescriptionTag); [|apply stable_ret].
  apply stable_bind; [apply stable_lcms_do; assumption|].
  intros ?. apply stable_ret.
Qed.

Lemma stable_save_metadata (I : State → Prop) :
  tolerates_calls I → (∀ v, tolerates I (set_lcms_profile v)) →
  stable I save_metadata.
Proof.
  intros Hc Hp. unfold save_metadata.
  apply stable_bind; [apply stable_get|]. intros p.
  destruct (negb _).
  - apply stable_bind; [apply stable_lcms_do; assumption|].
    intros ret. destruct (negb ret); apply stable_ret.
  - apply stable_bind; [apply stable_lcms_do; assumption|].
    intros ?. apply stable_ret.
Qed.

Lemma stable_save_profile_to_file (I : State → Prop) (file : GFile) :
  tolerates_calls I → (∀ v, tolerates I (set_lcms_profile v)) →
  stable I (save_profile_to_file file).
Proof.
  intros Hc Hp. unfold save_profile_to_file.
  apply stable_bind; [apply stable_lcms_do; assumption|].
  intros ret. destruct (negb ret); [apply stable_ret|].
  apply stable_bind; [apply stable_call; assumption|]. intros ?.
  apply stable_bind; [apply stable_lcms_read|].
  intros [[length ?]|]; [|apply stable_ret].
  apply stable_bind; [apply stable_call; assumption|]. intros ?.
  apply stable_bind; [apply stable_lcms_read|].
  intros [[length' data]|]; [|apply stable_ret].
  apply stable_bind; [apply stable_call; assumption|]. intros ?.
  destruct (g_file_replace_contents file data); apply stable_ret.
Qed.

Lemma stable_cd_icc_save_file (I : State → Prop) (file : GFile) :
  tolerates_calls I → (∀ v, tolerates I (set_lcms_profile v)) →
  stable I (cd_icc_save_file file).
Proof.
  intros Hc Hp. unfold cd_icc_save_file.
  apply stable_bind; [apply stable_get|]. intros p.
  apply stable_bind.
  { destruct (find _ _); [apply stable_lcms_set; assumption | apply stable_ret]. }
  intros ?. apply stable_bind.
  { destruct (find _ _); [apply stable_lcms_set; assumption | apply stable_ret]. }
  intros ?. apply stable_bind.
  { destruct (PrimFloat.ltb _ _); [apply stable_lcms_set; assumption | apply stable_ret]. }
  intros ?.
  apply stable_or_out; [apply stable_save_metadata; assumption|].
  do 4 (apply stable_or_out; [apply stable_cd_util_write_tag_localized; assumption|]).
  apply stable_save_profile_to_file; assumption.
Qed.



Lemma lcms_do_run (c : Call) (f : cmsHPROFILE → bool * cmsHPROFILE) (s : State)
    (h : cmsHPROFILE) :
  lcms_profile (priv s) = Some h →
  lcms_do c f s
  = ((f h).1, {| priv := set_lcms_profile (Some (f h).2) (priv s);
                calls := calls s ++ [c] |}).
Proof.
  intros Hh. unfold lcms_do. rewrite run_bind. simpl. rewrite Hh.
  rewrite !run_bind. reflexivity.
Qed.

Lemma lcms_set_run (c : Call) (f : cmsHPROFILE → cmsHPROFILE) (s : State)
    (h : cmsHPROFILE) :
  lcms_profile (priv s) = Some h →
  lcms_set c f s
  = (tt, {| priv := set_lcms_profile (Some (f h)) (priv s);
            calls := calls s ++ [c] |}).
Proof.
  intros Hh. unfold lcms_set. rewrite run_bind. simpl. rewrite Hh.
  rewrite !run_bind. reflexivity.
Qed.

Lemma cd_util_write_tag_localized_empty (sig : Z) (hash : gmap string string)
    (s : State) (h : cmsHPROFILE) :
  lcms_profile (priv s) = Some h →
  mlu_objects hash = [] →
  cd_util_write_tag_localized sig hash s
  = (true, None,
     {| priv := set_lcms_profile (Some (cmsWriteTag h sig None).2) (priv s);
        calls := calls s ++ [Call_cmsWriteTag sig None] |}).
Proof.
  intros Hh Hnone. unfold cd_util_write_tag_localized.
  rewrite run_bind. simpl. rewrite Hnone. simpl.
  rewrite run_bind. rewrite (lcms_do_run _ _ _ h Hh). reflexivity.
Qed.

Lemma cd_util_write_tag_localized_promoted (sig : Z) (hash : gmap string string)
    (s : State) (h : cmsHPROFILE) :
  lcms_profile (priv s) = Some h →
  (1 < length (mlu_objects hash))%nat →
  PrimFloat.ltb (version (priv s)) 4%float = true →
  let r := cd_util_write_tag_localized sig hash s in
  ∃ rest,
    calls r.2 = calls s ++ Call_cmsSetProfileVersion 4%float :: rest
    ∧ Forall is_write_tag rest
    ∧ (r.1.1 = true →
       ∃ mlu,
         mlu_set_all (cmsMLUalloc (length (mlu_objects hash))) (mlu_objects hash)
         = Some mlu
         ∧ (cmsWriteTag (cmsSetProfileVersion h 4%float) sig (Some (TagMLU mlu))).1
           = true
         ∧ rest = Call_cmsWriteTag sig (Some (TagMLU mlu))
                  :: (if sig =? cmsSigProfileDescriptionTag
                      then [Call_cmsWriteTag 0x6473636d None] else [])).
Proof.
  intros Hh Hlen Hver. unfold cd_util_write_tag_localized.
  rewrite run_bind. simpl.
  destruct (Nat.eqb_spec (length (mlu_objects hash)) 0) as [?|_]; [lia|].
  destruct (Nat.ltb_spec 1 (length (mlu_objects hash))) as [_|?]; [|lia].
  rewrite Hver. simpl. rewrite run_bind.
  rewrite (lcms_set_run _ _ _ h Hh). simpl.
  destruct (mlu_set_all _ _) as [mlu|].
  - rewrite run_bind.
    rewrite (lcms_do_run _ _ _ (cmsSetProfileVersion h 4%float)) by reflexivity.
    simpl.
    destruct (cmsWriteTag (cmsSetProfileVersion h 4%float) sig (Some (TagMLU mlu)))
      as [ret h'] eqn:Hwrite. simpl.
    destruct ret; simpl.
    + rewrite run_bind.
      destruct (sig =? cmsSigProfileDescriptionTag).
      * rewrite run_bind. rewrite (lcms_do_run _ _ _ h') by reflexivity. simpl.
        eexists. split; [rewrite <- !app_assoc; reflexivity|].
        split; [repeat constructor; unfold is_write_tag; eauto|].
        intros _. exists mlu. rewrite Hwrite. auto.
      * simpl. eexists. split; [rewrite <- !app_assoc; reflexivity|].
        split; [repeat constructor; unfold is_write_tag; eauto|].
        intros _. exists mlu. rewrite Hwrite. auto.
    + eexists. split; [rewrite <- !app_assoc; reflexivity|].
      split; [repeat constructor; unfold is_write_tag; eauto|].
      discriminate.
  - simpl. exists []. split; [reflexivity|]. split; [constructor|discriminate].
Qed.

Lemma metadata_dict_fold (l : list (string * string)) (acc : cmsDICT) (e : cmsDICTentry) :
  e ∈ foldl (λ dict '(key, value), (_cmsDictAddEntryAscii dict key value).2) acc l
  ↔ e ∈ acc
    ∨ ∃ key value, (key, value) ∈ l
                   ∧ mbstowcs key = Some (Name e)
                   ∧ mbstowcs value = Some (Value e).
Proof.
  revert acc. induction l as [|[key value] l IH]; intros acc; simpl.
  - split; [auto|]. intros [?|(? & ? & Hin & _)]; [assumption|].
    apply elem_of_nil in Hin. contradiction.
  - rewrite IH. unfold _cmsDictAddEntryAscii, utf8_to_wchar_t.
    destruct (mbstowcs key) as [mb_key|] eqn:Hkey;
      [destruct (mbstowcs value) as [mb_value|] eqn:Hvalue|]; simpl.
    + rewrite elem_of_cons. split.
      * intros [[->|?]|(k & v & Hin & ?)]; [right|left; assumption|right].
        -- exists key, value. split; [left|]. auto.
        -- exists k, v. split; [right; assumption|assumption].
      * intros [?|(k & v & Hin & Hk & Hv)]; [left; right; assumption|].
        apply elem_of_cons in Hin as [[= -> ->]|Hin].
        -- left. left. destruct e. simpl in *. congruence.
        -- right. exists k, v. auto.
    + split.
      * intros [?|(k & v & Hin & ?)]; [left; assumption|right].
        exists k, v. split; [right; assumption|assumption].
      * intros [?|(k & v & Hin & Hk & Hv)]; [left; assumption|].
        apply elem_of_cons in Hin as [[= -> ->]|Hin]; [congruence|].
        right. exists k, v. auto.
    + split.
      * intros [?|(k & v & Hin & ?)]; [left; assumption|right].
        exists k, v. split; [right; assumption|assumption].
      * intros [?|(k & v & Hin & Hk & Hv)]; [left; assumption|].
        apply elem_of_cons in Hin as [[= -> ->]|Hin]; [congruence|].
        right. exists k, v. auto.
Qed.

Lemma metadata_dict_entries (metadata : gmap string string) (e : cmsDICTentry) :
  e ∈ metadata_dict metadata
  ↔ ∃ key value, metadata !! key = Some value
                 ∧ mbstowcs key = Some (Name e)
                 ∧ mbstowcs value = Some (Value e).
Proof.
  unfold metadata_dict. rewrite metadata_dict_fold. unfold cmsDictAlloc. split.
  - intros [Hin|(k & v & Hin & ?)]; [apply elem_of_nil in Hin; contradiction|].
    exists k, v. split; [apply elem_of_map_to_list, Hin | assumption].
  - intros (k & v & Hin & ?). right. exists k, v.
    split; [apply elem_of_map_to_list, Hin | assumption].
Qed.

Lemma save_metadata_run (s : State) (h : cmsHPROFILE) :
  lcms_profile (priv s) = Some h →
  metadata (priv s) ≠ ∅ →
  let dict := metadata_dict (metadata (priv s)) in
  let w := cmsWriteTag h cmsSigMetaTag (Some (TagDict dict)) in
  save_metadata s
  = (if w.1 then (true, None)
     else (false, Some (failed_to_save "cannot write metadata")),
     {| priv := set_lcms_profile (Some w.2) (priv s);
        calls := calls s ++ [Call_cmsWriteTag cmsSigMetaTag (Some (TagDict dict))] |}).
Proof.
  intros Hh Hne. unfold save_metadata. rewrite run_bind. simpl.
  destruct (Nat.eqb_spec (g_hash_table_size (metadata (priv s))) 0) as [Hsize|_].
  { apply map_size_empty_iff in Hsize. contradiction. }
  simpl. rewrite run_bind. rewrite (lcms_do_run _ _ _ h Hh). simpl.
  destruct (cmsWriteTag h cmsSigMetaTag _).1; reflexivity.
Qed.

(** The save writes the dictionary as the metadata tag, once the header
    fields are set. *)
Lemma stable_header_call (s0 : State) (c : Call) (f : cmsHPROFILE → cmsHPROFILE) :
  is_header_call c → stable (before_metadata s0) (lcms_set c f).
Proof.
  intros Hc s (Hh & Hm & pre & Hpre & Hall).
  destruct (lcms_profile (priv s)) as [h|] eqn:Hs; [|contradiction].
  rewrite (lcms_set_run _ _ _ h Hs). simpl. split; [discriminate|].
  split; [exact Hm|]. exists (pre ++ [c]). rewrite Hpre, app_assoc.
  split; [reflexivity|]. apply Forall_app. split; [exact Hall|].
  constructor; [exact Hc | constructor].
Qed.

Lemma metadata_written_tolerates (s0 : State) (dict : cmsDICT) :
  tolerates_calls (metadata_written s0 dict)
  ∧ ∀ f, tolerates (metadata_written s0 dict) f.
Proof.
  split.
  - intros s c (pre & post & Hcalls & Hall). exists pre, (post ++ [c]). simpl.
    rewrite Hcalls. rewrite <- !app_assoc. simpl. auto.
  - intros f s Hs. exact Hs.
Qed.

Lemma cd_icc_save_file_writes_metadata (file : GFile) (s : State) :
  lcms_profile (priv s) ≠ None →
  metadata (priv s) ≠ ∅ →
  metadata_written s (metadata_dict (metadata (priv s))) (cd_icc_save_file file s).2.
Proof.
  intros Hh Hne.
  assert (Hstart : before_metadata s s).
  { split; [exact Hh|]. split; [reflexivity|]. exists []. rewrite app_nil_r. auto. }
  assert (Hgoal : hoare (before_metadata s) (cd_icc_save_file file)
            (λ _, metadata_written s (metadata_dict (metadata (priv s))))).
  { clear Hstart. destruct (metadata_written_tolerates s (metadata_dict (metadata (priv s)))) as [Hc Hp].
    unfold cd_icc_save_file.
    eapply hoare_bind; [apply hoare_stable; apply stable_get | ]; intros p.
    eapply hoare_bind.
    { apply hoare_stable.
      destruct (find _ _); [apply stable_header_call; exact I | apply stable_ret]. }
    intros ?. eapply hoare_bind.
    { apply hoare_stable.
      destruct (find _ _); [apply stable_header_call; exact I | apply stable_ret]. }
    intros ?. eapply hoare_bind.
    { apply hoare_stable.
      destruct (PrimFloat.ltb _ _); [apply stable_header_call; exact I | apply stable_ret]. }
    intros ?. unfold or_out.
    eapply (hoare_bind _ (λ _, metadata_written s (metadata_dict (metadata (priv s))))).
    - intros s2 (Hh2 & Hm2 & pre & Hpre & Hall).
      destruct (lcms_profile (priv s2)) as [h2|] eqn:Hs2; [|contradiction].
      rewrite (save_metadata_run s2 h2 Hs2) by (rewrite Hm2; exact Hne).
      simpl. rewrite Hm2. exists pre, []. rewrite Hpre, <- app_assoc. auto.
    - intros r. apply hoare_stable. destruct r.1; [|apply stable_ret].
      do 4 (apply stable_or_out;
            [apply stable_cd_util_write_tag_localized; auto | ]).
      apply stable_save_profile_to_file; auto. }
  exact (Hgoal s Hstart).
Qed.

Lemma hoare_or_out (I : State → Prop) (step rest : M (bool * option GError))
    (Q : bool * option GError → State → Prop) :
  stable I step → hoare I rest Q → (∀ r s, r.1 = false → Q r s) →
  hoare I (or_out step rest) Q.
Proof.
  intros Hstep Hrest Hfalse s Hs. unfold or_out. rewrite run_bind.
  destruct (step s).1.1 eqn:Hret.
  - apply Hrest, Hstep, Hs.
  - apply Hfalse. exact Hret.
Qed.

Lemma extends_tolerates (s0 : State) :
  tolerates_calls (extends s0) ∧ ∀ f, tolerates (extends s0) f.
Proof.
  split.
  - intros s c [pre Hpre]. exists (pre ++ [c]). simpl.
    rewrite Hpre, app_assoc. reflexivity.
  - intros f s Hs. exact Hs.
Qed.

(** A save that returns TRUE has computed the profile identifier and then
    serialized and stored the profile. *)
Lemma save_profile_to_file_true (file : GFile) (s : State) :
  (save_profile_to_file file s).1.1 = true →
  ∃ n data,
    calls (save_profile_to_file file s).2
    = calls s ++ [Call_cmsMD5computeID; Call_cmsSaveProfileToMem None;
                  Call_cmsSaveProfileToMem (Some n);
                  Call_g_file_replace_contents file data].
Proof.
  unfold save_profile_to_file. rewrite run_bind.
  destruct (lcms_profile (priv s)) as [h|] eqn:Hh.
  - rewrite (lcms_do_run _ _ _ h Hh). simpl.
    destruct (cmsMD5computeID h) as [ret h'] eqn:Hid. simpl.
    destruct ret; simpl; [|discriminate].
    rewrite !run_bind. simpl.
    destruct (cmsSaveProfileToMem h' None) as [[n ?]|]; simpl; [|discriminate].
    rewrite !run_bind. simpl.
    destruct (cmsSaveProfileToMem h' (Some n)) as [[n' data]|]; simpl; [|discriminate].
    rewrite !run_bind. simpl.
    destruct (g_file_replace_contents file data); simpl; [discriminate|].
    intros _. exists n, data. rewrite <- !app_assoc. reflexivity.
  - unfold lcms_do. rewrite run_bind. simpl. rewrite Hh. simpl. discriminate.
Qed.

Lemma cd_icc_save_file_true (file : GFile) (s0 : State) :
  hoare (extends s0) (cd_icc_save_file file)
        (λ r s, r.1 = true →
                ∃ pre n data,
                  calls s = calls s0 ++ pre
                            ++ [Call_cmsMD5computeID; Call_cmsSaveProfileToMem None;
                                Call_cmsSaveProfileToMem (Some n);
                                Call_g_file_replace_contents file data]).
Proof.
  destruct (extends_tolerates s0) as [Hc Hp].
  unfold cd_icc_save_file.
  eapply hoare_bind; [apply hoare_stable; apply stable_get | ]; intros p.
  eapply hoare_bind.
  { apply hoare_stable.
    destruct (find _ _); [apply stable_lcms_set; auto | apply stable_ret]. }
  intros ?. eapply hoare_bind.
  { apply hoare_stable.
    destruct (find _ _); [apply stable_lcms_set; auto | apply stable_ret]. }
  intros ?. eapply hoare_bind.
  { apply hoare_stable.
    destruct (PrimFloat.ltb _ _); [apply stable_lcms_set; auto | apply stable_ret]. }
  intros ?.
  apply hoare_or_out; [apply stable_save_metadata; auto | | intros; congruence].
  do 4 (apply hoare_or_out;
        [apply stable_cd_util_write_tag_localized; auto | | intros; congruence]).
  intros s [pre Hpre] Hret.
  destruct (save_profile_to_file_true file s Hret) as (n & data & Hcalls).
  exists pre, n, data. rewrite Hcalls, Hpre, <- app_assoc. reflexivity.
Qed.

End Saving.

(** ** The keys of the caches *)

Section Keys.

Context `{cms : Lcms} `{os : Platform}.

Lemma is_locale_key_substring (key : string) (n : nat) :
  is_locale_key key → is_locale_key (String.substring 0 n key).
Proof.
  unfold is_locale_key. revert n.
  induction key as [|c key IH]; intros n; [destruct n; reflexivity|].
  simpl. case_bool_decide as Hc; [discriminate|]. intros [= Hkey].
  destruct n as [|n]; [reflexivity|]. simpl.
  rewrite bool_decide_false by exact Hc. rewrite IH by exact Hkey. reflexivity.
Qed.

Lemma decompose_locale_key_canonical (key : string) :
  is_locale_key key → is_locale_key (decompose_locale_key key).2.
Proof.
  intros Hkey. unfold decompose_locale_key.
  destruct key as [|c key]; [exact Hkey|].
  destruct (g_strstr_len _ _); [|exact Hkey].
  apply is_locale_key_substring, Hkey.
Qed.

Lemma mluc_data_set_mluc_data (mluc mluc' : CdIccMluc) (v : gmap string string)
    (p : CdIccPrivate) :
  mluc_data (set_mluc_data mluc v p) mluc'
  = if decide (mluc = mluc') then v else mluc_data p mluc'.
Proof. destruct mluc, mluc'; reflexivity. Qed.


Lemma keys_canonical_insert (mluc : CdIccMluc) (key text : string) (s : State) :
  is_locale_key key → keys_canonical s →
  keys_canonical {| priv := set_mluc_data mluc (<[key := text]> (mluc_data (priv s) mluc))
                              (priv s);
                    calls := calls s |}.
Proof.
  intros Hkey Hs mluc'. simpl. rewrite mluc_data_set_mluc_data.
  destruct (decide (mluc = mluc')) as [<-|_]; [|apply Hs].
  apply map_Forall_insert_2; [exact Hkey | apply Hs].
Qed.

Lemma keys_canonical_tolerates :
  tolerates_calls keys_canonical
  ∧ (∀ v, tolerates keys_canonical (set_lcms_profile v))
  ∧ (∀ v, tolerates keys_canonical (set_metadata v))
  ∧ (∀ v, tolerates keys_canonical (set_version v))
  ∧ (∀ v, tolerates keys_canonical (set_kind v))
  ∧ (∀ v, tolerates keys_canonical (set_colorspace v))
  ∧ (∀ v, tolerates keys_canonical (set_checksum v))
  ∧ (∀ v, tolerates keys_canonical (set_size v))
  ∧ (∀ v, tolerates keys_canonical (set_filename v))
  ∧ (∀ v, tolerates keys_canonical (set_can_delete v))
  ∧ (∀ v, tolerates keys_canonical (set_named_colors v)).
Proof.
  assert (Hframe : ∀ f : CdIccPrivate → CdIccPrivate,
            (∀ p mluc, mluc_data (f p) mluc = mluc_data p mluc) →
            tolerates keys_canonical f).
  { intros f Hf s Hs mluc. simpl. rewrite Hf. apply Hs. }
  split; [intros s c Hs mluc; apply Hs|].
  split; [intros v; apply Hframe; intros p []; reflexivity|].
  split; [intros v; apply Hframe; intros p []; reflexivity|].
  split; [intros v; apply Hframe; intros p []; reflexivity|].
  split; [intros v; apply Hframe; intros p []; reflexivity|].
  split; [intros v; apply Hframe; intros p []; reflexivity|].
  split; [intros v; apply Hframe; intros p []; reflexivity|].
  split; [intros v; apply Hframe; intros p []; reflexivity|].
  split; [intros v; apply Hframe; intros p []; reflexivity|].
  split; [intros v; apply Hframe; intros p []; reflexivity|].
  intros v; apply Hframe; intros p []; reflexivity.
Qed.

Lemma stable_keys_get_mluc_data (locale : option string) (mluc : CdIccMluc)
    (sigs : list Z) :
  stable keys_canonical (cd_icc_get_mluc_data locale mluc sigs).
Proof.
  intros s Hs. unfold cd_icc_get_mluc_data.
  rewrite run_bind. simpl.
  destruct (mluc_data (priv s) mluc !! cd_icc_get_locale_key locale); [exact Hs|].
  pose proof (decompose_locale_key_canonical _
                (cd_icc_get_locale_key_is_locale_key locale)) as Hkey.
  destruct (decompose_locale_key _) as [[language country] key'].
  destruct (_ && _); [exact Hs|].
  destruct (_ && _); [exact Hs|].
  rewrite run_bind. simpl.
  destruct (from_option _ _ _) as [mlu|]; [|exact Hs].
  destruct (cmsMLUgetWide mlu language country 128) as [text_size wtext].
  destruct (text_size =? 0); [exact Hs|].
  destruct (wcstombs wtext 128); [|exact Hs].
  rewrite run_bind. simpl. apply keys_canonical_insert; assumption.
Qed.

Lemma stable_keys_set_mluc (mluc : CdIccMluc) (locale : option string)
    (value : string) :
  stable keys_canonical (cd_icc_set_mluc mluc locale value).
Proof.
  intros s Hs. apply keys_canonical_insert; [|exact Hs].
  apply cd_icc_get_locale_key_is_locale_key.
Qed.

Lemma stable_keys_load (flags : Z) : stable keys_canonical (cd_icc_load flags).
Proof.
  destruct keys_canonical_tolerates
    as (Hc & Hp & Hd & Hv & Hk & Hs & Hsum & Hsize & Hf & Hdel & Hn).
  unfold cd_icc_load.
  apply stable_bind; [apply stable_lcms_read|]; intros ?.
  apply stable_bind; [apply stable_modify, Hv|]; intros ?.
  apply stable_bind; [apply stable_lcms_read|]; intros ?.
  apply stable_bind.
  { destruct (find _ _); [apply stable_modify, Hk | apply stable_ret]. }
  intros ?. apply stable_bind; [apply stable_lcms_read|]; intros ?.
  apply stable_bind.
  { destruct (find _ _); [apply stable_modify, Hs | apply stable_ret]. }
  intros ?. apply stable_bind.
  { destruct (flag_set _ _); [|apply stable_ret].
    apply stable_bind; [apply stable_lcms_read|]. intros [dict|]; [|apply stable_ret].
    intros s Hi. apply (Hd _ _ Hi). }
  intros ?. apply stable_bind; [apply stable_lcms_read|]; intros ?.
  apply stable_bind; [apply stable_modify, Hsum|]; intros ?.
  do 4 (apply stable_bind; [apply stable_keys_get_mluc_data|]; intros ?).
  destruct (flag_set _ _); [|apply stable_ret].
  apply stable_cd_icc_load_named_colors, Hn.
Qed.

Lemma stable_keys_load_data (data : option (list byte)) (flags : Z) :
  stable keys_canonical (cd_icc_load_data data flags).
Proof.
  destruct keys_canonical_tolerates
    as (Hc & Hp & Hd & Hv & Hk & Hs & Hsum & Hsize & Hf & Hdel & Hn).
  unfold cd_icc_load_data.
  apply stable_bind; [apply stable_get|]; intros p.
  destruct data as [data|]; [|apply stable_ret].
  destruct (_ =? 0); [apply stable_ret|].
  destruct (bool_decide _); [apply stable_ret|].
  destruct (_ <? _); [apply stable_ret|].
  apply stable_bind; [apply stable_call, Hc|]; intros ?.
  apply stable_bind; [apply stable_modify, Hp|]; intros ?.
  destruct (cmsOpenProfileFromMem _ _); [|apply stable_ret].
  apply stable_bind; [apply stable_modify, Hsize|]; intros ?.
  apply stable_bind; [apply stable_keys_load|]; intros ?.
  apply stable_bind; [apply stable_get|]; intros p'.
  apply stable_bind; [|intros ?; apply stable_ret].
  destruct (_ && _); [apply stable_modify, Hsum | apply stable_ret].
Qed.

Lemma stable_keys_run_api (api : Api) : stable keys_canonical (run_api api).
Proof.
  destruct keys_canonical_tolerates
    as (Hc & Hp & Hd & Hv & Hk & Hs & Hsum & Hsize & Hf & Hdel & Hn).
  destruct api as [data flags|file flags|fd flags|handle|op]; simpl.
  - apply stable_bind; [apply stable_keys_load_data|intros ?; apply stable_ret].
  - apply stable_bind; [|intros ?; apply stable_ret].
    unfold cd_icc_load_file.
    apply stable_bind; [apply stable_call, Hc|]; intros ?.
    destruct (g_file_load_contents file); [apply stable_ret|].
    apply stable_bind; [apply stable_keys_load_data|]; intros r.
    destruct (negb r.1); [apply stable_ret|].
    apply stable_bind; [apply stable_call, Hc|]; intros ?.
    destruct (g_file_query_info file); [apply stable_ret|].
    apply stable_bind; [apply stable_modify, Hdel|]; intros ?.
    apply stable_bind; [apply stable_modify, Hf|]; intros ?. apply stable_ret.
  - apply stable_bind; [|intros ?; apply stable_ret].
    unfold cd_icc_load_fd.
    destruct (negb _); [apply stable_ret|].
    apply stable_bind; [apply stable_call, Hc|]; intros ?.
    destruct (fdopen fd); [|apply stable_ret].
    apply stable_bind; [apply stable_call, Hc|]; intros ?.
    apply stable_bind; [apply stable_modify, Hp|]; intros ?.
    destruct (cmsOpenProfileFromStream _); [|apply stable_ret].
    apply stable_bind; [apply stable_keys_load|]; intros ?. apply stable_ret.
  - unfold cd_icc_set_handle.
    apply stable_bind; [apply stable_get|]; intros p.
    destruct handle; [|apply stable_ret].
    destruct (lcms_profile p); [apply stable_ret|apply stable_modify, Hp].
  - destruct op; simpl.
    + apply stable_modify, Hv.
    + apply stable_modify, Hk.
    + apply stable_modify, Hs.
    + intros s Hi. apply (Hd _ _ Hi).
    + intros s Hi. apply (Hd _ _ Hi).
    + apply stable_keys_set_mluc.
    + unfold cd_icc_set_mluc_items.
      induction (map_to_list values) as [|[key value] items IH]; simpl.
      * apply stable_ret.
      * apply stable_bind; [apply stable_keys_set_mluc | intros ?; exact IH].
    + apply stable_bind; [|intros ?; apply stable_ret].
      destruct mluc; apply stable_keys_get_mluc_data.
    + apply stable_bind; [|intros ?; apply stable_ret]. intros s Hi. exact Hi.
    + apply stable_bind; [|intros ?; apply stable_ret]. intros s Hi. exact Hi.
    + apply stable_bind; [|intros ?; apply stable_ret]. intros s Hi. exact Hi.
    + apply stable_bind; [|intros ?; apply stable_ret]. intros s Hi. exact Hi.
    + apply stable_bind; [|intros ?; apply stable_ret].
      apply stable_cd_icc_save_file; assumption.
Qed.

(** Whatever is done with an object from [cd_icc_new], the keys of its
    caches are locale keys. *)
Lemma keys_canonical_reachable (apis : list Api) :
  keys_canonical (run_apis apis cd_icc_new).2.
Proof.
  assert (Hnew : keys_canonical cd_icc_new).
  { intros mluc. destruct mluc; apply map_Forall_empty. }
  revert Hnew. generalize cd_icc_new as s.
  induction apis as [|api apis IH]; intros s Hs; [exact Hs|].
  simpl. rewrite run_bind. apply IH. apply (stable_keys_run_api api s Hs).
Qed.

End Keys.

(** ** The save pipeline and the later operations: the claims *)

Section SaveClaims.

Context `{cms : Lcms} `{os : Platform}.

(** C1, as amended.  For every save with a non-empty metadata map, a key or
    a value that cannot be transcoded to wide text does not fail the save:
    the entry is left out, and the dictionary that the save writes as the
    metadata tag holds exactly the entries whose key and value both
    transcode.  The metadata step fails, with FailedToSave, only when the
    codec refuses to write the tag. *)
Theorem untranscodable_metadata_left_out (file : GFile) (s : State) :
  lcms_profile (priv s) ≠ None →
  metadata (priv s) ≠ ∅ →
  let dict := metadata_dict (metadata (priv s)) in
  (∀ e, e ∈ dict
        ↔ ∃ key value, metadata (priv s) !! key = Some value
                       ∧ mbstowcs key = Some (Name e)
                       ∧ mbstowcs value = Some (Value e))
  ∧ metadata_written s dict (cd_icc_save_file file s).2
  ∧ (∀ s1 h1,
       lcms_profile (priv s1) = Some h1 →
       metadata (priv s1) = metadata (priv s) →
       let w := cmsWriteTag h1 cmsSigMetaTag (Some (TagDict dict)) in
       save_metadata s1
       = (if w.1 then (true, None)
          else (false, Some (failed_to_save "cannot write metadata")),
          {| priv := set_lcms_profile (Some w.2) (priv s1);
             calls := calls s1
                      ++ [Call_cmsWriteTag cmsSigMetaTag (Some (TagDict dict))] |})).
Proof.
  intros Hh Hne dict. split; [intros e; apply metadata_dict_entries|].
  split; [apply cd_icc_save_file_writes_metadata; assumption|].
  intros s1 h1 Hh1 Hm1. subst dict. rewrite <- Hm1.
  apply save_metadata_run; [exact Hh1 | rewrite Hm1; exact Hne].
Qed.

(** C3.  For every localized field at save time, with the keys its cache
    holds (locale keys, by [keys_canonical_reachable]): a key that contains '@' or fails the 2-character checks on its
    language and country is dropped; if no pair survives, the tag is
    deleted by writing NULL, and nothing else is done; if more than one
    pair survives while the profile's version is below 4.0, the version of
    the profile is set to exactly 4.0 first, and only then is the tag
    written. *)
Theorem localized_write_back (sig : Z) (hash : gmap string string) (s : State)
    (h : cmsHPROFILE) :
  lcms_profile (priv s) = Some h →
  map_Forall (λ key _, is_locale_key key) hash →
  (∀ key text, hash !! key = Some text →
               contains_at key ∨ fails_two_character_checks key →
               cd_util_mlu_object_parse (Some key) text = None)
  ∧ (mlu_objects hash = [] →
     cd_util_write_tag_localized sig hash s
     = (true, None,
        {| priv := set_lcms_profile (Some (cmsWriteTag h sig None).2) (priv s);
           calls := calls s ++ [Call_cmsWriteTag sig None] |}))
  ∧ ((1 < length (mlu_objects hash))%nat →
     PrimFloat.ltb (version (priv s)) 4%float = true →
     let r := cd_util_write_tag_localized sig hash s in
     ∃ rest,
       calls r.2 = calls s ++ Call_cmsSetProfileVersion 4%float :: rest
       ∧ Forall is_write_tag rest
       ∧ (r.1.1 = true →
          ∃ mlu,
            mlu_set_all (cmsMLUalloc (length (mlu_objects hash))) (mlu_objects hash)
            = Some mlu
            ∧ (cmsWriteTag (cmsSetProfileVersion h 4%float) sig (Some (TagMLU mlu))).1
              = true
            ∧ rest = Call_cmsWriteTag sig (Some (TagMLU mlu))
                     :: (if sig =? cmsSigProfileDescriptionTag
                         then [Call_cmsWriteTag 0x6473636d None] else []))).
Proof.
  intros Hh Hkeys. split; [|split].
  - intros key text Hlookup Hdrop.
    apply cd_util_mlu_object_parse_dropped; [|exact Hdrop].
    apply (Hkeys key text Hlookup).
  - apply cd_util_write_tag_localized_empty, Hh.
  - apply cd_util_write_tag_localized_promoted, Hh.
Qed.

Lemma ident_tolerates (c : option string * Z * option string * bool) :
  tolerates_calls (λ s, ident (priv s) = c)
  ∧ (∀ v, tolerates (λ s, ident (priv s) = c) (set_lcms_profile v))
  ∧ (∀ mluc v, tolerates (λ s, ident (priv s) = c) (set_mluc_data mluc v))
  ∧ (∀ v, tolerates (λ s, ident (priv s) = c) (set_metadata v))
  ∧ (∀ v, tolerates (λ s, ident (priv s) = c) (set_version v))
  ∧ (∀ v, tolerates (λ s, ident (priv s) = c) (set_kind v))
  ∧ (∀ v, tolerates (λ s, ident (priv s) = c) (set_colorspace v)).
Proof.
  split; [intros s call Hs; exact Hs|].
  repeat split; intros; intros s Hs; exact Hs.
Qed.

Lemma stable_cd_icc_set_mluc_list (I : State → Prop) (mluc : CdIccMluc)
    (items : list (string * string)) :
  (∀ v, tolerates I (set_mluc_data mluc v)) →
  stable I (cd_icc_set_mluc_list mluc items).
Proof.
  intros Hm. induction items as [|[key value] items IH]; simpl.
  - apply stable_ret.
  - apply stable_bind; [|intros ?; exact IH].
    intros s Hs. apply (Hm _ _ Hs).
Qed.

(** No operation after the load touches the identity fields. *)
Lemma stable_run_op (c : option string * Z * option string * bool) (op : Op) :
  stable (λ s, ident (priv s) = c) (run_op op).
Proof.
  destruct (ident_tolerates c) as (Hc & Hp & Hm & Hd & Hv & Hk & Hs).
  destruct op; simpl.
  - apply stable_modify, Hv.
  - apply stable_modify, Hk.
  - apply stable_modify, Hs.
  - intros s Hi. apply (Hd _ _ Hi).
  - intros s Hi. apply (Hd _ _ Hi).
  - intros s Hi. apply (Hm _ _ _ Hi).
  - apply stable_cd_icc_set_mluc_list, Hm.
  - apply stable_bind; [|intros ?; apply stable_ret].
    destruct mluc; apply stable_cd_icc_get_mluc_data, Hm.
  - apply stable_bind; [|intros ?; apply stable_ret]. intros s Hi. exact Hi.
  - apply stable_bind; [|intros ?; apply stable_ret]. intros s Hi. exact Hi.
  - apply stable_bind; [|intros ?; apply stable_ret]. intros s Hi. exact Hi.
  - apply stable_bind; [|intros ?; apply stable_ret]. intros s Hi. exact Hi.
  - apply stable_bind; [|intros ?; apply stable_ret].
    apply stable_cd_icc_save_file; assumption.
Qed.

(** C8.  On a loaded object, no later operation (mutation, read or save)
    changes the checksum, nor the size, the file name or the can-delete
    flag.  In particular a save leaves them as they were, while a save that
    succeeds has had the codec compute the profile identifier after every
    change to the profile and just before it is serialized and stored. *)
Theorem identity_fields_outlive_later_operations (s : State) :
  lcms_profile (priv s) ≠ None →
  (∀ ops,
     let s' := (run_ops ops s).2 in
     checksum (priv s') = checksum (priv s) ∧ size (priv s') = size (priv s)
     ∧ filename (priv s') = filename (priv s)
     ∧ can_delete (priv s') = can_delete (priv s))
  ∧ (∀ file,
       let r := cd_icc_save_file file s in
       checksum (priv r.2) = checksum (priv s) ∧ size (priv r.2) = size (priv s)
       ∧ filename (priv r.2) = filename (priv s)
       ∧ can_delete (priv r.2) = can_delete (priv s)
       ∧ (r.1.1 = true →
          ∃ pre n data,
            calls r.2 = calls s ++ pre
                        ++ [Call_cmsMD5computeID; Call_cmsSaveProfileToMem None;
                            Call_cmsSaveProfileToMem (Some n);
                            Call_g_file_replace_contents file data])).
Proof.
  intros _. split.
  - intros ops s'.
    assert (Hident : ident (priv s') = ident (priv s)).
    { subst s'. generalize (eq_refl (ident (priv s))).
      generalize (ident (priv s)) at 2 3 as c. intros c.
      revert s. induction ops as [|op ops IH]; intros s Hs; [exact Hs|].
      simpl. rewrite run_bind. apply IH. apply (stable_run_op c op s Hs). }
    unfold ident in Hident. injection Hident as -> -> -> ->. auto.
  - intros file r.
    assert (Hident : ident (priv r.2) = ident (priv s)).
    { destruct (ident_tolerates (ident (priv s))) as (Hc & Hp & _).
      exact (stable_cd_icc_save_file (λ s', ident (priv s') = ident (priv s))
               file Hc Hp s eq_refl). }
    assert (Hself : extends s s).
    { exists []. rewrite app_nil_r. reflexivity. }
    pose proof (cd_icc_save_file_true file s s Hself) as Hcalls.
    fold r in Hcalls. clearbody r.
    unfold ident in Hident. injection Hident as -> -> -> ->.
    split; [reflexivity|]. split; [reflexivity|]. split; [reflexivity|].
    split; [reflexivity|]. exact Hcalls.
Qed.

(** What [cd_icc_get_mluc_data] does when the tag is there but holds no
    text for the language and country asked for: it returns NULL and sets
    no error. *)
Lemma cd_icc_get_mluc_data_no_text (locale : option string) (mluc : CdIccMluc)
    (sigs : list Z) (s : State) (h : cmsHPROFILE) (mlu : cmsMLU)
    (language country key' : string) :
  mluc_data (priv s) mluc !! cd_icc_get_locale_key locale = None →
  decompose_locale_key (cd_icc_get_locale_key locale) = (language, country, key') →
  (cd_icc_get_locale_key locale = ""
   ∨ String.length language = 2%nat
     ∧ (country = "" ∨ String.length country = 2%nat)) →
  lcms_profile (priv s) = Some h →
  read_first_mlu h sigs = Some mlu →
  (cmsMLUgetWide mlu language country 128).1 = 0 →
  cd_icc_get_mluc_data locale mluc sigs s = (None, None, s).
Proof.
  intros Hmiss Hcodes Hok Hh Hmlu Hsize. unfold cd_icc_get_mluc_data.
  rewrite run_bind. simpl. rewrite Hmiss, Hcodes.
  assert (Hlang : bool_decide (cd_icc_get_locale_key locale ≠ "")
                  && negb (String.length language =? 2)%nat = false).
  { destruct Hok as [->|[-> _]]; [reflexivity|].
    apply andb_false_r. }
  assert (Hcountry : bool_decide (cd_icc_get_locale_key locale ≠ "")
                     && bool_decide (country ≠ "")
                     && negb (String.length country =? 2)%nat = false).
  { destruct Hok as [->|[_ [->| ->]]]; [reflexivity| |apply andb_false_r].
    rewrite (bool_decide_false ("" ≠ "")) by auto.
    rewrite andb_false_r. reflexivity. }
  rewrite Hlang, Hcountry. rewrite run_bind. simpl. rewrite Hh. simpl.
  rewrite Hmlu.
  destruct (cmsMLUgetWide mlu language country 128) as [text_size wtext].
  simpl in Hsize. subst text_size. reflexivity.
Qed.

End SaveClaims.

(** ** The code on concrete inputs *)

(** C5: the code at the failing input.  Two 0x86 bytes in a row: the first
    is erased, the second moves into its place and is stepped over, so one
    0x86 is left and the string is still not UTF-8, where the repair of the
    specification removes both and leaves the empty, valid string.  A 0xAE
    that follows a 0x86 is stepped over in the same way. *)
Theorem fix_utf8_string_steps_over_byte_after_erase :
  (∀ os : Platform, (cd_icc_fix_utf8_string (os := os) [x86; x86]).2 = [x86])
  ∧ cd_icc_fix_utf8_string (os := Toy.platform) [x86; x86] = (false, [x86])
  ∧ repair_spec [x86; x86] = []
  ∧ g_utf8_validate (Platform := Toy.platform) (repair_spec [x86; x86]) = true
  ∧ cd_icc_fix_utf8_string (os := Toy.platform) [x86; xae] = (false, [xae])
  ∧ repair_spec [x86; xae] = [xc2; xae].
Proof.
  split; [intros os; reflexivity|].
  repeat split; vm_compute; reflexivity.
Qed.

(** C2: the code at the failing input.  The copyright tag is there and
    holds the default text only; asked for "fr_FR", whose key decomposes
    into "fr" and "FR", the getter returns NULL and sets no error, and the
    object is unchanged. *)
Theorem get_without_text_sets_no_error :
  decompose_locale_key (cd_icc_get_locale_key (Some "fr_FR")) = ("fr", "FR", "fr")
  ∧ read_first_mlu (cms := Toy.lcms) Sample.copyright_only [cmsSigCopyrightTag]
    = Some [("", "", [67; 67; 48])]
  ∧ cmsMLUgetWide (Lcms := Toy.lcms) [("", "", [67; 67; 48])] "fr" "FR" 128 = (0, [])
  ∧ cd_icc_get_copyright (os := Toy.platform) (Some "fr_FR") Sample.adopted
    = (None, None, Sample.adopted).
Proof.
  repeat split; vm_compute; reflexivity.
Qed.

(** C1: a counterexample.  The metadata holds "License" = "CC0" and
    "Name" = the byte 0xFF, which is not UTF-8 and does not transcode.  The
    save succeeds, no error is set, and the dictionary written as the
    metadata tag has the "License" entry only. *)
Lemma save_succeeds_without_untranscodable_entry :
  metadata (priv Sample.with_metadata) !! "Name" = Some Sample.not_utf8
  ∧ mbstowcs (Platform := Toy.platform) Sample.not_utf8 = None
  ∧ (cd_icc_save_file (os := Toy.platform) "file:///tmp/out.icc"
       Sample.with_metadata).1 = (true, None)
  ∧ head (written_tags
            (calls (cd_icc_save_file (os := Toy.platform) "file:///tmp/out.icc"
                      Sample.with_metadata).2))
    = Some (cmsSigMetaTag,
            Some (TagDict [ {| Name := [76; 105; 99; 101; 110; 115; 101];
                               Value := [67; 67; 48] |} ]))
  ∧ ¬ ∃ e, (cd_icc_save_file (os := Toy.platform) "file:///tmp/out.icc"
              Sample.with_metadata).1 = (false, Some e).
Proof.
  split; [vm_compute; reflexivity|].
  split; [vm_compute; reflexivity|].
  split; [vm_compute; reflexivity|].
  split; [vm_compute; reflexivity|].
  intros [e He]. vm_compute in He. discriminate He.
Qed.

(** C6: a counterexample.  The empty buffer is shorter than 132 bytes, and
    loading it returns FALSE with no error set: not FailedToParse. *)
Lemma empty_buffer_is_not_failed_to_parse :
  (length ([] : list byte) < 132)%nat
  ∧ cd_icc_load_data (os := Toy.platform) (Some []) 0 Sample.new
    = (false, None, Sample.new)
  ∧ ¬ ∃ e, (cd_icc_load_data (os := Toy.platform) (Some []) 0 Sample.new).1
           = (false, Some e)
           ∧ code e = CD_ICC_ERROR_FAILED_TO_PARSE.
Proof.
  split; [simpl; lia|]. split; [reflexivity|].
  intros (e & He & _). discriminate He.
Qed.

(** ** The general theorems at concrete inputs *)

(** C6 at a buffer of 131 bytes on a new object. *)
Lemma undersized_buffer_rejected_witness :
  ∃ e, cd_icc_load_data (os := Toy.platform) (Some Sample.short) 0 Sample.new
       = (false, Some e, Sample.new)
       ∧ code e = CD_ICC_ERROR_FAILED_TO_PARSE.
Proof.
  apply (undersized_buffer_rejected (cms := Toy.lcms) (os := Toy.platform)
           Sample.short 0 Sample.new).
  - reflexivity.
  - vm_compute. lia.
Defined.

(** C10 at the empty buffer and at the null pointer, on a new object. *)
Lemma empty_buffer_sets_no_error_witness :
  cd_icc_load_data (os := Toy.platform) (Some []) 0 Sample.new
  = (false, None, Sample.new)
  ∧ ∃ e, (cd_icc_load_data (os := Toy.platform) (Some Sample.short) 0 Sample.new).1
         = (false, Some e)
         ∧ code e = CD_ICC_ERROR_FAILED_TO_PARSE.
Proof.
  destruct (empty_buffer_sets_no_error (cms := Toy.lcms) (os := Toy.platform)
              0 Sample.new) as (Hempty & _ & Hshort).
  split; [exact Hempty|].
  apply Hshort.
  - reflexivity.
  - vm_compute. lia.
Defined.

(** C7 at an unreadable file, at a buffer of 200 bytes that the reference
    codec does not open and at a buffer of 131 bytes. *)
Lemma structural_failure_leaves_object_witness :
  priv (cd_icc_load_file (os := Toy.platform) "file:///icc/missing.icc" 0 Sample.new).2
  = cd_icc_init
  ∧ priv (cd_icc_load_file (os := Toy.platform) "file:///icc/garbage.icc" 0 Sample.new).2
    = cd_icc_init
  ∧ (cd_icc_load_data (os := Toy.platform) (Some Sample.short) 0 Sample.new).1.1 = false.
Proof.
  destruct (structural_failure_leaves_object (cms := Toy.lcms) (os := Toy.platform)
              0 Sample.new) as (_ & Hfile & Hread & Hcause & _).
  split; [|split].
  - apply Hfile. apply (Hread _ "No such file or directory"%string). reflexivity.
  - apply Hfile.
    apply (Hcause (replicate 200 x2a)); [reflexivity | right; reflexivity | reflexivity].
  - apply (Hcause Sample.short); [reflexivity | left; vm_compute; lia].
Defined.

(** C9 at a load from descriptor 3 and at a load of a header of 132 bytes. *)
Lemma size_after_load_witness :
  (cd_icc_get_size (cd_icc_load_fd (os := Toy.platform) 3 0 Sample.new).2).1 = 0
  ∧ size (priv (cd_icc_load_data (os := Toy.platform)
                  (Some (Toy.icc_bytes Sample.id)) 0 Sample.new).2) = 132.
Proof.
  destruct (size_after_load (cms := Toy.lcms) (os := Toy.platform))
    as (_ & Hfd & Hdata & _).
  split.
  - apply Hfd. vm_compute. reflexivity.
  - apply (Hdata (Toy.icc_bytes Sample.id) 0 Sample.new).
    + vm_compute. reflexivity.
    + vm_compute. reflexivity.
Defined.

(** C4 at a profile with an identifier, and at one whose identifier is all
    zero: loaded with and without the fallback flag, and from a descriptor. *)
Lemma checksum_resolution_at_load_witness :
  (∃ md5, checksum (priv (cd_icc_load_data (os := Toy.platform)
                            (Some (Toy.icc_bytes Sample.id)) 0 Sample.new).2)
          = Some md5
          ∧ String.length md5 = 32%nat
          ∧ lowercase_hex_of md5
              (profile_id_bytes (cms := Toy.lcms) (Toy.display_profile Sample.id)))
  ∧ checksum (priv (cd_icc_load_data (os := Toy.platform)
                      (Some (Toy.icc_bytes (replicate 16 x00)))
                      CD_ICC_LOAD_FLAGS_FALLBACK_MD5 Sample.new).2)
    = Some (g_compute_checksum_for_data (Platform := Toy.platform)
              (Toy.icc_bytes (replicate 16 x00)))
  ∧ checksum (priv (cd_icc_load_data (os := Toy.platform)
                      (Some (Toy.icc_bytes (replicate 16 x00))) 0 Sample.new).2)
    = None
  ∧ checksum (priv (cd_icc_load_fd (os := Toy.platform) 3
                      CD_ICC_LOAD_FLAGS_FALLBACK_MD5 Sample.new).2)
    = None.
Proof.
  destruct (checksum_resolution_at_load (cms := Toy.lcms) (os := Toy.platform))
    as (Hdata & _ & Hfd).
  split; [|split; [|split]].
  - apply (Hdata (Toy.icc_bytes Sample.id) 0 Sample.new (Toy.display_profile Sample.id)).
    + reflexivity.
    + vm_compute. lia.
    + vm_compute. reflexivity.
    + exists 0%nat. split; [lia|]. vm_compute. discriminate.
  - apply (Hdata (Toy.icc_bytes (replicate 16 x00)) CD_ICC_LOAD_FLAGS_FALLBACK_MD5
             Sample.new (Toy.display_profile (replicate 16 x00))).
    + reflexivity.
    + vm_compute. lia.
    + vm_compute. reflexivity.
    + intros i Hi. do 16 (destruct i as [|i]; [reflexivity|]). lia.
    + reflexivity.
  - apply (Hdata (Toy.icc_bytes (replicate 16 x00)) 0
             Sample.new (Toy.display_profile (replicate 16 x00))).
    + reflexivity.
    + vm_compute. lia.
    + vm_compute. reflexivity.
    + intros i Hi. do 16 (destruct i as [|i]; [reflexivity|]). lia.
    + reflexivity.
  - apply (Hfd 3 CD_ICC_LOAD_FLAGS_FALLBACK_MD5 Sample.new {| fileno := 3 |}
             (Toy.display_profile (replicate 16 x00))).
    + lia.
    + reflexivity.
    + reflexivity.
    + intros i Hi. do 16 (destruct i as [|i]; [reflexivity|]). lia.
Defined.

(** C1 at a metadata map with one entry that transcodes and one whose value
    is not UTF-8. *)
Lemma untranscodable_metadata_left_out_witness :
  mbstowcs (Platform := Toy.platform) Sample.not_utf8 = None
  ∧ metadata_dict (os := Toy.platform) (metadata (priv Sample.with_metadata))
    = [ {| Name := [76; 105; 99; 101; 110; 115; 101]; Value := [67; 67; 48] |} ]
  ∧ metadata_written Sample.with_metadata
      (metadata_dict (os := Toy.platform) (metadata (priv Sample.with_metadata)))
      (cd_icc_save_file (os := Toy.platform) "file:///tmp/out.icc"
         Sample.with_metadata).2.
Proof.
  destruct (untranscodable_metadata_left_out (cms := Toy.lcms) (os := Toy.platform)
              "file:///tmp/out.icc" Sample.with_metadata)
    as (_ & Hwritten & _).
  - vm_compute. discriminate.
  - intros Hempty. vm_compute in Hempty. discriminate Hempty.
  - split; [reflexivity|]. split; [vm_compute; reflexivity | exact Hwritten].
Defined.

(** C3 at a cache none of whose keys survives, and at one with two
    surviving keys on a profile of version 2. *)
Lemma localized_write_back_witness :
  cd_util_write_tag_localized (os := Toy.platform) cmsSigCopyrightTag
    Sample.no_survivor Sample.from_fd
  = (true, None,
     {| priv := priv Sample.from_fd;
        calls := calls Sample.from_fd ++ [Call_cmsWriteTag cmsSigCopyrightTag None] |})
  ∧ ∃ rest,
      calls (cd_util_write_tag_localized (os := Toy.platform) cmsSigCopyrightTag
               Sample.two_survivors Sample.from_fd).2
      = calls Sample.from_fd ++ Call_cmsSetProfileVersion 4%float :: rest
      ∧ Forall is_write_tag rest.
Proof.
  split.
  - destruct (localized_write_back (cms := Toy.lcms) (os := Toy.platform)
                cmsSigCopyrightTag Sample.no_survivor Sample.from_fd
                (Toy.display_profile (replicate 16 x00)))
      as (_ & Hnone & _).
    + reflexivity.
    + apply map_Forall_to_list. vm_compute. repeat constructor.
    + rewrite Hnone by (vm_compute; reflexivity). reflexivity.
  - destruct (localized_write_back (cms := Toy.lcms) (os := Toy.platform)
                cmsSigCopyrightTag Sample.two_survivors Sample.from_fd
                (Toy.display_profile (replicate 16 x00)))
      as (_ & _ & Hmany).
    + reflexivity.
    + apply map_Forall_to_list. vm_compute. repeat constructor.
    + destruct Hmany as (rest & Hcalls & Hrest & _).
      * vm_compute. lia.
      * vm_compute. reflexivity.
      * exists rest. split; assumption.
Defined.

(** C8 at a profile loaded from bytes: after three changes, a save and a
    read, and after a save alone. *)
Lemma identity_fields_outlive_later_operations_witness :
  checksum (priv (run_ops (os := Toy.platform)
                    [Op_set_version 4%float; Op_add_metadata "License" "CC0";
                     Op_set_text CD_MLUC_DESCRIPTION (Some "fr_FR") "Ecran";
                     Op_save_file "file:///tmp/out.icc";
                     Op_get_text CD_MLUC_COPYRIGHT None]
                    Sample.from_data).2)
  = Some "deadbeef000102030a0b0c0d7f80feff"
  ∧ size (priv (cd_icc_save_file (os := Toy.platform) "file:///tmp/out.icc"
                  Sample.from_data).2) = 132.
Proof.
  destruct (identity_fields_outlive_later_operations (cms := Toy.lcms)
              (os := Toy.platform) Sample.from_data) as (Hops & Hsave).
  - vm_compute. discriminate.
  - split.
    + destruct (Hops [Op_set_version 4%float; Op_add_metadata "License" "CC0";
                      Op_set_text CD_MLUC_DESCRIPTION (Some "fr_FR") "Ecran";
                      Op_save_file "file:///tmp/out.icc";
                      Op_get_text CD_MLUC_COPYRIGHT None]) as (Hsum & _).
      rewrite Hsum. vm_compute. reflexivity.
    + destruct (Hsave "file:///tmp/out.icc") as (_ & Hsize & _).
      rewrite Hsize. vm_compute. reflexivity.
Defined.

(** * Further properties of the code *)

(** ** Metadata and the codec handle *)

Section Store.

Context `{cms : Lcms} `{os : Platform}.

(** X1.  Metadata items round-trip: an added item is the one read back under
    its key, the other keys read as before, adding again overwrites, a
    removed item reads as NULL, and removing what was added to a table that
    did not have the key gives the object back as it was.  Reading an item
    changes nothing. *)
Theorem metadata_item_round_trip (key value value' other : string) (s : State) :
  let added := (cd_icc_add_metadata key value s).2 in
  cd_icc_get_metadata_item (Some key) added = (Some value, added)
  ∧ (other ≠ key →
     (cd_icc_get_metadata_item (Some other) added).1
     = (cd_icc_get_metadata_item (Some other) s).1)
  ∧ (cd_icc_add_metadata key value' added).2 = (cd_icc_add_metadata key value' s).2
  ∧ (cd_icc_get_metadata_item (Some key) (cd_icc_remove_metadata key added).2).1 = None
  ∧ ((cd_icc_get_metadata_item (Some key) s).1 = None →
     (cd_icc_remove_metadata key added).2 = s)
  ∧ cd_icc_get_metadata_item None s = (None, s).
Proof.
  destruct s as [p c]. cbv zeta.
  unfold cd_icc_get_metadata_item, cd_icc_add_metadata, cd_icc_remove_metadata,
    modify, get. rewrite !run_bind. simpl.
  split; [rewrite lookup_insert_eq; reflexivity|].
  split; [intros Hne; rewrite lookup_insert_ne by congruence; reflexivity|].
  split; [rewrite insert_insert_eq; reflexivity|].
  split; [rewrite lookup_delete_eq; reflexivity|].
  split; [|reflexivity].
  intros Hnone. rewrite delete_insert_id by exact Hnone. destruct p; reflexivity.
Qed.

(** X2.  The codec handle is set at most once: [cd_icc_set_handle] does
    nothing with a NULL handle or on an object that has a handle, and on an
    object without one it stores the handle and changes nothing else.  Once
    a handle is adopted, a further [cd_icc_set_handle] and a load from bytes
    are both refused, the load with FALSE and no error. *)
Theorem handle_is_set_once (h : cmsHPROFILE) (handle : option cmsHPROFILE)
    (data : option (list byte)) (flags : Z) (s : State) :
  cd_icc_set_handle None s = (tt, s)
  ∧ (lcms_profile (priv s) ≠ None → cd_icc_set_handle handle s = (tt, s))
  ∧ (lcms_profile (priv s) = None →
     let adopted := (cd_icc_set_handle (Some h) s).2 in
     adopted = {| priv := set_lcms_profile (Some h) (priv s); calls := calls s |}
     ∧ cd_icc_get_handle adopted = (Some h, adopted)
     ∧ cd_icc_set_handle handle adopted = (tt, adopted)
     ∧ cd_icc_load_data data flags adopted = (false, None, adopted)).
Proof.
  split; [|split].
  - unfold cd_icc_set_handle. rewrite run_bind. reflexivity.
  - intros Hh. unfold cd_icc_set_handle. rewrite run_bind. simpl.
    destruct handle, (lcms_profile (priv s)); try reflexivity. contradiction.
  - intros Hnone. cbv zeta.
    assert (Hrun : (cd_icc_set_handle (Some h) s).2
                   = {| priv := set_lcms_profile (Some h) (priv s); calls := calls s |}).
    { unfold cd_icc_set_handle. rewrite run_bind. simpl. rewrite Hnone. reflexivity. }
    rewrite Hrun. split; [reflexivity|]. split; [reflexivity|]. split.
    + unfold cd_icc_set_handle. rewrite run_bind. simpl. destruct handle; reflexivity.
    + apply cd_icc_load_data_loaded. simpl. discriminate.
Qed.

(** X3.  An object that has a codec handle refuses to be loaded again from
    bytes or from a file: the load returns FALSE, sets no error and leaves
    the object as it was.  The file is still read before it is refused. *)
Theorem loaded_object_refuses_another_load (data : option (list byte))
    (file : GFile) (bytes : list byte) (flags : Z) (s : State) :
  lcms_profile (priv s) ≠ None →
  g_file_load_contents file = inr bytes →
  cd_icc_load_data data flags s = (false, None, s)
  ∧ cd_icc_load_file file flags s
    = (false, None,
       {| priv := priv s; calls := calls s ++ [Call_g_file_load_contents file] |}).
Proof.
  intros Hh Hfile. split; [apply cd_icc_load_data_loaded, Hh|].
  rewrite cd_icc_load_file_run. cbv zeta. rewrite Hfile.
  rewrite cd_icc_load_data_loaded by exact Hh. reflexivity.
Qed.

End Store.

(** ** The load paths *)

Section LoadPaths.

Context `{cms : Lcms} `{os : Platform}.

Lemma cd_icc_load_fd_run (fd flags : Z) (s : State) :
  cd_icc_load_fd fd flags s
  = if negb (0 <? fd) then (false, None, s)
    else
      let s1 := {| priv := priv s; calls := calls s ++ [Call_fdopen fd] |} in
      match fdopen fd with
      | None =>
          (false, Some {| code := CD_ICC_ERROR_FAILED_TO_OPEN;
                          format := "failed to open stream from fd %i";
                          args := [ArgI fd] |}, s1)
      | Some stream =>
          let s2 := {| priv := set_lcms_profile (cmsOpenProfileFromStream stream) (priv s);
                       calls := calls s1 ++ [Call_cmsOpenProfileFromStream stream] |} in
          match cmsOpenProfileFromStream stream with
          | None =>
              (false, Some (g_set_error_literal CD_ICC_ERROR_FAILED_TO_OPEN
                              "failed to open stream"), s2)
          | Some _ => (true, None, (cd_icc_load flags s2).2)
          end
      end.
Proof.
  unfold cd_icc_load_fd. destruct (negb (0 <? fd)); [reflexivity|].
  rewrite run_bind. simpl. destruct (fdopen fd) as [stream|]; [|reflexivity].
  rewrite !run_bind. simpl.
  destruct (cmsOpenProfileFromStream stream); [|reflexivity].
  rewrite !run_bind. reflexivity.
Qed.

(** X4.  The descriptor load reports its failures as FailedToOpen and never
    as FailedToParse: a descriptor that is not positive is refused with
    FALSE, no error and no call; a descriptor that cannot be made a stream
    and a stream the codec does not open both give FALSE with a
    FailedToOpen error.  The call returns TRUE exactly when it sets no
    error and the descriptor is positive. *)
Theorem load_fd_failures_are_failed_to_open (fd flags : Z) (s : State) :
  let r := cd_icc_load_fd fd flags s in
  (fd <= 0 → r = (false, None, s))
  ∧ (0 < fd → fdopen fd = None →
     r = (false, Some {| code := CD_ICC_ERROR_FAILED_TO_OPEN;
                         format := "failed to open stream from fd %i";
                         args := [ArgI fd] |},
          {| priv := priv s; calls := calls s ++ [Call_fdopen fd] |}))
  ∧ (∀ e, r.1.2 = Some e → code e = CD_ICC_ERROR_FAILED_TO_OPEN ∧ r.1.1 = false)
  ∧ (r.1.1 = true ↔ 0 < fd ∧ r.1.2 = None).
Proof.
  cbv zeta. rewrite cd_icc_load_fd_run.
  destruct (Z.ltb_spec 0 fd) as [Hfd|Hfd]; simpl.
  - split; [lia|]. destruct (fdopen fd) as [stream|].
    + split; [discriminate|].
      destruct (cmsOpenProfileFromStream stream); simpl.
      * split; [discriminate|]. split; [auto|reflexivity].
      * split; [intros e [= <-]; auto|]. split; [discriminate|]. intros [_ ?]. discriminate.
    + split; [reflexivity|]. simpl.
      split; [intros e [= <-]; auto|]. split; [discriminate|]. intros [_ ?]. discriminate.
  - split; [reflexivity|]. split; [lia|]. split; [discriminate|].
    split; [discriminate|]. lia.
Qed.

(** X5.  The descriptor load does not look at the handle the object has: it
    stores whatever the codec returns for the stream.  On an object that was
    loaded already, a stream the codec does not open leaves the object
    without a handle, every other field as it was. *)
Theorem load_fd_overwrites_handle (fd flags : Z) (s : State) (stream : FILE) :
  0 < fd →
  fdopen fd = Some stream →
  let r := cd_icc_load_fd fd flags s in
  lcms_profile (priv r.2) = cmsOpenProfileFromStream stream
  ∧ (cmsOpenProfileFromStream stream = None →
     r.1 = (false, Some (g_set_error_literal CD_ICC_ERROR_FAILED_TO_OPEN
                           "failed to open stream"))
     ∧ priv r.2 = set_lcms_profile None (priv s)).
Proof.
  intros Hfd Hstream. cbv zeta.
  destruct (cmsOpenProfileFromStream stream) as [h|] eqn:Hopen.
  - split; [|discriminate].
    apply (cd_icc_load_fd_opened fd flags s stream h Hfd Hstream Hopen).
  - rewrite cd_icc_load_fd_run.
    destruct (Z.ltb_spec 0 fd) as [_|?]; [|lia]. simpl.
    rewrite Hstream, Hopen. auto.
Qed.

(** X6.  A file load that succeeds without an error records where the
    profile came from: the file name is the path of the file and the
    can-delete flag is the attribute the file system reports; the size is
    the length of the contents. *)
Theorem load_file_records_path_and_deletability (file : GFile) (flags : Z)
    (s : State) :
  let r := cd_icc_load_file file flags s in
  r.1 = (true, None) →
  ∃ data can_delete,
    g_file_load_contents file = inr data
    ∧ g_file_query_info file = inr can_delete
    ∧ cd_icc_get_filename r.2 = (g_file_get_path file, r.2)
    ∧ cd_icc_get_can_delete r.2 = (can_delete, r.2)
    ∧ cd_icc_get_size r.2 = (to_guint32 (Z.of_nat (length data)), r.2)
    ∧ lcms_profile (priv r.2)
      = cmsOpenProfileFromMem data (to_guint32 (Z.of_nat (length data))).
Proof.
  cbv zeta. rewrite cd_icc_load_file_run. cbv zeta.
  destruct (g_file_load_contents file) as [message|data]; [discriminate|].
  set (s1 := {| priv := priv s; calls := calls s ++ [Call_g_file_load_contents file] |}).
  destruct (cd_icc_load_data (Some data) flags s1).1.1 eqn:Hret.
  - destruct (g_file_query_info file) as [message|can_delete]; [discriminate|].
    intros _. exists data, can_delete.
    split; [reflexivity|]. split; [reflexivity|].
    split; [reflexivity|]. split; [reflexivity|].
    unfold cd_icc_get_size. rewrite run_bind. simpl.
    destruct (lcms_profile (priv s1)) as [h0|] eqn:Hnone.
    { rewrite cd_icc_load_data_loaded in Hret by congruence. discriminate. }
    destruct (decide (length data < 132)%nat) as [Hsmall|Hbig].
    { exfalso. destruct data as [|b data].
      - rewrite cd_icc_load_data_empty in Hret. discriminate.
      - rewrite cd_icc_load_data_too_small in Hret; [discriminate|exact Hnone|].
        simpl in *. lia. }
    destruct (cmsOpenProfileFromMem data (to_guint32 (Z.of_nat (length data))))
      as [h|] eqn:Hopen.
    + destruct (cd_icc_load_data_opened data flags s1 h Hnone ltac:(lia) Hopen)
        as (_ & Hh & Hsize & _).
      rewrite Hsize, Hh. auto.
    + rewrite cd_icc_load_data_rejected in Hret by (auto; lia). discriminate.
  - intros Hr. rewrite Hr in Hret. discriminate.
Qed.

(** X7.  When the contents are read and parsed but the file's attributes
    cannot be queried, the file load returns TRUE and sets a FailedToOpen
    error all the same: the profile stays loaded, and the file name and the
    can-delete flag are not set. *)
Theorem load_file_query_failure_reports_success (file : GFile) (flags : Z)
    (s : State) (data : list byte) (h : cmsHPROFILE) (message : string) :
  lcms_profile (priv s) = None →
  g_file_load_contents file = inr data →
  (132 ≤ length data)%nat →
  cmsOpenProfileFromMem data (to_guint32 (Z.of_nat (length data))) = Some h →
  g_file_query_info file = inl message →
  let r := cd_icc_load_file file flags s in
  r.1 = (true, Some {| code := CD_ICC_ERROR_FAILED_TO_OPEN;
                       format := "failed to query file: %s";
                       args := [ArgS message] |})
  ∧ lcms_profile (priv r.2) = Some h
  ∧ size (priv r.2) = to_guint32 (Z.of_nat (length data))
  ∧ filename (priv r.2) = filename (priv s)
  ∧ can_delete (priv r.2) = can_delete (priv s).
Proof.
  intros Hnone Hfile Hlen Hopen Hquery. cbv zeta.
  rewrite cd_icc_load_file_run. cbv zeta. rewrite Hfile.
  set (s1 := {| priv := priv s; calls := calls s ++ [Call_g_file_load_contents file] |}).
  destruct (cd_icc_load_data_opened data flags s1 h Hnone Hlen Hopen)
    as (Hr & Hh & Hsize & _ & Hname & Hdel & _).
  rewrite Hr, Hquery. simpl. auto.
Qed.

End LoadPaths.

(** ** Localized text *)

Section Text.

Context `{cms : Lcms} `{os : Platform}.

Lemma cd_icc_get_text_signatures (mluc : CdIccMluc) (locale : option string) :
  cd_icc_get_text mluc locale = cd_icc_get_mluc_data locale mluc (tag_signatures mluc).
Proof. destruct mluc; reflexivity. Qed.

(** [cd_icc_get_mluc_data], exit by exit. *)
Lemma cd_icc_get_mluc_data_run (locale : option string) (mluc : CdIccMluc)
    (sigs : list Z) (s : State) :
  cd_icc_get_mluc_data locale mluc sigs s
  = let key := cd_icc_get_locale_key locale in
    match mluc_data (priv s) mluc !! key with
    | Some value => (Some value, None, s)
    | None =>
        let d := decompose_locale_key key in
        if bool_decide (key ≠ "") && negb (String.length d.1.1 =? 2)%nat
        then (None, Some (invalid_locale locale), s)
        else if bool_decide (key ≠ "") && bool_decide (d.1.2 ≠ "")
                && negb (String.length d.1.2 =? 2)%nat
        then (None, Some (invalid_locale locale), s)
        else
          match from_option (λ h, read_first_mlu h sigs) None (lcms_profile (priv s)) with
          | None => (None, Some (g_set_error_literal CD_ICC_ERROR_NO_DATA
                                   "cmsSigProfile*Tag mising"), s)
          | Some mlu =>
              let g := cmsMLUgetWide mlu d.1.1 d.1.2 128 in
              if g.1 =? 0 then (None, None, s)
              else
                match wcstombs g.2 128 with
                | None => (None, Some (g_set_error_literal CD_ICC_ERROR_NO_DATA
                                         "invalid UTF-8"), s)
                | Some text =>
                    (Some text, None,
                     {| priv := set_mluc_data mluc
                                  (<[d.2 := text]> (mluc_data (priv s) mluc)) (priv s);
                        calls := calls s |})
                end
          end
    end.
Proof.
  unfold cd_icc_get_mluc_data. rewrite run_bind. simpl.
  destruct (mluc_data (priv s) mluc !! cd_icc_get_locale_key locale); [reflexivity|].
  destruct (decompose_locale_key _) as [[language country] key']. simpl.
  destruct (_ && _); [reflexivity|].
  destruct (_ && _); [reflexivity|].
  rewrite run_bind. simpl.
  destruct (from_option _ _ _) as [mlu|]; [|reflexivity].
  destruct (cmsMLUgetWide mlu language country 128) as [text_size wtext]. simpl.
  destruct (text_size =? 0); [reflexivity|].
  destruct (wcstombs wtext 128); [|reflexivity].
  rewrite run_bind. reflexivity.
Qed.

Lemma prefix_length (p s : string) :
  String.prefix p s = true → (String.length p ≤ String.length s)%nat.
Proof.
  revert s. induction p as [|c p IH]; intros s; [simpl; lia|].
  destruct s as [|c' s]; simpl; [discriminate|].
  destruct (ascii_dec c c'); [|discriminate].
  intros Hp. apply IH in Hp. lia.
Qed.

Lemma g_strstr_len_lt (s : string) (c : ascii) (n : nat) :
  g_strstr_len s c = Some n → (n < String.length s)%nat.
Proof.
  revert n. induction s as [|x s IH]; intros n; cbn [g_strstr_len]; [discriminate|].
  destruct (Ascii.eqb x c).
  - intros Heq. injection Heq as <-. simpl. lia.
  - destruct (g_strstr_len s c) as [m|]; [|discriminate].
    intros Heq. injection Heq as <-. specialize (IH m eq_refl). simpl. lia.
Qed.

Lemma length_substring (s : string) (n m : nat) :
  (n + m ≤ String.length s)%nat → String.length (String.substring n m s) = m.
Proof.
  revert n m. induction s as [|c s IH]; intros n m; simpl.
  - intros Hle. destruct n, m; simpl; first [reflexivity | lia].
  - intros Hle. destruct n as [|n].
    + destruct m as [|m]; [reflexivity|]. simpl. rewrite IH by lia. reflexivity.
    + apply IH. lia.
Qed.

Lemma decompose_locale_key_underscore (key : string) (n : nat) :
  g_strstr_len key "_" = Some n →
  decompose_locale_key key
  = (String.substring 0 n key,
     String.substring (S n) (String.length key - S n) key,
     String.substring 0 n key).
Proof.
  intros Hn. unfold decompose_locale_key.
  destruct key as [|c key]; [discriminate|]. rewrite Hn. reflexivity.
Qed.

Lemma decompose_locale_key_plain (key : string) :
  g_strstr_len key "_" = None →
  decompose_locale_key key = (key, cmsNoCountry, key).
Proof.
  intros Hn. unfold decompose_locale_key.
  destruct key as [|c key]; [reflexivity|]. rewrite Hn. reflexivity.
Qed.

Lemma language_is_locale_key (language : string) :
  String.length language = 2%nat →
  is_locale_key language →
  cd_icc_get_locale_key (Some language) = language.
Proof.
  intros Hlen Hkey. unfold cd_icc_get_locale_key.
  destruct (g_str_has_prefix language "en_US") eqn:Hp; [|exact Hkey].
  apply prefix_length in Hp. simpl in Hp. lia.
Qed.

(** X8.  A text that was set is the text that is read back, for every
    locale that has the same key: the code-set suffix of a locale does not
    matter, and NULL and the locales that begin with en_US all name the
    default text.  The read consults the cache only and changes nothing;
    the tables of the other fields are as they were. *)
Theorem localized_text_set_then_get (mluc other : CdIccMluc)
    (locale locale' : option string) (value : string) (s : State) :
  cd_icc_get_locale_key locale' = cd_icc_get_locale_key locale →
  let s1 := (cd_icc_set_mluc mluc locale value s).2 in
  cd_icc_get_text mluc locale' s1 = (Some value, None, s1)
  ∧ (other ≠ mluc → mluc_data (priv s1) other = mluc_data (priv s) other).
Proof.
  intros Hkey. cbv zeta. split.
  - rewrite cd_icc_get_text_signatures, cd_icc_get_mluc_data_run. cbv zeta.
    unfold cd_icc_set_mluc, modify. simpl.
    rewrite mluc_data_set_mluc_data. destruct (decide (mluc = mluc)); [|congruence].
    rewrite Hkey, lookup_insert_eq. reflexivity.
  - intros Hne. unfold cd_icc_set_mluc, modify. simpl.
    rewrite mluc_data_set_mluc_data. destruct (decide (mluc = other)); congruence.
Qed.

(** X9.  What a text read can return: text and no error, with the text now
    in the cache of the field under a locale key and nothing else changed;
    or no text and an InvalidLocale or NoData error; or no text and no
    error.  Text and an error are never returned together, and a read that
    returns no text leaves the object as it was.  No read makes a call that
    changes the profile. *)
Theorem get_text_outcomes (mluc : CdIccMluc) (locale : option string) (s : State) :
  let r := cd_icc_get_text mluc locale s in
  calls r.2 = calls s
  ∧ match r.1 with
    | (Some text, None) =>
        (∃ key, is_locale_key key ∧ mluc_data (priv r.2) mluc !! key = Some text)
        ∧ priv r.2 = set_mluc_data mluc (mluc_data (priv r.2) mluc) (priv s)
    | (None, Some e) =>
        (code e = CD_ICC_ERROR_INVALID_LOCALE ∨ code e = CD_ICC_ERROR_NO_DATA)
        ∧ r.2 = s
    | (None, None) => r.2 = s
    | (Some _, Some _) => False
    end.
Proof.
  cbv zeta. rewrite cd_icc_get_text_signatures, cd_icc_get_mluc_data_run. cbv zeta.
  destruct (mluc_data (priv s) mluc !! cd_icc_get_locale_key locale) as [value|] eqn:Hhit.
  { simpl. split; [reflexivity|]. split.
    - exists (cd_icc_get_locale_key locale).
      split; [apply cd_icc_get_locale_key_is_locale_key | exact Hhit].
    - destruct s as [p c], p, mluc; reflexivity. }
  destruct (_ && _); [simpl; auto|].
  destruct (_ && _); [simpl; auto|].
  destruct (from_option _ _ _) as [mlu|]; [|simpl; auto].
  destruct (_ =? 0); [simpl; auto|].
  destruct (wcstombs _ _) as [text|]; [|simpl; auto].
  simpl. split; [reflexivity|]. split.
  - eexists. split; [|rewrite mluc_data_set_mluc_data;
                      destruct (decide (mluc = mluc)); [apply lookup_insert_eq|congruence]].
    apply decompose_locale_key_canonical, cd_icc_get_locale_key_is_locale_key.
  - rewrite mluc_data_set_mluc_data. destruct (decide (mluc = mluc)); [|congruence].
    destruct s as [p c], p, mluc; reflexivity.
Qed.

Lemma substring_prefix_ne (key : string) (c : ascii) (n : nat) :
  g_strstr_len key c = Some n → String.substring 0 n key ≠ key.
Proof.
  intros Hn Heq. apply g_strstr_len_lt in Hn.
  assert (Hlen : String.length (String.substring 0 n key) = n)
    by (apply length_substring; lia).
  rewrite Heq in Hlen. lia.
Qed.

(** X10.  A text read from the profile for a locale with a country is
    cached under the language alone: after a successful read for ll_CC that
    went to the codec, the table has the text under ll and still nothing
    under ll_CC, so a later read for ll returns the text of ll_CC from the
    cache. *)
Theorem localized_text_cached_under_language (mluc : CdIccMluc)
    (locale : option string) (s : State) (n : nat) (text : string) :
  let key := cd_icc_get_locale_key locale in
  let language := String.substring 0 n key in
  let r := cd_icc_get_text mluc locale s in
  g_strstr_len key "_" = Some n →
  mluc_data (priv s) mluc !! key = None →
  r.1 = (Some text, None) →
  mluc_data (priv r.2) mluc = <[language := text]> (mluc_data (priv s) mluc)
  ∧ mluc_data (priv r.2) mluc !! key = None
  ∧ cd_icc_get_text mluc (Some language) r.2 = (Some text, None, r.2).
Proof.
  cbv zeta. intros Hn Hmiss.
  rewrite (cd_icc_get_text_signatures mluc locale), cd_icc_get_mluc_data_run. cbv zeta.
  rewrite Hmiss, (decompose_locale_key_underscore _ _ Hn). simpl.
  assert (Hne : cd_icc_get_locale_key locale ≠ "").
  { intros Heq. rewrite Heq in Hn. discriminate. }
  rewrite (bool_decide_true _ Hne). simpl.
  destruct (Nat.eqb_spec (String.length
              (String.substring 0 n (cd_icc_get_locale_key locale))) 2) as [Hlen|];
    [simpl|discriminate].
  destruct (_ && _); [discriminate|].
  destruct (from_option _ _ _) as [mlu|]; [|discriminate].
  destruct (_ =? 0); [discriminate|].
  destruct (wcstombs _ _) as [text'|]; [|discriminate].
  simpl. intros [= ->].
  rewrite mluc_data_set_mluc_data. destruct (decide (mluc = mluc)); [|congruence].
  split; [reflexivity|]. split.
  - rewrite lookup_insert_ne by (apply (substring_prefix_ne _ _ _ Hn)). exact Hmiss.
  - rewrite cd_icc_get_text_signatures, cd_icc_get_mluc_data_run. cbv zeta.
    rewrite language_is_locale_key;
      [|exact Hlen|apply is_locale_key_substring, cd_icc_get_locale_key_is_locale_key].
    cbn [priv]. rewrite mluc_data_set_mluc_data.
    destruct (decide (mluc = mluc)); [|congruence].
    rewrite lookup_insert_eq. reflexivity.
Qed.

(** X11.  A locale that is not in the cache and whose key is not of the form
    ll, ll_ or ll_CC is refused before the profile is looked at: the first
    '_' of the key is not at offset 2, or what follows it is neither empty
    nor two characters long, or there is no '_' and the key is not two
    characters long.  The read returns no text and an InvalidLocale error
    that quotes the locale as the caller gave it, and changes nothing. *)
Theorem invalid_locale_rejected (mluc : CdIccMluc) (locale : string) (s : State) :
  let key := cd_icc_get_locale_key (Some locale) in
  mluc_data (priv s) mluc !! key = None →
  key ≠ "" →
  match g_strstr_len key "_" with
  | None => String.length key ≠ 2%nat
  | Some n => n ≠ 2%nat
              ∨ (String.length key ≠ (n + 1)%nat ∧ String.length key ≠ (n + 3)%nat)
  end →
  cd_icc_get_text mluc (Some locale) s
  = (None, Some {| code := CD_ICC_ERROR_INVALID_LOCALE;
                   format := "invalid locale: %s";
                   args := [ArgS locale] |}, s).
Proof.
  cbv zeta. intros Hmiss Hne Hbad.
  rewrite cd_icc_get_text_signatures, cd_icc_get_mluc_data_run. cbv zeta.
  rewrite Hmiss. cbv iota.
  destruct (g_strstr_len (cd_icc_get_locale_key (Some locale)) "_") as [n|] eqn:Hn.
  - pose proof (g_strstr_len_lt _ _ _ Hn) as Hlt.
    rewrite (decompose_locale_key_underscore _ _ Hn). cbn [fst snd].
    rewrite (bool_decide_true _ Hne). cbn [andb].
    rewrite !length_substring by lia.
    destruct (Nat.eqb_spec n 2) as [->|Hn2]; [cbn [negb]|reflexivity].
    destruct Hbad as [?|[H1 H3]]; [congruence|].
    rewrite bool_decide_true.
    + destruct (Nat.eqb_spec (String.length (cd_icc_get_locale_key (Some locale)) - 3) 2);
        [lia|reflexivity].
    + intros Hempty.
      assert (Hlen : String.length
                (String.substring 3 (String.length (cd_icc_get_locale_key (Some locale)) - 3)
                   (cd_icc_get_locale_key (Some locale))) = 0%nat)
        by (rewrite Hempty; reflexivity).
      rewrite length_substring in Hlen by lia. lia.
  - rewrite (decompose_locale_key_plain _ Hn). cbn [fst snd].
    rewrite (bool_decide_true _ Hne). cbn [andb].
    destruct (Nat.eqb_spec (String.length (cd_icc_get_locale_key (Some locale))) 2);
      [contradiction|reflexivity].
Qed.

(** A read for the default locale that goes to the profile. *)
Lemma cd_icc_get_mluc_data_default (mluc : CdIccMluc) (sigs : list Z) (s : State)
    (h : cmsHPROFILE) (mlu : cmsMLU) (text : string) :
  lcms_profile (priv s) = Some h →
  mluc_data (priv s) mluc !! "" = None →
  read_first_mlu h sigs = Some mlu →
  (cmsMLUgetWide mlu cmsNoLanguage cmsNoCountry 128).1 ≠ 0 →
  wcstombs (cmsMLUgetWide mlu cmsNoLanguage cmsNoCountry 128).2 128 = Some text →
  cd_icc_get_mluc_data None mluc sigs s
  = (Some text, None,
     {| priv := set_mluc_data mluc (<["" := text]> (mluc_data (priv s) mluc)) (priv s);
        calls := calls s |}).
Proof.
  intros Hh Hmiss Hmlu Hsize Htext.
  rewrite cd_icc_get_mluc_data_run. cbv zeta.
  change (cd_icc_get_locale_key None) with "".
  rewrite Hmiss. simpl. rewrite Hh. simpl. rewrite Hmlu.
  destruct (Z.eqb_spec (cmsMLUgetWide mlu cmsNoLanguage cmsNoCountry 128).1 0);
    [contradiction|].
  rewrite Htext. reflexivity.
Qed.

(** X12.  The description is read from the 'dscm' tag when the profile has
    one and from the 'desc' tag otherwise: for the default locale, the text
    returned and cached is the text of the first of the two that is there,
    also when both are. *)
Theorem description_prefers_dscm (s : State) (h : cmsHPROFILE) (mlu : cmsMLU)
    (text : string) :
  lcms_profile (priv s) = Some h →
  mluc_data (priv s) CD_MLUC_DESCRIPTION !! "" = None →
  match cmsReadTag_mlu h 0x6473636d with
  | Some dscm => Some dscm
  | None => cmsReadTag_mlu h cmsSigProfileDescriptionTag
  end = Some mlu →
  (cmsMLUgetWide mlu cmsNoLanguage cmsNoCountry 128).1 ≠ 0 →
  wcstombs (cmsMLUgetWide mlu cmsNoLanguage cmsNoCountry 128).2 128 = Some text →
  cd_icc_get_description None s
  = (Some text, None,
     {| priv := set_mluc_data CD_MLUC_DESCRIPTION
                  (<["" := text]> (mluc_data (priv s) CD_MLUC_DESCRIPTION)) (priv s);
        calls := calls s |}).
Proof.
  intros Hh Hmiss Hmlu Hsize Htext.
  apply (cd_icc_get_mluc_data_default _ _ s h mlu text Hh Hmiss); [|exact Hsize|exact Htext].
  simpl. destruct (cmsReadTag_mlu h 0x6473636d); [exact Hmlu|].
  destruct (cmsReadTag_mlu h cmsSigProfileDescriptionTag); exact Hmlu.
Qed.

(** X13.  A read for the default locale of a field that is not cached and
    for which the profile has none of the field's tags returns no text and
    a NoData error, and changes nothing. *)
Theorem missing_tag_is_no_data (mluc : CdIccMluc) (s : State) (h : cmsHPROFILE) :
  lcms_profile (priv s) = Some h →
  mluc_data (priv s) mluc !! "" = None →
  (∀ sig, sig ∈ tag_signatures mluc → cmsReadTag_mlu h sig = None) →
  cd_icc_get_text mluc None s
  = (None, Some {| code := CD_ICC_ERROR_NO_DATA;
                   format := "cmsSigProfile*Tag mising";
                   args := [] |}, s).
Proof.
  intros Hh Hmiss Hnone.
  rewrite cd_icc_get_text_signatures, cd_icc_get_mluc_data_run. cbv zeta.
  change (cd_icc_get_locale_key None) with "".
  rewrite Hmiss. simpl. rewrite Hh. simpl.
  assert (Hfirst : read_first_mlu h (tag_signatures mluc) = None).
  { induction (tag_signatures mluc) as [|sig sigs IH]; [reflexivity|]. simpl.
    rewrite Hnone by left. apply IH. intros sig' Hin. apply Hnone. right. exact Hin. }
  rewrite Hfirst. reflexivity.
Qed.

End Text.

(** ** The save pipeline *)

Section SavePipeline.

Context `{cms : Lcms} `{os : Platform}.

(** X14.  A save changes nothing in the object but the codec handle: kind,
    colour space, version, metadata, the four text tables, the named
    colours, the checksum, the size, the file name and the can-delete flag
    are as before.  In particular the version of the object stays below 4.0
    when the save has raised the version of the profile to 4.0. *)
Theorem save_changes_only_the_handle (file : GFile) (s : State) :
  let r := cd_icc_save_file file s in
  priv r.2 = set_lcms_profile (lcms_profile (priv r.2)) (priv s).
Proof.
  cbv zeta.
  assert (H : set_lcms_profile None (priv (cd_icc_save_file file s).2)
              = set_lcms_profile None (priv s)).
  { exact (stable_cd_icc_save_file
             (λ s', set_lcms_profile None (priv s') = set_lcms_profile None (priv s))
             file (λ _ _ Hs, Hs) (λ _ _ Hs, Hs) s eq_refl). }
  destruct (priv (cd_icc_save_file file s).2), (priv s).
  unfold set_lcms_profile in *. simpl in *.
  injection H; intros; subst; reflexivity.
Qed.







End SavePipeline.

Section TagWriting.

Context `{cms : Lcms} `{os : Platform}.

(** [cd_util_write_tag_localized] when there is something to write. *)
Lemma cd_util_write_tag_localized_run (sig : Z) (hash : gmap string string)
    (s : State) (h : cmsHPROFILE) :
  lcms_profile (priv s) = Some h →
  mlu_objects hash ≠ [] →
  let array := mlu_objects hash in
  let promote := (1 <? length array)%nat && PrimFloat.ltb (version (priv s)) 4%float in
  let h1 := if promote then cmsSetProfileVersion h 4%float else h in
  let calls1 := calls s ++ (if promote then [Call_cmsSetProfileVersion 4%float] else []) in
  cd_util_write_tag_localized sig hash s
  = match mlu_set_all (cmsMLUalloc (length array)) array with
    | None =>
        (false, Some (g_set_error_literal CD_ICC_ERROR_FAILED_TO_SAVE
                        "cannot write MLU text"),
         {| priv := set_lcms_profile (Some h1) (priv s); calls := calls1 |})
    | Some mlu =>
        let w := cmsWriteTag h1 sig (Some (TagMLU mlu)) in
        let calls2 := calls1 ++ [Call_cmsWriteTag sig (Some (TagMLU mlu))] in
        if negb w.1
        then (false, Some {| code := CD_ICC_ERROR_FAILED_TO_SAVE;
                             format := "cannot write tag: 0x%x";
                             args := [ArgI sig] |},
              {| priv := set_lcms_profile (Some w.2) (priv s); calls := calls2 |})
        else if sig =? cmsSigProfileDescriptionTag
        then (true, None,
              {| priv := set_lcms_profile
                           (Some (cmsWriteTag w.2 0x6473636d None).2) (priv s);
                 calls := calls2 ++ [Call_cmsWriteTag 0x6473636d None] |})
        else (true, None,
              {| priv := set_lcms_profile (Some w.2) (priv s); calls := calls2 |})
    end.
Proof.
  intros Hh Hsome. cbv zeta. unfold cd_util_write_tag_localized.
  rewrite run_bind. simpl.
  destruct (mlu_objects hash) as [|obj array] eqn:Harray; [congruence|].
  cbn [length Nat.eqb]. rewrite run_bind.
  set (promote := (1 <? S (length array))%nat && PrimFloat.ltb (version (priv s)) 4%float).
  set (h1 := if promote then cmsSetProfileVersion h 4%float else h).
  set (calls1 := calls s ++ (if promote then [Call_cmsSetProfileVersion 4%float] else [])).
  assert (Hs1 : (if promote
                 then lcms_set (Call_cmsSetProfileVersion 4%float)
                        (λ h, cmsSetProfileVersion h 4%float)
                 else mret tt) s
                = (tt, {| priv := set_lcms_profile (Some h1) (priv s); calls := calls1 |})).
  { unfold h1, calls1. destruct promote.
    - exact (lcms_set_run (Call_cmsSetProfileVersion 4%float)
               (λ h, cmsSetProfileVersion h 4%float) s h Hh).
    - rewrite app_nil_r, <- Hh, set_lcms_profile_same, state_eta. reflexivity. }
  rewrite Hs1. cbn [fst snd].
  destruct (mlu_set_all _ _) as [mlu|]; [|reflexivity].
  rewrite run_bind.
  rewrite (lcms_do_run _ _ _ h1) by reflexivity. cbn [fst snd].
  destruct (cmsWriteTag h1 sig (Some (TagMLU mlu))) as [ret h2]. cbn [fst snd].
  destruct ret; [|reflexivity]. cbn [negb].
  rewrite run_bind.
  destruct (sig =? cmsSigProfileDescriptionTag); [|reflexivity].
  rewrite run_bind.
  rewrite (lcms_do_run _ _ _ h2) by reflexivity. reflexivity.
Qed.

(** X16.  When a field's tag is written, the new tag is the last thing
    written for every field but the description: a successful write of the
    description is followed by the deletion of the 'dscm' tag, whose result
    is not looked at.  Before the tag, at most the version is set. *)
Theorem description_write_deletes_dscm (sig : Z) (hash : gmap string string)
    (s : State) (h : cmsHPROFILE) :
  lcms_profile (priv s) = Some h →
  mlu_objects hash ≠ [] →
  let r := cd_util_write_tag_localized sig hash s in
  r.1.1 = true →
  ∃ pre mlu,
    (pre = [] ∨ pre = [Call_cmsSetProfileVersion 4%float])
    ∧ mlu_set_all (cmsMLUalloc (length (mlu_objects hash))) (mlu_objects hash) = Some mlu
    ∧ calls r.2
      = calls s ++ pre
        ++ Call_cmsWriteTag sig (Some (TagMLU mlu))
           :: (if sig =? cmsSigProfileDescriptionTag
               then [Call_cmsWriteTag 0x6473636d None] else []).
Proof.
  intros Hh Hsome. cbv zeta.
  rewrite (cd_util_write_tag_localized_run sig hash s h Hh Hsome). cbv zeta.
  set (promote := (_ && _)).
  destruct (mlu_set_all _ _) as [mlu|]; [|discriminate].
  destruct (cmsWriteTag _ sig _) as [ret h2]. cbn [fst snd negb].
  destruct ret; [|discriminate]. cbn [negb].
  intros _. exists (if promote then [Call_cmsSetProfileVersion 4%float] else []), mlu.
  split; [destruct promote; auto|]. split; [reflexivity|].
  destruct (sig =? cmsSigProfileDescriptionTag); simpl;
    rewrite <- !app_assoc; reflexivity.
Qed.

Lemma mlu_set_all_null_text (array : list CdMluObject) (obj : CdMluObject)
    (mlu : cmsMLU) :
  (∀ m language country, (cmsMLUsetWide m language country None).1 = false) →
  obj ∈ array → wtext obj = None →
  mlu_set_all mlu array = None.
Proof.
  intros Hnull Hin Htext. revert mlu.
  induction array as [|o array IH]; intros mlu; [apply elem_of_nil in Hin; contradiction|].
  cbn [mlu_set_all].
  destruct (cmsMLUsetWide mlu _ _ (wtext o)) as [ret mlu'] eqn:Hset.
  apply elem_of_cons in Hin as [<-|Hin].
  - rewrite Htext in Hset. specialize (Hnull mlu (default cmsNoLanguage (language_code obj))
                                         (default cmsNoCountry (country_code obj))).
    rewrite Hset in Hnull. simpl in Hnull. subst ret. reflexivity.
  - destruct ret; [apply IH, Hin | reflexivity].
Qed.

(** X17.  A default text that cannot be transcoded is not left out: its
    record is handed to the codec with a NULL text.  With a codec that
    refuses a NULL text, the write of the field fails with FailedToSave and
    writes no tag. *)
Theorem untranscodable_default_text_fails (sig : Z) (hash : gmap string string)
    (text : string) (s : State) (h : cmsHPROFILE) :
  lcms_profile (priv s) = Some h →
  (∀ m language country, (cmsMLUsetWide m language country None).1 = false) →
  hash !! "" = Some text →
  mbstowcs text = None →
  let r := cd_util_write_tag_localized sig hash s in
  {| language_code := None; country_code := None; wtext := None |} ∈ mlu_objects hash
  ∧ r.1 = (false, Some {| code := CD_ICC_ERROR_FAILED_TO_SAVE;
                          format := "cannot write MLU text";
                          args := [] |})
  ∧ written_tags (calls r.2) = written_tags (calls s).
Proof.
  intros Hh Hnull Hdefault Htext. cbv zeta.
  assert (Hin : {| language_code := None; country_code := None; wtext := None |}
                ∈ mlu_objects hash).
  { unfold mlu_objects. apply list_elem_of_omap. exists ("", text).
    split; [apply elem_of_map_to_list, Hdefault|].
    simpl. unfold utf8_to_wchar_t. rewrite Htext. reflexivity. }
  split; [exact Hin|].
  assert (Hsome : mlu_objects hash ≠ []).
  { intros Hnil. rewrite Hnil in Hin. apply elem_of_nil in Hin. contradiction. }
  rewrite (cd_util_write_tag_localized_run sig hash s h Hh Hsome). cbv zeta.
  rewrite (mlu_set_all_null_text _ _ _ Hnull Hin eq_refl). cbn [fst snd].
  split; [reflexivity|].
  cbn [snd calls]. unfold written_tags. rewrite omap_app.
  destruct (_ && _); simpl; rewrite app_nil_r; reflexivity.
Qed.

(** X18.  Every record that [cd_util_mlu_object_parse] makes is well formed,
    as the comment on [CdMluObject] says: a language and a country that are
    there have two characters, there is no country without a language, and
    a record for a locale that is not the default has the wide text of the
    text it was given. *)
Theorem mlu_object_codes_have_two_characters (locale : option string)
    (utf8_text : string) (obj : CdMluObject) :
  cd_util_mlu_object_parse locale utf8_text = Some obj →
  well_formed_record obj
  ∧ wtext obj = mbstowcs utf8_text
  ∧ (language_code obj = None ↔ locale = None ∨ locale = Some "").
Proof.
  unfold cd_util_mlu_object_parse, well_formed_record, utf8_to_wchar_t.
  destruct locale as [[|c locale]|].
  - intros [= <-]. simpl. destruct (mbstowcs utf8_text); intuition.
  - case_bool_decide; [discriminate|].
    destruct (g_strsplit _ _) as [|split_0 rest] eqn:Hsplit; [discriminate|].
    destruct (Nat.eqb_spec (String.length split_0) 2) as [Hlen|]; [|discriminate].
    cbn [negb]. destruct (2 <? length (split_0 :: rest))%nat; [discriminate|].
    destruct (mbstowcs utf8_text) as [w|]; [|discriminate].
    destruct (length (split_0 :: rest) =? 1)%nat.
    + intros [= <-]. simpl. intuition congruence.
    + destruct (Nat.eqb_spec (String.length (default "" ((split_0 :: rest) !! 1%nat))) 2)
        as [Hlen1|]; [|discriminate].
      intros [= <-]. simpl. intuition congruence.
  - intros [= <-]. simpl. destruct (mbstowcs utf8_text); intuition.
Qed.

End TagWriting.

Section SaveOrder.

Context `{cms : Lcms} `{os : Platform}.

Lemma has_handle_lcms_set (c : Call) (f : cmsHPROFILE → cmsHPROFILE) :
  stable has_handle (lcms_set c f).
Proof.
  intros s Hs. unfold has_handle in *.
  destruct (lcms_profile (priv s)) as [h|] eqn:Hh; [|contradiction].
  rewrite (lcms_set_run c f s h Hh). discriminate.
Qed.




Lemma has_handle_header (p : CdIccPrivate) :
  stable has_handle
    (match find (λ e, bool_decide (e.2 = kind p)) map_profile_kind with
     | Some e => lcms_set (Call_cmsSetDeviceClass e.1) (λ h, cmsSetDeviceClass h e.1)
     | None => mret tt
     end;;
     match find (λ e, bool_decide (e.2 = colorspace p)) map_colorspace with
     | Some e => lcms_set (Call_cmsSetColorSpace e.1) (λ h, cmsSetColorSpace h e.1)
     | None => mret tt
     end;;
     if PrimFloat.ltb 0%float (version p)
     then lcms_set (Call_cmsSetProfileVersion (version p))
                   (λ h, cmsSetProfileVersion h (version p))
     else mret tt).
Proof.
  apply stable_bind.
  { destruct (find _ _); [apply has_handle_lcms_set | apply stable_ret]. }
  intros ?. apply stable_bind.
  { destruct (find _ _); [apply has_handle_lcms_set | apply stable_ret]. }
  intros ?. destruct (PrimFloat.ltb _ _); [apply has_handle_lcms_set | apply stable_ret].
Qed.


Lemma metadata_deleted_tolerates (s0 : State) :
  tolerates_calls (metadata_deleted s0) ∧ ∀ f, tolerates (metadata_deleted s0) f.
Proof.
  split.
  - intros s c (pre & post & Hcalls & Hall). exists pre, (post ++ [c]). simpl.
    rewrite Hcalls. rewrite <- !app_assoc. simpl. auto.
  - intros f s Hs. exact Hs.
Qed.

(** X20.  With an empty metadata table the save deletes the metadata tag,
    right after the header fields are set, and does not look at the result
    of the deletion: the save goes on, and never fails with the error of
    the metadata step. *)
Theorem empty_metadata_deletes_the_tag (file : GFile) (s : State) :
  let r := cd_icc_save_file file s in
  lcms_profile (priv s) ≠ None →
  metadata (priv s) = ∅ →
  metadata_deleted s r.2
  ∧ r.1.2 ≠ Some (failed_to_save "cannot write metadata").
Proof.
  cbv zeta. intros Hh Hempty.
  assert (Hstart : before_metadata s s).
  { split; [exact Hh|]. split; [reflexivity|]. exists []. rewrite app_nil_r. auto. }
  assert (Hgoal : hoare (before_metadata s) (cd_icc_save_file file)
            (λ r s', metadata_deleted s s'
                     ∧ r.2 ≠ Some (failed_to_save "cannot write metadata"))).
  { clear Hstart. destruct (metadata_deleted_tolerates s) as [Hc Hp].
    unfold cd_icc_save_file.
    eapply hoare_bind; [apply hoare_stable; apply stable_get | ]; intros p.
    eapply hoare_bind.
    { apply hoare_stable.
      destruct (find _ _); [apply stable_header_call; exact I | apply stable_ret]. }
    intros ?. eapply hoare_bind.
    { apply hoare_stable.
      destruct (find _ _); [apply stable_header_call; exact I | apply stable_ret]. }
    intros ?. eapply hoare_bind.
    { apply hoare_stable.
      destruct (PrimFloat.ltb _ _); [apply stable_header_call; exact I | apply stable_ret]. }
    intros ?.
    intros s1 (Hh1 & Hm1 & pre & Hpre & Hall).
    destruct (lcms_profile (priv s1)) as [h1|] eqn:Hs1; [|contradiction].
    assert (Hmeta : save_metadata s1
                    = (true, None,
                       {| priv := set_lcms_profile
                                    (Some (cmsWriteTag h1 cmsSigMetaTag None).2) (priv s1);
                          calls := calls s1 ++ [Call_cmsWriteTag cmsSigMetaTag None] |})).
    { unfold save_metadata. rewrite run_bind. cbn [get fst snd].
      rewrite Hm1, Hempty. unfold g_hash_table_size. rewrite map_size_empty.
      cbn [Nat.eqb negb]. rewrite run_bind.
      rewrite (lcms_do_run _ _ s1 h1 Hs1). reflexivity. }
    set (s2 := {| priv := set_lcms_profile (Some (cmsWriteTag h1 cmsSigMetaTag None).2)
                            (priv s1);
                  calls := calls s1 ++ [Call_cmsWriteTag cmsSigMetaTag None] |}) in *.
    match goal with
    | |- context [or_out save_metadata ?rest s1] =>
        assert (Hrun : or_out save_metadata rest s1 = rest s2)
          by (unfold or_out at 1; rewrite run_bind, Hmeta; reflexivity);
        rewrite Hrun; clear Hrun
    end.
    assert (Hs2 : metadata_deleted s s2).
    { exists pre, []. unfold s2. simpl. rewrite Hpre, <- app_assoc. auto. }
    clear Hmeta. clearbody s2. split.
    - revert s2 Hs2.
      do 4 (apply stable_or_out; [apply stable_cd_util_write_tag_localized; auto|]).
      apply stable_save_profile_to_file; auto.
    - clear Hs2. generalize s2. clear.
      assert (Hw : ∀ sig hash s,
                (cd_util_write_tag_localized sig hash s).1.2
                ≠ Some (failed_to_save "cannot write metadata")).
      { intros sig hash s. unfold cd_util_write_tag_localized. rewrite run_bind. simpl.
        destruct (_ =? _)%nat; [rewrite run_bind; discriminate|].
        rewrite run_bind.
        destruct (mlu_set_all _ _) as [mlu|]; [|discriminate].
        rewrite run_bind.
        destruct (lcms_do _ _ _).1; simpl; [|discriminate].
        rewrite run_bind. discriminate. }
      assert (Hf : ∀ s, (save_profile_to_file file s).1.2
                        ≠ Some (failed_to_save "cannot write metadata")).
      { intros s. unfold save_profile_to_file. rewrite run_bind.
        destruct (lcms_do _ _ _).1; simpl; [|discriminate].
        rewrite !run_bind. simpl.
        destruct (from_option _ _ _) as [[n x]|]; [|discriminate].
        rewrite !run_bind. simpl.
        destruct (from_option _ _ _) as [[n' data]|]; [|discriminate].
        rewrite run_bind. simpl.
        destruct (g_file_replace_contents file data); discriminate. }
      assert (Hor : ∀ step rest : M (bool * option GError),
                (∀ s, (step s).1.2 ≠ Some (failed_to_save "cannot write metadata")) →
                (∀ s, (rest s).1.2 ≠ Some (failed_to_save "cannot write metadata")) →
                ∀ s, (or_out step rest s).1.2
                     ≠ Some (failed_to_save "cannot write metadata")).
      { intros step rest Hstep Hrest s. unfold or_out. rewrite run_bind.
        specialize (Hstep s). destruct (step s).1.1; [apply Hrest | exact Hstep]. }
      do 4 (apply Hor; [apply Hw|]). apply Hf. }
  exact (Hgoal s Hstart).
Qed.

End SaveOrder.

(** ** What a load reads from the profile *)

Section LoadFields.

Context `{cms : Lcms} `{os : Platform}.

Ltac tol := intros ? ?; simpl in *; intuition congruence.

Ltac frame_step :=
  first [ apply stable_lcms_read
        | apply stable_get
        | apply stable_ret
        | apply stable_modify; tol
        | apply stable_cd_icc_get_mluc_data; intros ?; tol
        | apply stable_cd_icc_load_named_colors; intros ?; tol ].

Ltac frame :=
  repeat first
    [ frame_step
    | apply stable_bind; [|intros ?]
    | match goal with
      | |- stable _ (match ?x with _ => _ end) => destruct x
      end ].

Lemma hoare_lcms_read {A : Type} (I : State → Prop) (dflt : A)
    (f : cmsHPROFILE → A) (h : cmsHPROFILE) :
  (∀ s, I s → lcms_profile (priv s) = Some h) →
  hoare I (lcms_read dflt f) (λ x s, I s ∧ x = f h).
Proof.
  intros Hh s Hs. unfold lcms_read. rewrite run_bind. simpl.
  rewrite (Hh s Hs). auto.
Qed.

Lemma find_by_key {A : Type} (l : list (Z * A)) (c : Z) (x : A) :
  NoDup l.*1 → (c, x) ∈ l → find (λ e, e.1 =? c) l = Some (c, x).
Proof.
  induction l as [|[c' x'] l IH]; intros Hnd Hin; [apply elem_of_nil in Hin; contradiction|].
  apply NoDup_cons in Hnd as [Hc' Hnd]. simpl.
  apply elem_of_cons in Hin as [[= <- <-]|Hin].
  - rewrite Z.eqb_refl. reflexivity.
  - destruct (Z.eqb_spec c' c) as [->|_]; [|apply IH; assumption].
    exfalso. apply Hc'. apply list_elem_of_fmap. exists (c, x). auto.
Qed.

Lemma find_by_key_none {A : Type} (l : list (Z * A)) (c : Z) :
  (∀ x, (c, x) ∉ l) → find (λ e, e.1 =? c) l = None.
Proof.
  induction l as [|[c' x'] l IH]; intros Hnot; [reflexivity|]. simpl.
  destruct (Z.eqb_spec c' c) as [->|_].
  - exfalso. apply (Hnot x'). left.
  - apply IH. intros x Hin. apply (Hnot x). right. exact Hin.
Qed.

Lemma find_by_value {A : Type} `{EqDecision A} (l : list (Z * A)) (c : Z) (x : A) :
  NoDup l.*2 → (c, x) ∈ l → find (λ e, bool_decide (e.2 = x)) l = Some (c, x).
Proof.
  induction l as [|[c' x'] l IH]; intros Hnd Hin; [apply elem_of_nil in Hin; contradiction|].
  apply NoDup_cons in Hnd as [Hx' Hnd]. simpl.
  apply elem_of_cons in Hin as [[= <- <-]|Hin].
  - rewrite bool_decide_true by reflexivity. reflexivity.
  - case_bool_decide as Heq; [|apply IH; assumption].
    exfalso. apply Hx'. apply list_elem_of_fmap. exists (c, x). auto.
Qed.

Lemma map_profile_kind_NoDup : NoDup map_profile_kind.*1 ∧ NoDup map_profile_kind.*2.
Proof. split; apply (bool_decide_unpack (NoDup _)); vm_compute; exact I. Qed.

Lemma map_colorspace_NoDup : NoDup map_colorspace.*1 ∧ NoDup map_colorspace.*2.
Proof. split; apply (bool_decide_unpack (NoDup _)); vm_compute; exact I. Qed.

(** The header fields after [cd_icc_load]. *)
Lemma cd_icc_load_header (flags : Z) (h : cmsHPROFILE) (s : State) :
  lcms_profile (priv s) = Some h →
  let p := priv (cd_icc_load flags s).2 in
  version p = cmsGetProfileVersion h
  ∧ kind p = match find (λ e, e.1 =? cmsGetDeviceClass h) map_profile_kind with
             | Some e => e.2
             | None => kind (priv s)
             end
  ∧ colorspace p = match find (λ e, e.1 =? cmsGetColorSpace h) map_colorspace with
                   | Some e => e.2
                   | None => colorspace (priv s)
                   end.
Proof.
  intros Hh. cbv zeta.
  set (K := match find (λ e, e.1 =? cmsGetDeviceClass h) map_profile_kind with
            | Some e => e.2
            | None => kind (priv s)
            end).
  set (C := match find (λ e, e.1 =? cmsGetColorSpace h) map_colorspace with
            | Some e => e.2
            | None => colorspace (priv s)
            end).
  assert (Hgoal : hoare (λ s', lcms_profile (priv s') = Some h
                               ∧ kind (priv s') = kind (priv s)
                               ∧ colorspace (priv s') = colorspace (priv s))
                    (cd_icc_load flags)
                    (λ _ s', version (priv s') = cmsGetProfileVersion h
                             ∧ kind (priv s') = K ∧ colorspace (priv s') = C)).
  { unfold cd_icc_load.
    eapply hoare_bind; [apply (hoare_lcms_read _ _ _ h); intros ? [? _]; assumption|]. intros v.
    eapply (hoare_bind _ (λ _ s', lcms_profile (priv s') = Some h
                                  ∧ kind (priv s') = kind (priv s)
                                  ∧ colorspace (priv s') = colorspace (priv s)
                                  ∧ version (priv s') = cmsGetProfileVersion h)).
    { intros s' [Hs' ->]. simpl. tauto. }
    intros _.
    eapply hoare_bind; [apply (hoare_lcms_read _ _ _ h); intros ? [? _]; assumption|]. intros profile_class.
    eapply (hoare_bind _ (λ _ s', lcms_profile (priv s') = Some h
                                  ∧ kind (priv s') = K
                                  ∧ colorspace (priv s') = colorspace (priv s)
                                  ∧ version (priv s') = cmsGetProfileVersion h)).
    { intros s' [Hs' ->]. unfold K.
      destruct (find (λ e, e.1 =? cmsGetDeviceClass h) map_profile_kind); simpl; tauto. }
    intros _.
    eapply hoare_bind; [apply (hoare_lcms_read _ _ _ h); intros ? [? _]; assumption|]. intros cs.
    eapply (hoare_bind _ (λ _ s', version (priv s') = cmsGetProfileVersion h
                                  ∧ kind (priv s') = K
                                  ∧ colorspace (priv s') = C)).
    { intros s' [Hs' ->]. unfold C.
      destruct (find (λ e, e.1 =? cmsGetColorSpace h) map_colorspace); simpl; tauto. }
    intros _. apply hoare_stable. frame. }
  apply (Hgoal s). auto.
Qed.



(** [cd_icc_load_data] when the codec opens the buffer. *)
Lemma cd_icc_load_data_run (data : list byte) (flags : Z) (s : State)
    (h : cmsHPROFILE) :
  lcms_profile (priv s) = None →
  (132 ≤ length data)%nat →
  cmsOpenProfileFromMem data (to_guint32 (Z.of_nat (length data))) = Some h →
  let s1 := {| priv := set_size (to_guint32 (Z.of_nat (length data)))
                         (set_lcms_profile (Some h) (priv s));
               calls := calls s ++ [Call_cmsOpenProfileFromMem data
                                      (to_guint32 (Z.of_nat (length data)))] |} in
  let s2 := (cd_icc_load flags s1).2 in
  cd_icc_load_data (Some data) flags s
  = (true, None,
     if bool_decide (checksum (priv s2) = None)
        && flag_set flags CD_ICC_LOAD_FLAGS_FALLBACK_MD5
     then {| priv := set_checksum (Some (g_compute_checksum_for_data data)) (priv s2);
             calls := calls s2 |}
     else s2).
Proof.
  intros Hh Hlen Hopen. cbv zeta. unfold cd_icc_load_data.
  rewrite run_bind. simpl.
  destruct (Z.eqb_spec (Z.of_nat (length data)) 0) as [?|_]; [lia|].
  rewrite Hh. rewrite bool_decide_false by (intros ?; congruence).
  destruct (Z.ltb_spec (Z.of_nat (length data)) 132) as [?|_]; [lia|].
  rewrite !run_bind. simpl. rewrite Hopen. simpl.
  rewrite !run_bind. simpl.
  destruct (_ && _); reflexivity.
Qed.

Lemma with_checksum_fields (b : bool) (v : option string) (s : State) :
  let s' := if b then {| priv := set_checksum v (priv s); calls := calls s |} else s in
  version (priv s') = version (priv s)
  ∧ kind (priv s') = kind (priv s)
  ∧ colorspace (priv s') = colorspace (priv s)
  ∧ metadata (priv s') = metadata (priv s)
  ∧ named_colors (priv s') = named_colors (priv s)
  ∧ lcms_profile (priv s') = lcms_profile (priv s)
  ∧ calls s' = calls s.
Proof. destruct b; simpl; auto 10. Qed.

Lemma load_maps_header_fields_aux (data : list byte) (flags : Z) (s : State)
    (h : cmsHPROFILE) :
  lcms_profile (priv s) = None →
  (132 ≤ length data)%nat →
  cmsOpenProfileFromMem data (to_guint32 (Z.of_nat (length data))) = Some h →
  let p := priv (cd_icc_load_data (Some data) flags s).2 in
  lcms_profile p = Some h
  ∧ kind p = match find (λ e, e.1 =? cmsGetDeviceClass h) map_profile_kind with
             | Some e => e.2
             | None => kind (priv s)
             end
  ∧ colorspace p = match find (λ e, e.1 =? cmsGetColorSpace h) map_colorspace with
                   | Some e => e.2
                   | None => colorspace (priv s)
                   end.
Proof.
  intros Hh Hlen Hopen. cbv zeta.
  destruct (cd_icc_load_data_opened data flags s h Hh Hlen Hopen) as (_ & Hhandle & _).
  split; [exact Hhandle|].
  rewrite (cd_icc_load_data_run data flags s h Hh Hlen Hopen). cbv zeta.
  set (s1 := {| priv := set_size _ _; calls := _ |}).
  destruct (cd_icc_load_header flags h s1 eq_refl) as (_ & Hk & Hc).
  destruct (with_checksum_fields
              (bool_decide (checksum (priv (cd_icc_load flags s1).2) = None)
               && flag_set flags CD_ICC_LOAD_FLAGS_FALLBACK_MD5)
              (Some (g_compute_checksum_for_data data)) (cd_icc_load flags s1).2)
    as (_ & Ek & Ec & _).
  cbn [snd]. rewrite Ek, Ec, Hk, Hc. auto.
Qed.

(** X21.  What a load from bytes reads from the header: the version is the
    one the codec reports; the kind and the colour space are the partners of
    the profile's device class and colour space in the two tables, and a
    class or a colour space that is in no table leaves the field as it
    was. *)
Theorem load_maps_header_fields (data : list byte) (flags : Z) (s : State)
    (h : cmsHPROFILE) :
  lcms_profile (priv s) = None →
  (132 ≤ length data)%nat →
  cmsOpenProfileFromMem data (to_guint32 (Z.of_nat (length data))) = Some h →
  let loaded := (cd_icc_load_data (Some data) flags s).2 in
  (cd_icc_get_version loaded).1 = cmsGetProfileVersion h
  ∧ (∀ k, (cmsGetDeviceClass h, k) ∈ map_profile_kind →
          (cd_icc_get_kind loaded).1 = k)
  ∧ ((∀ k, (cmsGetDeviceClass h, k) ∉ map_profile_kind) →
     (cd_icc_get_kind loaded).1 = kind (priv s))
  ∧ (∀ c, (cmsGetColorSpace h, c) ∈ map_colorspace →
          (cd_icc_get_colorspace loaded).1 = c)
  ∧ ((∀ c, (cmsGetColorSpace h, c) ∉ map_colorspace) →
     (cd_icc_get_colorspace loaded).1 = colorspace (priv s)).
Proof.
  intros Hh Hlen Hopen. cbv zeta.
  rewrite (cd_icc_load_data_run data flags s h Hh Hlen Hopen). cbv zeta.
  set (s1 := {| priv := set_size _ _; calls := _ |}).
  destruct (cd_icc_load_header flags h s1 eq_refl) as (Hv & Hk & Hc).
  destruct (with_checksum_fields
              (bool_decide (checksum (priv (cd_icc_load flags s1).2) = None)
               && flag_set flags CD_ICC_LOAD_FLAGS_FALLBACK_MD5)
              (Some (g_compute_checksum_for_data data)) (cd_icc_load flags s1).2)
    as (Ev & Ek & Ec & _).
  unfold cd_icc_get_version, cd_icc_get_kind, cd_icc_get_colorspace.
  rewrite !run_bind. cbn [get mret M_ret fst snd].
  rewrite Ev, Ek, Ec, Hv, Hk, Hc.
  destruct map_profile_kind_NoDup as [Hk1 _]. destruct map_colorspace_NoDup as [Hc1 _].
  split; [reflexivity|].
  split; [intros k Hin; rewrite (find_by_key _ _ _ Hk1 Hin); reflexivity|].
  split; [intros Hnot; rewrite (find_by_key_none _ _ Hnot); reflexivity|].
  split; [intros c Hin; rewrite (find_by_key _ _ _ Hc1 Hin); reflexivity|].
  intros Hnot; rewrite (find_by_key_none _ _ Hnot); reflexivity.
Qed.




Lemma load_named_colors_fold (nc2 : cmsNAMEDCOLORLIST) (l : list nat)
    (acc : list CdColorSwatch) :
  ∃ new,
    foldl (load_named_color nc2) acc l = acc ++ new
    ∧ (length new ≤ length l)%nat
    ∧ Forall (λ swatch, g_utf8_validate (swatch_name swatch) = true) new.
Proof.
  revert acc. induction l as [|j l IH]; intros acc.
  - exists []. rewrite app_nil_r. auto.
  - cbn [foldl]. unfold load_named_color at 2.
    destruct (cmsNamedColorInfo nc2 j) as [[[[name prefix] suffix] pcs]|].
    + destruct (g_utf8_validate (named_color_title name prefix suffix)) eqn:Hvalid.
      * destruct (IH (acc ++ [ {| swatch_name := named_color_title name prefix suffix;
                                  swatch_value := cmsLabEncoded2Float pcs |} ]))
          as (new & Hnew & Hlen & Hall).
        eexists (_ :: new). rewrite Hnew, <- app_assoc. simpl.
        split; [reflexivity|]. split; [lia|]. constructor; assumption.
      * rewrite cd_icc_fix_utf8_string_spec.
        destruct (g_utf8_validate (repaired (named_color_title name prefix suffix)))
          eqn:Hfixed.
        -- destruct (IH (acc ++ [ {| swatch_name :=
                                       repaired (named_color_title name prefix suffix);
                                     swatch_value := cmsLabEncoded2Float pcs |} ]))
             as (new & Hnew & Hlen & Hall).
           eexists (_ :: new). rewrite Hnew, <- app_assoc. simpl.
           split; [reflexivity|]. split; [lia|]. constructor; assumption.
        -- destruct (IH acc) as (new & Hnew & Hlen & Hall).
           exists new. simpl. auto with lia.
    + destruct (IH acc) as (new & Hnew & Hlen & Hall).
      exists new. simpl. auto with lia.
Qed.

(** X23.  Reading the named colours adds swatches to the end of the array
    and changes nothing else: at most one for each colour the profile
    lists, and each with a name that is valid UTF-8, as it was or after
    the repair.  A profile that has no named colours leaves the object as
    it was. *)
Theorem named_colors_are_valid_utf8 (s : State) (h : cmsHPROFILE) :
  lcms_profile (priv s) = Some h →
  let r := cd_icc_load_named_colors s in
  (cmsReadTag_ncl h cmsSigNamedColor2Type = None → r.2 = s)
  ∧ ∀ nc2, cmsReadTag_ncl h cmsSigNamedColor2Type = Some nc2 →
      ∃ new,
        (cd_icc_get_named_colors r.2).1 = named_colors (priv s) ++ new
        ∧ (length new ≤ cmsNamedColorCount nc2)%nat
        ∧ Forall (λ swatch, g_utf8_validate (swatch_name swatch) = true) new
        ∧ r.2 = {| priv := set_named_colors (named_colors (priv s) ++ new) (priv s);
                   calls := calls s |}.
Proof.
  intros Hh. cbv zeta. unfold cd_icc_load_named_colors, lcms_read.
  rewrite !run_bind. simpl. rewrite Hh. simpl. split.
  - intros ->. reflexivity.
  - intros nc2 ->. simpl.
    destruct (load_named_colors_fold nc2 (seq 0 (cmsNamedColorCount nc2))
                (named_colors (priv s))) as (new & Hnew & Hlen & Hall).
    exists new. rewrite length_seq in Hlen. rewrite Hnew. auto.
Qed.


(** The default text of a field is in its cache after [cd_icc_load]. *)
Lemma cd_icc_load_default_text (flags : Z) (h : cmsHPROFILE) (s : State)
    (mluc : CdIccMluc) (mlu : cmsMLU) (text : string) :
  lcms_profile (priv s) = Some h →
  mluc_data (priv s) mluc !! "" = None →
  read_first_mlu h (tag_signatures mluc) = Some mlu →
  (cmsMLUgetWide mlu cmsNoLanguage cmsNoCountry 128).1 ≠ 0 →
  wcstombs (cmsMLUgetWide mlu cmsNoLanguage cmsNoCountry 128).2 128 = Some text →
  mluc_data (priv (cd_icc_load flags s).2) mluc !! "" = Some text.
Proof.
  intros Hh Hmiss Hmlu Hsize Htext.
  set (P0 := λ s' : State, lcms_profile (priv s') = Some h
                           ∧ mluc_data (priv s') mluc !! "" = None).
  set (P1 := λ s' : State, mluc_data (priv s') mluc !! "" = Some text).
  assert (Hread : ∀ sigs, sigs = tag_signatures mluc →
            hoare P0 (cd_icc_get_mluc_data None mluc sigs) (λ _, P1)).
  { intros sigs -> s' [Hs' Hm].
    rewrite (cd_icc_get_mluc_data_default _ _ s' h mlu text Hs' Hm Hmlu Hsize Htext).
    unfold P1. cbn [snd priv]. rewrite mluc_data_set_mluc_data.
    destruct (decide (mluc = mluc)); [apply lookup_insert_eq | congruence]. }
  assert (Hgoal : hoare P0 (cd_icc_load flags) (λ _, P1)).
  { unfold cd_icc_load.
    do 9 (eapply hoare_bind; [apply hoare_stable; unfold P0; destruct mluc; frame|];
          intros ?).
    destruct mluc.
    - eapply (hoare_bind _ (λ _, P1)); [apply Hread; reflexivity|]. intros ?.
      apply hoare_stable. unfold P1. frame.
    - eapply hoare_bind; [apply hoare_stable; unfold P0; frame|]; intros ?.
      eapply (hoare_bind _ (λ _, P1)); [apply Hread; reflexivity|]. intros ?.
      apply hoare_stable. unfold P1. frame.
    - do 2 (eapply hoare_bind; [apply hoare_stable; unfold P0; frame|]; intros ?).
      eapply (hoare_bind _ (λ _, P1)); [apply Hread; reflexivity|]. intros ?.
      apply hoare_stable. unfold P1. frame.
    - do 3 (eapply hoare_bind; [apply hoare_stable; unfold P0; frame|]; intros ?).
      eapply (hoare_bind _ (λ _, P1)); [apply Hread; reflexivity|]. intros ?.
      apply hoare_stable. unfold P1. frame. }
  apply (Hgoal s). split; assumption.
Qed.

(** X30.  A load reads the default text of each field: when the profile
    has a tag of the field with a default text that converts, the text is
    in the cache once the load from bytes has returned, and a read of the
    field for the default locale returns it and changes nothing. *)
Theorem load_caches_default_texts (data : list byte) (flags : Z) (s : State)
    (h : cmsHPROFILE) (mluc : CdIccMluc) (mlu : cmsMLU) (text : string) :
  lcms_profile (priv s) = None →
  (132 ≤ length data)%nat →
  cmsOpenProfileFromMem data (to_guint32 (Z.of_nat (length data))) = Some h →
  mluc_data (priv s) mluc !! "" = None →
  read_first_mlu h (tag_signatures mluc) = Some mlu →
  (cmsMLUgetWide mlu cmsNoLanguage cmsNoCountry 128).1 ≠ 0 →
  wcstombs (cmsMLUgetWide mlu cmsNoLanguage cmsNoCountry 128).2 128 = Some text →
  let loaded := (cd_icc_load_data (Some data) flags s).2 in
  cd_icc_get_text mluc None loaded = (Some text, None, loaded).
Proof.
  intros Hh Hlen Hopen Hmiss Hmlu Hsize Htext. cbv zeta.
  rewrite cd_icc_get_text_signatures, cd_icc_get_mluc_data_run. cbv zeta.
  change (cd_icc_get_locale_key None) with "".
  assert (Hcached : mluc_data (priv (cd_icc_load_data (Some data) flags s).2) mluc !! ""
                    = Some text).
  { rewrite (cd_icc_load_data_run data flags s h Hh Hlen Hopen). cbv zeta.
    set (s1 := {| priv := set_size _ _; calls := _ |}).
    assert (Hs1 : mluc_data (priv s1) mluc !! "" = None).
    { unfold s1. destruct mluc; exact Hmiss. }
    pose proof (cd_icc_load_default_text flags h s1 mluc mlu text eq_refl Hs1 Hmlu
                  Hsize Htext) as Hload.
    destruct (_ && _); [|exact Hload].
    cbn [snd priv]. destruct mluc; exact Hload. }
  rewrite Hcached. reflexivity.
Qed.

End LoadFields.

Section RoundTrip.

Context `{cms : Lcms} `{os : Platform}.

Lemma continues_with_tolerates (s0 : State) (first : list Call) :
  tolerates_calls (continues_with s0 first)
  ∧ ∀ f, tolerates (continues_with s0 first) f.
Proof.
  split.
  - intros s c [rest Hrest]. exists (rest ++ [c]). simpl.
    rewrite Hrest, <- !app_assoc. reflexivity.
  - intros f s Hs. exact Hs.
Qed.

(** The save begins by handing the device class and the colour space to the
    codec. *)
Lemma cd_icc_save_file_header_calls (file : GFile) (s : State) (h : cmsHPROFILE)
    (class space : Z) :
  lcms_profile (priv s) = Some h →
  (class, kind (priv s)) ∈ map_profile_kind →
  (space, colorspace (priv s)) ∈ map_colorspace →
  continues_with s [Call_cmsSetDeviceClass class; Call_cmsSetColorSpace space]
    (cd_icc_save_file file s).2.
Proof.
  intros Hh Hk Hc.
  destruct map_profile_kind_NoDup as [_ Hk2]. destruct map_colorspace_NoDup as [_ Hc2].
  destruct (continues_with_tolerates s
              [Call_cmsSetDeviceClass class; Call_cmsSetColorSpace space]) as [Htc Htp].
  unfold cd_icc_save_file. rewrite run_bind. cbn [get fst snd].
  rewrite (find_by_value _ _ _ Hk2 Hk), (find_by_value _ _ _ Hc2 Hc). cbn [fst snd].
  rewrite run_bind.
  rewrite (lcms_set_run (Call_cmsSetDeviceClass class)
             (λ h, cmsSetDeviceClass h class) s h Hh). cbn [fst snd].
  rewrite run_bind.
  rewrite (lcms_set_run (Call_cmsSetColorSpace space) (λ h, cmsSetColorSpace h space)
             {| priv := set_lcms_profile (Some (cmsSetDeviceClass h class)) (priv s);
                calls := calls s ++ [Call_cmsSetDeviceClass class] |}
             (cmsSetDeviceClass h class) eq_refl). cbn [fst snd].
  match goal with
  | |- continues_with _ _ (?m ?s2).2 =>
      assert (Hrest : stable (continues_with s
                [Call_cmsSetDeviceClass class; Call_cmsSetColorSpace space]) m)
  end.
  { apply stable_bind.
    { destruct (PrimFloat.ltb _ _); [apply stable_lcms_set; auto | apply stable_ret]. }
    intros ?.
    apply stable_or_out; [apply stable_save_metadata; auto|].
    do 4 (apply stable_or_out; [apply stable_cd_util_write_tag_localized; auto|]).
    apply stable_save_profile_to_file; auto. }
  apply Hrest. exists []. simpl. rewrite <- app_assoc. reflexivity.
Qed.

(** X24.  Load and save agree on the two tables: when a profile whose
    device class and colour space are in the tables is loaded from bytes
    and then saved, the save begins by handing the codec the same device
    class and colour space that the load read from the profile. *)
Theorem load_then_save_keeps_class_and_space (data : list byte) (flags : Z)
    (file : GFile) (s : State) (h : cmsHPROFILE) (k : CdProfileKind)
    (c : CdColorspace) :
  lcms_profile (priv s) = None →
  (132 ≤ length data)%nat →
  cmsOpenProfileFromMem data (to_guint32 (Z.of_nat (length data))) = Some h →
  (cmsGetDeviceClass h, k) ∈ map_profile_kind →
  (cmsGetColorSpace h, c) ∈ map_colorspace →
  let loaded := (cd_icc_load_data (Some data) flags s).2 in
  ∃ rest,
    calls (cd_icc_save_file file loaded).2
    = calls loaded ++ Call_cmsSetDeviceClass (cmsGetDeviceClass h)
                      :: Call_cmsSetColorSpace (cmsGetColorSpace h) :: rest.
Proof.
  intros Hh Hlen Hopen Hk Hc. cbv zeta.
  destruct (load_maps_header_fields_aux data flags s h Hh Hlen Hopen)
    as (Hhandle & Hkind & Hspace).
  destruct map_profile_kind_NoDup as [Hk1 _]. destruct map_colorspace_NoDup as [Hc1 _].
  rewrite (find_by_key _ _ _ Hk1 Hk) in Hkind.
  rewrite (find_by_key _ _ _ Hc1 Hc) in Hspace.
  simpl in Hkind, Hspace.
  destruct (cd_icc_save_file_header_calls file _ h (cmsGetDeviceClass h)
              (cmsGetColorSpace h) Hhandle) as [rest Hrest].
  - rewrite Hkind. exact Hk.
  - rewrite Hspace. exact Hc.
  - exists rest. exact Hrest.
Qed.

End RoundTrip.

(** ** Pure helpers *)

Section Helpers.

Context `{cms : Lcms} `{os : Platform}.

(** X25.  On a string without a 0x86 byte the repair is exact: every 0xAE
    byte becomes the two bytes 0xC2 0xAE, every other byte stays, and the
    result is the validity of the rewritten string.  A string with neither
    byte is left as it is. *)
Theorem fix_utf8_string_without_0x86 (string : list byte) :
  x86 ∉ string →
  cd_icc_fix_utf8_string string
  = (g_utf8_validate
       (flat_map (λ c, if Byte.eqb c xae then [xc2; xae] else [c]) string),
     flat_map (λ c, if Byte.eqb c xae then [xc2; xae] else [c]) string)
    ∧ (xae ∉ string → (cd_icc_fix_utf8_string string).2 = string).
Proof.
  intros H86. rewrite cd_icc_fix_utf8_string_spec.
  assert (Hrepaired : repaired string
            = flat_map (λ c, if Byte.eqb c xae then [xc2; xae] else [c]) string).
  { rewrite (repaired_without_0x86 _ H86). unfold repair_spec.
    induction string as [|c string IH]; [reflexivity|].
    apply not_elem_of_cons in H86 as [Hc Hs]. simpl. rewrite (IH Hs).
    destruct (Byte.eqb c xae); [reflexivity|].
    destruct (Byte.eqb c x86) eqn:E; [|reflexivity].
    apply byte_dec_bl in E. congruence. }
  rewrite Hrepaired. split; [reflexivity|].
  intros Hae. simpl. clear Hrepaired H86.
  induction string as [|c string IH]; [reflexivity|].
  apply not_elem_of_cons in Hae as [Hc Hs]. simpl. rewrite (IH Hs).
  destruct (Byte.eqb c xae) eqn:E; [|reflexivity].
  apply byte_dec_bl in E. congruence.
Qed.

Lemma prefix_before_delimiter (p s rest : string) (c : ascii) :
  ¬ In c (list_ascii_of_string p) →
  String.prefix p (s +:+ String c rest) = String.prefix p s.
Proof.
  revert s. induction p as [|a p IH]; intros s Hnot.
  - destruct s; reflexivity.
  - simpl in Hnot. destruct s as [|x s]; simpl.
    + destruct (ascii_dec a c) as [->|_]; [|reflexivity]. tauto.
    + destruct (ascii_dec a x); [|reflexivity]. apply IH. tauto.
Qed.

Lemma g_strdelimit_nul_before_delimiter (s rest : string) (c : ascii)
    (delimiters : list ascii) :
  c ∈ delimiters →
  g_strdelimit_nul s delimiters = s →
  g_strdelimit_nul (s +:+ String c rest) delimiters = s.
Proof.
  intros Hc. induction s as [|x s IH]; simpl.
  - intros _. rewrite bool_decide_true by exact Hc. reflexivity.
  - case_bool_decide; [discriminate|]. intros [= Hs]. rewrite (IH Hs). reflexivity.
Qed.

Lemma prefix_delimited (p s : string) (delimiters : list ascii) :
  String.prefix p (g_strdelimit_nul s delimiters) = true → String.prefix p s = true.
Proof.
  revert s. induction p as [|a p IH]; intros s.
  - destruct s; reflexivity.
  - destruct s as [|x s]; simpl; [discriminate|].
    case_bool_decide; simpl; [discriminate|].
    destruct (ascii_dec a x); [apply IH | discriminate].
Qed.

(** X26.  The key of a locale: NULL and every locale that begins with en_US
    have the empty key of the default text; what follows the first '.' or
    '(' of a locale is not part of its key, so a code-set suffix does not
    matter; a key is its own key. *)
Theorem locale_key_ignores_codeset (locale suffix : string) (delimiter : ascii) :
  is_locale_key locale →
  (delimiter = "."%char ∨ delimiter = "("%char) →
  cd_icc_get_locale_key (Some (locale +:+ String delimiter suffix))
  = cd_icc_get_locale_key (Some locale)
  ∧ cd_icc_get_locale_key (Some ("en_US" +:+ suffix)) = ""
  ∧ cd_icc_get_locale_key None = ""
  ∧ cd_icc_get_locale_key (Some (cd_icc_get_locale_key (Some suffix)))
    = cd_icc_get_locale_key (Some suffix).
Proof.
  intros Hkey Hd. split; [|split; [|split]].
  - unfold cd_icc_get_locale_key, g_str_has_prefix.
    rewrite prefix_before_delimiter
      by (simpl; destruct Hd as [-> | ->]; intuition discriminate).
    destruct (String.prefix "en_US" locale); [reflexivity|].
    rewrite Hkey. apply g_strdelimit_nul_before_delimiter; [|exact Hkey].
    destruct Hd as [-> | ->]; set_solver.
  - unfold cd_icc_get_locale_key, g_str_has_prefix. simpl.
    repeat (destruct (ascii_dec _ _); [|congruence]).
    destruct suffix; reflexivity.
  - reflexivity.
  - destruct (String.prefix "en_US" suffix) eqn:Hp.
    + assert (Hk : cd_icc_get_locale_key (Some suffix) = "")
        by (unfold cd_icc_get_locale_key, g_str_has_prefix; rewrite Hp; reflexivity).
      rewrite Hk. reflexivity.
    + assert (Hk : cd_icc_get_locale_key (Some suffix)
                   = g_strdelimit_nul suffix ["."; "("]%char)
        by (unfold cd_icc_get_locale_key, g_str_has_prefix; rewrite Hp; reflexivity).
      rewrite Hk. unfold cd_icc_get_locale_key, g_str_has_prefix.
      destruct (String.prefix "en_US" (g_strdelimit_nul suffix ["."; "("]%char)) eqn:Hq.
      * apply prefix_delimited in Hq. congruence.
      * apply g_strdelimit_nul_idemp.
Qed.

Lemma cd_icc_set_mluc_list_run (mluc : CdIccMluc) (items : list (string * string))
    (s : State) :
  NoDup items.*1 →
  Forall (λ item, cd_icc_get_locale_key (Some item.1) = item.1) items →
  (cd_icc_set_mluc_list mluc items s).2
  = {| priv := set_mluc_data mluc (list_to_map items ∪ mluc_data (priv s) mluc) (priv s);
       calls := calls s |}.
Proof.
  revert s. induction items as [|[key value] items IH]; intros s Hnd Hkeys.
  - simpl. rewrite (left_id_L ∅ (∪)).
    destruct s as [p c], p, mluc; reflexivity.
  - apply NoDup_cons in Hnd as [Hkey Hnd]. apply Forall_cons in Hkeys as [Hk Hkeys].
    cbn [cd_icc_set_mluc_list]. rewrite run_bind.
    unfold cd_icc_set_mluc at 1, modify. cbn [fst snd].
    rewrite IH by assumption. cbn [priv calls]. cbn [fst] in Hk. rewrite Hk.
    rewrite mluc_data_set_mluc_data. destruct (decide (mluc = mluc)); [|congruence].
    f_equal. simpl.
    rewrite <- insert_union_r by (apply not_elem_of_list_to_map_1, Hkey).
    rewrite insert_union_l.
    destruct (priv s), mluc; reflexivity.
Qed.

(** X27.  Setting the translations of a field from a table whose keys are
    locale keys merges the table into the cache of the field: the cache is
    the given table over what was cached before, whatever the order in
    which the table is walked.  The caches of the other fields and the rest
    of the object are as they were. *)
Theorem set_items_merges_translations (mluc : CdIccMluc)
    (values : gmap string string) (s : State) :
  map_Forall (λ key _, cd_icc_get_locale_key (Some key) = key) values →
  (cd_icc_set_mluc_items mluc values s).2
  = {| priv := set_mluc_data mluc (values ∪ mluc_data (priv s) mluc) (priv s);
       calls := calls s |}.
Proof.
  intros Hkeys. unfold cd_icc_set_mluc_items.
  rewrite cd_icc_set_mluc_list_run.
  - rewrite list_to_map_to_list. reflexivity.
  - apply NoDup_fst_map_to_list.
  - apply Forall_forall. intros [key value] Hin.
    apply elem_of_map_to_list in Hin. apply (Hkeys key value Hin).
Qed.

(** X28.  The locales that give a record: for a language and a country of
    two characters each, none of them '_', '.' or '@', and a text that
    transcodes, the key ll gives the record of the language alone and the
    key ll_CC the record of the language and the country, both with the
    wide text. *)
Theorem mlu_object_parse_accepts (language country text : string) (w : wstring) :
  String.length language = 2%nat →
  String.length country = 2%nat →
  (∀ c, In c (list_ascii_of_string (language +:+ country)) →
        c ≠ "_"%char ∧ c ≠ "."%char ∧ c ≠ "@"%char) →
  mbstowcs text = Some w →
  cd_util_mlu_object_parse (Some language) text
  = Some {| language_code := Some language; country_code := None; wtext := Some w |}
  ∧ cd_util_mlu_object_parse (Some (language +:+ "_" +:+ country)) text
    = Some {| language_code := Some language; country_code := Some country;
              wtext := Some w |}.
Proof.
  intros Hl Hc Hchars Htext.
  destruct language as [|a [|b [|]]]; try discriminate.
  destruct country as [|c [|d [|]]]; try discriminate.
  assert (Ha := Hchars a ltac:(simpl; auto)).
  assert (Hb := Hchars b ltac:(simpl; auto)).
  assert (Hc' := Hchars c ltac:(simpl; auto)).
  assert (Hd := Hchars d ltac:(simpl; auto)).
  destruct Ha as (Ha1 & Ha2 & Ha3), Hb as (Hb1 & Hb2 & Hb3),
    Hc' as (Hc1 & Hc2 & Hc3), Hd as (Hd1 & Hd2 & Hd3).
  assert (Hne : ∀ x y : ascii, x ≠ y → Ascii.eqb x y = false)
    by (intros x y; apply Ascii.eqb_neq).
  assert (Hdot : ∀ x : ascii, x ≠ "."%char → bool_decide (x ∈ ["."%char]) = false)
    by (intros x Hx; apply bool_decide_false; intros Hin;
        apply list_elem_of_singleton in Hin; congruence).
  unfold cd_util_mlu_object_parse, utf8_to_wchar_t. rewrite Htext. simpl.
  rewrite !Hne, !Hdot by assumption. simpl.
  rewrite !Hne by assumption. simpl. auto.
Qed.

End Helpers.

(** ** Tag signatures as text *)

Lemma guint8_ext (x y : Z) : x mod 256 = y mod 256 → guint8 x = guint8 y.
Proof. unfold guint8. intros ->. reflexivity. Qed.

Lemma byte_mask_bits (shift j : Z) :
  0 <= shift →
  Z.testbit (Z.shiftl (Z.ones 8) shift) j = (shift <=? j) && (j <? shift + 8).
Proof.
  intros Hshift. destruct (Z.ltb_spec j 0) as [Hneg|Hpos].
  - rewrite Z.testbit_neg_r by exact Hneg.
    destruct (Z.leb_spec shift j); [lia | reflexivity].
  - rewrite Z.shiftl_spec, Z.testbit_ones by lia.
    destruct (Z.leb_spec 0 (j - shift)), (Z.leb_spec shift j),
      (Z.ltb_spec (j - shift) 8), (Z.ltb_spec j (shift + 8)); first [reflexivity | lia].
Qed.

Lemma GUINT32_SWAP_LE_BE_bits (val i : Z) :
  0 <= i →
  Z.testbit (GUINT32_SWAP_LE_BE val) i
  = if i <? 8 then Z.testbit val (i + 24)
    else if i <? 16 then Z.testbit val (i + 8)
    else if i <? 24 then Z.testbit val (i - 8)
    else if i <? 32 then Z.testbit val (i - 24)
    else false.
Proof.
  intros Hi. unfold GUINT32_SWAP_LE_BE.
  change 0x000000ff with (Z.shiftl (Z.ones 8) 0).
  change 0x0000ff00 with (Z.shiftl (Z.ones 8) 8).
  change 0x00ff0000 with (Z.shiftl (Z.ones 8) 16).
  change 0xff000000 with (Z.shiftl (Z.ones 8) 24).
  set (m0 := Z.shiftl (Z.ones 8) 0). set (m1 := Z.shiftl (Z.ones 8) 8).
  set (m2 := Z.shiftl (Z.ones 8) 16). set (m3 := Z.shiftl (Z.ones 8) 24).
  rewrite !Z.lor_spec, !Z.shiftl_spec, !Z.shiftr_spec, !Z.land_spec by lia.
  unfold m0, m1, m2, m3. rewrite !byte_mask_bits by lia.
  destruct (Z.ltb_spec i 8), (Z.ltb_spec i 16), (Z.ltb_spec i 24), (Z.ltb_spec i 32);
    try lia;
    repeat match goal with
           | |- context [(?a <=? ?b)] => destruct (Z.leb_spec a b); try lia
           | |- context [(?a <? ?b)] => destruct (Z.ltb_spec a b); try lia
           end;
    rewrite ?andb_true_r, ?andb_false_r, ?orb_false_r, ?orb_false_l;
    reflexivity.
Qed.

Lemma GUINT32_SWAP_LE_BE_byte (val k : Z) :
  0 <= k <= 24 → (8 | k) →
  (Z.shiftr (GUINT32_SWAP_LE_BE val) k) mod 256 = (Z.shiftr val (24 - k)) mod 256.
Proof.
  intros Hk [q ->]. assert (Hq : q = 0 ∨ q = 1 ∨ q = 2 ∨ q = 3) by lia.
  apply Z.bits_inj'. intros i Hi.
  change 256 with (2 ^ 8). rewrite !Z.testbit_mod_pow2 by lia.
  destruct (Z.ltb_spec i 8) as [Hlt|]; [|reflexivity]. simpl.
  rewrite !Z.shiftr_spec by lia.
  rewrite GUINT32_SWAP_LE_BE_bits by lia.
  destruct Hq as [-> | [-> | [-> | ->]]];
    repeat match goal with
           | |- context [(?a <? ?b)] => destruct (Z.ltb_spec a b); try lia
           end;
    f_equal; lia.
Qed.

(** X29.  The text of a tag signature does not depend on the byte order of
    the host: a 32-bit signature is converted from big-endian and then
    copied from memory, which leaves its four bytes in [str], the most
    significant first, followed by a NUL. *)
Theorem signature_text_is_host_independent (order : ByteOrder) (sig : Z) :
  0 <= sig < 2 ^ 32 →
  cd_icc_uint32_to_str order (GUINT32_FROM_BE order sig)
  = [guint8 (Z.shiftr sig 24); guint8 (Z.shiftr sig 16);
     guint8 (Z.shiftr sig 8); guint8 sig; x00].
Proof.
  intros _. unfold cd_icc_uint32_to_str, guint32_in_memory, GUINT32_FROM_BE.
  destruct order; [|reflexivity]. simpl.
  pose proof (GUINT32_SWAP_LE_BE_byte sig 0 ltac:(lia) ltac:(exists 0; lia)) as H0.
  pose proof (GUINT32_SWAP_LE_BE_byte sig 8 ltac:(lia) ltac:(exists 1; lia)) as H1.
  pose proof (GUINT32_SWAP_LE_BE_byte sig 16 ltac:(lia) ltac:(exists 2; lia)) as H2.
  pose proof (GUINT32_SWAP_LE_BE_byte sig 24 ltac:(lia) ltac:(exists 3; lia)) as H3.
  rewrite Z.shiftr_0_r in H0. simpl in H0, H1, H2, H3. rewrite Z.shiftr_0_r in H3.
  rewrite (guint8_ext _ _ H0), (guint8_ext _ _ H1), (guint8_ext _ _ H2),
    (guint8_ext _ _ H3).
  reflexivity.
Qed.

(** ** The further properties at sample inputs *)

(** X3 at the object loaded from descriptor 3. *)
Lemma loaded_object_refuses_another_load_witness :
  cd_icc_load_data (os := Toy.platform) (Some (Toy.icc_bytes Sample.id)) 0 Sample.from_fd
  = (false, None, Sample.from_fd).
Proof.
  destruct (loaded_object_refuses_another_load (cms := Toy.lcms) (os := Toy.platform)
              (Some (Toy.icc_bytes Sample.id)) "file:///icc/display.icc"
              (Toy.icc_bytes (replicate 16 x00)) 0 Sample.from_fd) as [H _].
  - vm_compute. discriminate.
  - reflexivity.
  - exact H.
Defined.

(** X5 at descriptor 4, which the reference codec does not open, on the
    object loaded from descriptor 3. *)
Lemma load_fd_overwrites_handle_witness :
  lcms_profile (priv (cd_icc_load_fd (os := Toy.platform) 4 0 Sample.from_fd).2) = None.
Proof.
  destruct (load_fd_overwrites_handle (cms := Toy.lcms) (os := Toy.platform)
              4 0 Sample.from_fd {| fileno := 4 |}) as [H _].
  - lia.
  - reflexivity.
  - exact H.
Defined.

(** X6 at the display profile of the reference file store. *)
Lemma load_file_records_path_and_deletability_witness :
  (cd_icc_get_filename
     (cd_icc_load_file (os := Toy.platform) "file:///icc/display.icc" 0 Sample.new).2).1
  = Some "/icc/display.icc"%string.
Proof.
  destruct (load_file_records_path_and_deletability (cms := Toy.lcms)
              (os := Toy.platform) "file:///icc/display.icc" 0 Sample.new)
    as (data & can_delete & _ & _ & Hname & _).
  - vm_compute. reflexivity.
  - rewrite Hname. reflexivity.
Defined.

(** X7 at the same file, on the platform that cannot query attributes. *)
Lemma load_file_query_failure_reports_success_witness :
  (cd_icc_load_file (os := Example.no_query) "file:///icc/display.icc" 0 Sample.new).1
  = (true, Some {| code := CD_ICC_ERROR_FAILED_TO_OPEN;
                   format := "failed to query file: %s";
                   args := [ArgS "Permission denied"] |}).
Proof.
  destruct (load_file_query_failure_reports_success (cms := Toy.lcms)
              (os := Example.no_query) "file:///icc/display.icc" 0 Sample.new
              (Toy.icc_bytes (replicate 16 x00))
              (Toy.display_profile (replicate 16 x00)) "Permission denied") as [H _].
  - reflexivity.
  - reflexivity.
  - vm_compute. lia.
  - vm_compute. reflexivity.
  - reflexivity.
  - exact H.
Defined.

(** X8 at a description set for en_GB.UTF-8 and read for en_GB. *)
Lemma localized_text_set_then_get_witness :
  (cd_icc_get_text (os := Toy.platform) CD_MLUC_DESCRIPTION (Some "en_GB")
     (cd_icc_set_mluc CD_MLUC_DESCRIPTION (Some "en_GB.UTF-8") "Screen" Sample.new).2).1
  = (Some "Screen"%string, None).
Proof.
  destruct (localized_text_set_then_get (cms := Toy.lcms) (os := Toy.platform)
              CD_MLUC_DESCRIPTION CD_MLUC_COPYRIGHT (Some "en_GB.UTF-8") (Some "en_GB")
              "Screen" Sample.new) as [H _].
  - reflexivity.
  - rewrite H. reflexivity.
Defined.

(** X10 at a copyright read for fr_FR and then for fr. *)
Lemma localized_text_cached_under_language_witness :
  mluc_data (priv (cd_icc_get_text (os := Toy.platform) CD_MLUC_COPYRIGHT (Some "fr_FR")
                     Example.french_object).2) CD_MLUC_COPYRIGHT !! "fr_FR" = None
  ∧ (cd_icc_get_text (os := Toy.platform) CD_MLUC_COPYRIGHT (Some "fr")
       (cd_icc_get_text (os := Toy.platform) CD_MLUC_COPYRIGHT (Some "fr_FR")
          Example.french_object).2).1
    = (Some "Libre"%string, None).
Proof.
  destruct (localized_text_cached_under_language (cms := Toy.lcms) (os := Toy.platform)
              CD_MLUC_COPYRIGHT (Some "fr_FR") Example.french_object 2 "Libre")
    as (_ & Hfull & Hlanguage).
  - reflexivity.
  - reflexivity.
  - vm_compute. reflexivity.
  - split; [exact Hfull|].
    change (String.substring 0 2 (cd_icc_get_locale_key (Some "fr_FR"))) with "fr"%string
      in Hlanguage.
    rewrite Hlanguage. reflexivity.
Defined.

(** X11 at the locale eng on a new object. *)
Lemma invalid_locale_rejected_witness :
  cd_icc_get_text (os := Toy.platform) CD_MLUC_MODEL (Some "eng") Sample.new
  = (None, Some {| code := CD_ICC_ERROR_INVALID_LOCALE;
                   format := "invalid locale: %s";
                   args := [ArgS "eng"] |}, Sample.new).
Proof.
  apply (invalid_locale_rejected (cms := Toy.lcms) (os := Toy.platform)
           CD_MLUC_MODEL "eng" Sample.new).
  - reflexivity.
  - discriminate.
  - simpl. lia.
Defined.

(** X12 at a profile with both description tags. *)
Lemma description_prefers_dscm_witness :
  (cd_icc_get_description (os := Toy.platform) None Example.apple_object).1
  = (Some "Libre"%string, None).
Proof.
  rewrite (description_prefers_dscm (cms := Toy.lcms) (os := Toy.platform)
             Example.apple_object Example.apple
             [("", "", Example.libre)]%string "Libre").
  - reflexivity.
  - reflexivity.
  - reflexivity.
  - reflexivity.
  - vm_compute. discriminate.
  - reflexivity.
Defined.

(** X13 at the copyright of the profile without tags. *)
Lemma missing_tag_is_no_data_witness :
  cd_icc_get_text (os := Toy.platform) CD_MLUC_COPYRIGHT None Sample.from_fd
  = (None, Some {| code := CD_ICC_ERROR_NO_DATA;
                   format := "cmsSigProfile*Tag mising";
                   args := [] |}, Sample.from_fd).
Proof.
  apply (missing_tag_is_no_data (cms := Toy.lcms) (os := Toy.platform)
           CD_MLUC_COPYRIGHT Sample.from_fd (Toy.display_profile (replicate 16 x00))).
  - reflexivity.
  - reflexivity.
  - intros sig _. reflexivity.
Defined.

(** X16 at a description with a default text only. *)
Lemma description_write_deletes_dscm_witness :
  ∃ pre mlu,
    calls (cd_util_write_tag_localized (os := Toy.platform) cmsSigProfileDescriptionTag
             (<["" := "Screen"%string]> ∅) Sample.from_fd).2
    = calls Sample.from_fd ++ pre
      ++ [Call_cmsWriteTag cmsSigProfileDescriptionTag (Some (TagMLU mlu));
          Call_cmsWriteTag 0x6473636d None].
Proof.
  destruct (description_write_deletes_dscm (cms := Toy.lcms) (os := Toy.platform)
              cmsSigProfileDescriptionTag (<["" := "Screen"%string]> ∅) Sample.from_fd
              (Toy.display_profile (replicate 16 x00)))
    as (pre & mlu & _ & _ & Hcalls).
  - reflexivity.
  - vm_compute. discriminate.
  - vm_compute. reflexivity.
  - exists pre, mlu. exact Hcalls.
Defined.

(** X17 at a default text that is the single byte 0xFF. *)
Lemma untranscodable_default_text_fails_witness :
  (cd_util_write_tag_localized (os := Toy.platform) cmsSigCopyrightTag
     Example.bad_default Sample.from_fd).1.1 = false.
Proof.
  destruct (untranscodable_default_text_fails (cms := Toy.lcms) (os := Toy.platform)
              cmsSigCopyrightTag Example.bad_default Sample.not_utf8 Sample.from_fd
              (Toy.display_profile (replicate 16 x00))) as (_ & H & _).
  - reflexivity.
  - intros m language country. reflexivity.
  - reflexivity.
  - reflexivity.
  - rewrite H. reflexivity.
Defined.

(** X18 at the locale fr_FR. *)
Lemma mlu_object_codes_have_two_characters_witness :
  well_formed_record {| language_code := Some "fr"%string;
                        country_code := Some "FR"%string;
                        wtext := Some [69; 99; 114; 97; 110] |}.
Proof.
  destruct (mlu_object_codes_have_two_characters (os := Toy.platform)
              (Some "fr_FR"%string) "Ecran"
              {| language_code := Some "fr"%string; country_code := Some "FR"%string;
                 wtext := Some [69; 99; 114; 97; 110] |}) as [H _].
  - vm_compute. reflexivity.
  - exact H.
Defined.


(** X20 at the object loaded from descriptor 3, which has no metadata. *)
Lemma empty_metadata_deletes_the_tag_witness :
  metadata_deleted Sample.from_fd
    (cd_icc_save_file (os := Toy.platform) "file:///tmp/out.icc" Sample.from_fd).2.
Proof.
  destruct (empty_metadata_deletes_the_tag (cms := Toy.lcms) (os := Toy.platform)
              "file:///tmp/out.icc" Sample.from_fd) as [H _].
  - vm_compute. discriminate.
  - reflexivity.
  - exact H.
Defined.

(** X21 at the display profile for RGB. *)
Lemma load_maps_header_fields_witness :
  (cd_icc_get_kind Sample.from_data).1 = CD_PROFILE_KIND_DISPLAY_DEVICE
  ∧ (cd_icc_get_colorspace Sample.from_data).1 = CD_COLORSPACE_RGB.
Proof.
  destruct (load_maps_header_fields (cms := Toy.lcms) (os := Toy.platform)
              (Toy.icc_bytes Sample.id) 0 Sample.new (Toy.display_profile Sample.id))
    as (_ & Hkind & _ & Hspace & _).
  - reflexivity.
  - vm_compute. lia.
  - vm_compute. reflexivity.
  - split.
    + apply Hkind. right. left.
    + apply Hspace. do 5 right. left.
Defined.


(** X23 at a profile with the colour "Red" and a name that stays invalid. *)
Lemma named_colors_are_valid_utf8_witness :
  ∃ new,
    (cd_icc_get_named_colors
       (cd_icc_load_named_colors (os := Toy.platform) Example.swatches_object).2).1
    = named_colors (priv Example.swatches_object) ++ new
    ∧ (length new ≤ 2)%nat
    ∧ Forall (λ swatch, g_utf8_validate (Platform := Toy.platform)
                          (swatch_name swatch) = true) new.
Proof.
  destruct (named_colors_are_valid_utf8 (cms := Toy.lcms) (os := Toy.platform)
              Example.swatches_object Example.swatches) as [_ H].
  - reflexivity.
  - destruct (H Example.colours eq_refl) as (new & H1 & H2 & H3 & _).
    exists new. auto.
Defined.

(** X24 at the display profile for RGB. *)
Lemma load_then_save_keeps_class_and_space_witness :
  ∃ rest,
    calls (cd_icc_save_file (os := Toy.platform) "file:///tmp/out.icc"
             Sample.from_data).2
    = calls Sample.from_data
      ++ Call_cmsSetDeviceClass cmsSigDisplayClass
         :: Call_cmsSetColorSpace cmsSigRgbData :: rest.
Proof.
  apply (load_then_save_keeps_class_and_space (cms := Toy.lcms) (os := Toy.platform)
           (Toy.icc_bytes Sample.id) 0 "file:///tmp/out.icc" Sample.new
           (Toy.display_profile Sample.id) CD_PROFILE_KIND_DISPLAY_DEVICE
           CD_COLORSPACE_RGB).
  - reflexivity.
  - vm_compute. lia.
  - vm_compute. reflexivity.
  - right. left.
  - do 5 right. left.
Defined.

(** X25 at the bytes of "A" and a Latin-1 registered sign. *)
Lemma fix_utf8_string_without_0x86_witness :
  cd_icc_fix_utf8_string (os := Toy.platform) [x41; xae] = (true, [x41; xc2; xae]).
Proof.
  destruct (fix_utf8_string_without_0x86 (os := Toy.platform) [x41; xae]) as [H _].
  - intros Hin. apply elem_of_cons in Hin as [Hin|Hin]; [discriminate|].
    apply elem_of_cons in Hin as [Hin|Hin]; [discriminate|].
    apply elem_of_nil in Hin. exact Hin.
  - rewrite H. reflexivity.
Defined.

(** X26 at en_GB.UTF-8. *)
Lemma locale_key_ignores_codeset_witness :
  cd_icc_get_locale_key (Some "en_GB.UTF-8"%string) = "en_GB"%string.
Proof.
  destruct (locale_key_ignores_codeset "en_GB" "UTF-8" ".") as [H _].
  - reflexivity.
  - left. reflexivity.
  - exact H.
Defined.

(** X27 at two translations on a new object. *)
Lemma set_items_merges_translations_witness :
  (cd_icc_set_mluc_items CD_MLUC_DESCRIPTION Example.translations Sample.new).2
  = {| priv := set_mluc_data CD_MLUC_DESCRIPTION
                 (Example.translations ∪ mluc_data (priv Sample.new) CD_MLUC_DESCRIPTION)
                 (priv Sample.new);
       calls := calls Sample.new |}.
Proof.
  apply (set_items_merges_translations (cms := Toy.lcms) CD_MLUC_DESCRIPTION
           Example.translations Sample.new).
  apply map_Forall_to_list. vm_compute. repeat constructor.
Defined.

(** X28 at fr and fr_FR. *)
Lemma mlu_object_parse_accepts_witness :
  cd_util_mlu_object_parse (os := Toy.platform) (Some "fr_FR"%string) "Ecran"
  = Some {| language_code := Some "fr"%string; country_code := Some "FR"%string;
            wtext := Some [69; 99; 114; 97; 110] |}.
Proof.
  destruct (mlu_object_parse_accepts (os := Toy.platform) "fr" "FR" "Ecran"
              [69; 99; 114; 97; 110]) as [_ H].
  - reflexivity.
  - reflexivity.
  - intros c Hin. simpl in Hin.
    destruct Hin as [<-|[<-|[<-|[<-|[]]]]]; repeat split; discriminate.
  - reflexivity.
  - exact H.
Defined.

(** X30 at the copyright of a profile that is read from bytes with a
    copyright tag. *)
Lemma load_caches_default_texts_witness :
  (cd_icc_get_text (cms := Example.tagged) (os := Toy.platform) CD_MLUC_COPYRIGHT None
     (cd_icc_load_data (cms := Example.tagged) (os := Toy.platform)
        (Some (Toy.icc_bytes Sample.id)) 0 (cd_icc_new (cms := Example.tagged))).2).1
  = (Some "CC0"%string, None).
Proof.
  rewrite (load_caches_default_texts (cms := Example.tagged) (os := Toy.platform)
             (Toy.icc_bytes Sample.id) 0 (cd_icc_new (cms := Example.tagged))
             (Toy.set_tags [(cmsSigCopyrightTag, TagMLU [("", "", Example.cc0)]%string)]
                (Toy.display_profile Sample.id))
             CD_MLUC_COPYRIGHT [("", "", Example.cc0)]%string "CC0").
  - reflexivity.
  - reflexivity.
  - vm_compute. lia.
  - vm_compute. reflexivity.
  - reflexivity.
  - reflexivity.
  - vm_compute. discriminate.
  - reflexivity.
Defined.

(** X29 at the signature of the copyright tag, 'cprt', on a little-endian
    host. *)
Lemma signature_text_is_host_independent_witness :
  cd_icc_uint32_to_str G_LITTLE_ENDIAN (GUINT32_FROM_BE G_LITTLE_ENDIAN cmsSigCopyrightTag)
  = [x63; x70; x72; x74; x00].
Proof.
  rewrite (signature_text_is_host_independent G_LITTLE_ENDIAN cmsSigCopyrightTag).
  - reflexivity.
  - unfold cmsSigCopyrightTag. lia.
Defined.
